(** * MarketInsight: the analysis-response pipeline

    A shallow embedding of [services/gemini.ts] (request construction,
    grounding-link extraction, the fenced-JSON response parser, the chat
    continuation), of [runAnalysis] in [App.tsx] and of [handleSend] in
    [components/ChatInterface.tsx], with the properties the specification
    states about them.

    JavaScript strings are sequences of UTF-16 code units; they are modelled
    as lists of code units ([N]).  Asynchronous functions are modelled in an
    exception-and-state monad: a rejected promise is a thrown exception, and
    each handler runs to completion without interleaving (the UI disables
    its controls while a call is outstanding). *)

From Stdlib Require Import Ascii String.
From Stdlib Require Import List NArith ZArith Bool Lia Arith.
Import ListNotations.

Set Implicit Arguments.

(* ================================================================== *)
(** * JavaScript strings *)
(* ================================================================== *)

Module JsString.

(** A string is its sequence of UTF-16 code units. *)
Definition jsstring := list N.

Definition eqb (a b : jsstring) : bool :=
  if list_eq_dec N.eq_dec a b then true else false.

(** ** String literals

    Literals are written as Rocq strings (UTF-8 bytes) and decoded to the
    code units the TypeScript source denotes. *)

Definition cont (b : N) : N := b mod 64.

Fixpoint utf8_points (bs : list N) : list N :=
  match bs with
  | [] => []
  | b :: r =>
      if b <? 128 then b :: utf8_points r
      else if b <? 224 then
        match r with
        | b1 :: r1 => ((b mod 32) * 64 + cont b1) :: utf8_points r1
        | _ => []
        end
      else if b <? 240 then
        match r with
        | b1 :: b2 :: r2 =>
            ((b mod 16) * 4096 + cont b1 * 64 + cont b2) :: utf8_points r2
        | _ => []
        end
      else
        match r with
        | b1 :: b2 :: b3 :: r3 =>
            ((b mod 8) * 262144 + cont b1 * 4096 + cont b2 * 64 + cont b3)
              :: utf8_points r3
        | _ => []
        end
  end%N.

Definition units_of_point (cp : N) : list N :=
  if (cp <? 65536)%N then [cp]
  else let v := (cp - 65536)%N in
       [55296 + v / 1024; 56320 + v mod 1024]%N.

Definition bytes_of_string (s : string) : list N :=
  map N_of_ascii (list_ascii_of_string s).

Definition utf16 (s : string) : jsstring :=
  flat_map units_of_point (utf8_points (bytes_of_string s)).

(** Test inputs that carry JSON are written with an apostrophe wherever
    the JavaScript text has a double quote; [dq] restores the quotes. *)
Definition quote : N := 34.
Definition apostrophe : N := 39.
Definition dq (s : string) : jsstring :=
  map (fun c => if (c =? apostrophe)%N then quote else c) (utf16 s).

Arguments utf16 s%_string.
Arguments dq s%_string.

(** ** Truthiness of a string: non-empty. *)
Definition truthy (s : jsstring) : bool :=
  match s with [] => false | _ => true end.

(** ** [String.prototype.trim]

    WhiteSpace and LineTerminator code points of ECMAScript: TAB, LF, VT, FF,
    CR, SP, NBSP, the Unicode space separators, LS, PS and the BOM. *)
Definition is_white_space (c : N) : bool :=
  ((c =? 9) || (c =? 10) || (c =? 11) || (c =? 12) || (c =? 13) || (c =? 32)
   || (c =? 160) || (c =? 5760) || ((8192 <=? c) && (c <=? 8202))
   || (c =? 8232) || (c =? 8233) || (c =? 8239) || (c =? 8287)
   || (c =? 12288) || (c =? 65279))%N.

Fixpoint trimStart (s : jsstring) : jsstring :=
  match s with
  | c :: r => if is_white_space c then trimStart r else s
  | [] => []
  end.

Definition trimEnd (s : jsstring) : jsstring := rev (trimStart (rev s)).

Definition trim (s : jsstring) : jsstring := trimEnd (trimStart s).

(** ** [String.prototype.startsWith], [indexOf], [replace] and [split] *)

Fixpoint startsWith (s pat : jsstring) : bool :=
  match pat, s with
  | [], _ => true
  | p :: pat', c :: s' => (c =? p)%N && startsWith s' pat'
  | _ :: _, [] => false
  end.

(** Index of the first occurrence of [pat] in [s]. *)
Fixpoint indexOf (s pat : jsstring) : option nat :=
  if startsWith s pat then Some 0
  else match s with
       | [] => None
       | _ :: s' => option_map S (indexOf s' pat)
       end.

(** [s.replace(pat, repl)] for a string pattern: the first occurrence only.
    [repl] is taken literally, which is what JavaScript does when it holds
    no dollar sign. *)
Definition replace (s pat repl : jsstring) : jsstring :=
  match indexOf s pat with
  | None => s
  | Some i => firstn i s ++ repl ++ skipn (i + length pat) s
  end.

(** [s.split(sep)] for a one-unit separator. *)
Fixpoint split (sep : N) (s : jsstring) : list jsstring :=
  match s with
  | [] => [[]]
  | c :: r =>
      if (c =? sep)%N then [] :: split sep r
      else match split sep r with
           | piece :: rest => (c :: piece) :: rest
           | [] => [[c]]
           end
  end.

(** Decimal rendering of a length, as a template literal does it. *)
Definition digit_unit (d : nat) : N := (48 + N.of_nat d)%N.

Fixpoint decimal_fuel (fuel n : nat) (acc : jsstring) : jsstring :=
  match fuel with
  | O => acc
  | S fuel' =>
      let acc' := digit_unit (n mod 10) :: acc in
      if n / 10 =? 0 then acc' else decimal_fuel fuel' (n / 10) acc'
  end.

Definition decimal (n : nat) : jsstring := decimal_fuel (S n) n [].

End JsString.
Import JsString.

(* ================================================================== *)
(** * JSON values and [JSON.parse] *)
(* ================================================================== *)

Module Json.

(** A number is kept as the decimal its literal denotes,
    [(-1)^negative * digits * 10^exponent].  [JSON.parse] rounds it to an
    IEEE double; of that rounding only the test for zero is needed here. *)
Record number := Number { negative : bool; digits : N; exponent : Z }.

#[warnings="-register-all"]
Inductive json :=
| JNull
| JBool (b : bool)
| JNumber (n : number)
| JString (s : jsstring)
| JArray (items : list json)
| JObject (members : list (jsstring * json)).

(** The double nearest to the decimal is zero when the decimal is zero or
    at most [2^-1075], half of the smallest subnormal. *)
Definition rounds_to_zero (n : number) : bool :=
  ((digits n =? 0)%N
   || ((exponent n <? 0)%Z
       && (Z.of_N (digits n) * 2 ^ 1075 <=? 10 ^ (- exponent n))%Z)).

(** ToBoolean. *)
Definition truthy (v : json) : bool :=
  match v with
  | JNull => false
  | JBool b => b
  | JNumber n => negb (rounds_to_zero n)
  | JString s => JsString.truthy s
  | JArray _ | JObject _ => true
  end.

(** Defining a property on an object: an existing key keeps its place and
    takes the new value, a new key goes last. *)
Fixpoint obj_set (members : list (jsstring * json)) (k : jsstring) (v : json)
  : list (jsstring * json) :=
  match members with
  | [] => [(k, v)]
  | (k', v') :: rest =>
      if JsString.eqb k' k then (k', v) :: rest
      else (k', v') :: obj_set rest k v
  end.

Fixpoint obj_get (members : list (jsstring * json)) (k : jsstring)
  : option json :=
  match members with
  | [] => None
  | (k', v') :: rest => if JsString.eqb k' k then Some v' else obj_get rest k
  end.

(** ** Lexer: one code unit at a time *)

Inductive token :=
| TLBrace | TRBrace | TLBracket | TRBracket | TColon | TComma
| TAtom (v : json)
| TStr (s : jsstring).

Inductive num_state :=
| NMinus | NZero | NInt | NDot | NFrac | NE | NESign | NExp.

Inductive lex_mode :=
| LStart
| LStr (acc : jsstring)
| LEsc (acc : jsstring)
| LHex (acc : jsstring) (k : nat) (v : N)
| LNum (st : num_state) (neg : bool) (mant : N) (scale : Z)
       (eneg : bool) (e : N)
| LWord (expect : jsstring) (v : json).

Definition is_json_space (c : N) : bool :=
  ((c =? 32) || (c =? 9) || (c =? 10) || (c =? 13))%N.

Definition digit_of (c : N) : option N :=
  if ((48 <=? c) && (c <=? 57))%N then Some (c - 48)%N else None.

Definition hex_of (c : N) : option N :=
  if ((48 <=? c) && (c <=? 57))%N then Some (c - 48)%N
  else if ((97 <=? c) && (c <=? 102))%N then Some (c - 87)%N
  else if ((65 <=? c) && (c <=? 70))%N then Some (c - 55)%N
  else None.

Definition number_of (neg : bool) (mant : N) (scale : Z) (eneg : bool) (e : N)
  : number :=
  Number neg mant ((if eneg then - Z.of_N e else Z.of_N e) - scale)%Z.

Definition lex_state := (lex_mode * list token)%type.

Definition lex_start (toks : list token) (c : N) : option lex_state :=
  if is_json_space c then Some (LStart, toks)
  else if (c =? 123)%N then Some (LStart, TLBrace :: toks)
  else if (c =? 125)%N then Some (LStart, TRBrace :: toks)
  else if (c =? 91)%N then Some (LStart, TLBracket :: toks)
  else if (c =? 93)%N then Some (LStart, TRBracket :: toks)
  else if (c =? 58)%N then Some (LStart, TColon :: toks)
  else if (c =? 44)%N then Some (LStart, TComma :: toks)
  else if (c =? 34)%N then Some (LStr [], toks)
  else if (c =? 45)%N then Some (LNum NMinus true 0 0 false 0, toks)
  else if (c =? 48)%N then Some (LNum NZero false 0 0 false 0, toks)
  else if (c =? 116)%N then Some (LWord (utf16 "rue") (JBool true), toks)
  else if (c =? 102)%N then Some (LWord (utf16 "alse") (JBool false), toks)
  else if (c =? 110)%N then Some (LWord (utf16 "ull") JNull, toks)
  else match digit_of c with
       | Some d => Some (LNum NInt false d 0 false 0, toks)
       | None => None
       end.

Definition is_e (c : N) : bool := ((c =? 101) || (c =? 69))%N.

(** The number is complete at [c]: emit it and read [c] as a token start. *)
Definition lex_number_end (toks : list token) (neg : bool) (mant : N)
  (scale : Z) (eneg : bool) (e : N) (c : N) : option lex_state :=
  lex_start (TAtom (JNumber (number_of neg mant scale eneg e)) :: toks) c.

Definition lex_step (st : lex_state) (c : N) : option lex_state :=
  let '(mode, toks) := st in
  match mode with
  | LStart => lex_start toks c
  | LStr acc =>
      if (c =? 34)%N then Some (LStart, TStr (rev acc) :: toks)
      else if (c =? 92)%N then Some (LEsc acc, toks)
      else if (c <? 32)%N then None
      else Some (LStr (c :: acc), toks)
  | LEsc acc =>
      if (c =? 34)%N then Some (LStr (34 :: acc)%N, toks)
      else if (c =? 92)%N then Some (LStr (92 :: acc)%N, toks)
      else if (c =? 47)%N then Some (LStr (47 :: acc)%N, toks)
      else if (c =? 98)%N then Some (LStr (8 :: acc)%N, toks)
      else if (c =? 102)%N then Some (LStr (12 :: acc)%N, toks)
      else if (c =? 110)%N then Some (LStr (10 :: acc)%N, toks)
      else if (c =? 114)%N then Some (LStr (13 :: acc)%N, toks)
      else if (c =? 116)%N then Some (LStr (9 :: acc)%N, toks)
      else if (c =? 117)%N then Some (LHex acc 0 0, toks)
      else None
  | LHex acc k v =>
      match hex_of c with
      | Some d =>
          let v' := (v * 16 + d)%N in
          if k =? 3 then Some (LStr (v' :: acc), toks)
          else Some (LHex acc (S k) v', toks)
      | None => None
      end
  | LNum ns neg mant scale eneg e =>
      match ns, digit_of c with
      | NMinus, Some d =>
          if (d =? 0)%N then Some (LNum NZero neg 0 0 false 0, toks)
          else Some (LNum NInt neg d 0 false 0, toks)
      | NMinus, None => None
      | NZero, _ =>
          if (c =? 46)%N then Some (LNum NDot neg mant scale eneg e, toks)
          else if is_e c then Some (LNum NE neg mant scale eneg e, toks)
          else lex_number_end toks neg mant scale eneg e c
      | NInt, Some d =>
          Some (LNum NInt neg (mant * 10 + d) scale eneg e, toks)
      | NInt, None =>
          if (c =? 46)%N then Some (LNum NDot neg mant scale eneg e, toks)
          else if is_e c then Some (LNum NE neg mant scale eneg e, toks)
          else lex_number_end toks neg mant scale eneg e c
      | NDot, Some d =>
          Some (LNum NFrac neg (mant * 10 + d) (scale + 1) eneg e, toks)
      | NDot, None => None
      | NFrac, Some d =>
          Some (LNum NFrac neg (mant * 10 + d) (scale + 1) eneg e, toks)
      | NFrac, None =>
          if is_e c then Some (LNum NE neg mant scale eneg e, toks)
          else lex_number_end toks neg mant scale eneg e c
      | NE, Some d => Some (LNum NExp neg mant scale eneg d, toks)
      | NE, None =>
          if (c =? 43)%N then Some (LNum NESign neg mant scale false e, toks)
          else if (c =? 45)%N then Some (LNum NESign neg mant scale true e, toks)
          else None
      | NESign, Some d => Some (LNum NExp neg mant scale eneg d, toks)
      | NESign, None => None
      | NExp, Some d =>
          Some (LNum NExp neg mant scale eneg (e * 10 + d), toks)
      | NExp, None => lex_number_end toks neg mant scale eneg e c
      end
  | LWord expect v =>
      match expect with
      | x :: rest =>
          if (c =? x)%N then
            match rest with
            | [] => Some (LStart, TAtom v :: toks)
            | _ => Some (LWord rest v, toks)
            end
          else None
      | [] => None
      end
  end.

Fixpoint lex_run (st : lex_state) (s : jsstring) : option lex_state :=
  match s with
  | [] => Some st
  | c :: r =>
      match lex_step st c with
      | Some st' => lex_run st' r
      | None => None
      end
  end.

Definition lex_finish (st : lex_state) : option (list token) :=
  let '(mode, toks) := st in
  match mode with
  | LStart => Some (rev toks)
  | LNum (NZero | NInt | NFrac | NExp) neg mant scale eneg e =>
      Some (rev (TAtom (JNumber (number_of neg mant scale eneg e)) :: toks))
  | _ => None
  end.

Definition lex (s : jsstring) : option (list token) :=
  match lex_run (LStart, []) s with
  | Some st => lex_finish st
  | None => None
  end.

(** ** Parser: one token at a time, with the open arrays and objects on a
    stack *)

Inductive frame :=
| FArr (items_rev : list json)
| FObj (members : list (jsstring * json)) (key : jsstring).

Inductive pmode :=
| PValue
| PArrOpen
| PObjOpen
| PObjKey (members : list (jsstring * json))
| PColon (members : list (jsstring * json)) (key : jsstring)
| PDone (v : json).

Definition pstate := (pmode * list frame)%type.

Definition parse_value_start (stack : list frame) (t : token) : option pstate :=
  match t with
  | TAtom v => Some (PDone v, stack)
  | TStr s => Some (PDone (JString s), stack)
  | TLBracket => Some (PArrOpen, stack)
  | TLBrace => Some (PObjOpen, stack)
  | _ => None
  end.

Definition parse_step (st : pstate) (t : token) : option pstate :=
  let '(mode, stack) := st in
  match mode with
  | PValue => parse_value_start stack t
  | PArrOpen =>
      match t with
      | TRBracket => Some (PDone (JArray []), stack)
      | _ => parse_value_start (FArr [] :: stack) t
      end
  | PObjOpen =>
      match t with
      | TRBrace => Some (PDone (JObject []), stack)
      | TStr k => Some (PColon [] k, stack)
      | _ => None
      end
  | PObjKey members =>
      match t with
      | TStr k => Some (PColon members k, stack)
      | _ => None
      end
  | PColon members k =>
      match t with
      | TColon => Some (PValue, FObj members k :: stack)
      | _ => None
      end
  | PDone v =>
      match stack, t with
      | FArr items :: stack', TComma => Some (PValue, FArr (v :: items) :: stack')
      | FArr items :: stack', TRBracket =>
          Some (PDone (JArray (rev (v :: items))), stack')
      | FObj members k :: stack', TComma =>
          Some (PObjKey (obj_set members k v), stack')
      | FObj members k :: stack', TRBrace =>
          Some (PDone (JObject (obj_set members k v)), stack')
      | _, _ => None
      end
  end.

Fixpoint parse_run (st : pstate) (ts : list token) : option pstate :=
  match ts with
  | [] => Some st
  | t :: r =>
      match parse_step st t with
      | Some st' => parse_run st' r
      | None => None
      end
  end.

Definition parse_tokens (ts : list token) : option json :=
  match parse_run (PValue, []) ts with
  | Some (PDone v, []) => Some v
  | _ => None
  end.

(** [JSON.parse(text)]; [None] stands for the thrown [SyntaxError]. *)
Definition JSON_parse (text : jsstring) : option json :=
  match lex text with
  | Some ts => parse_tokens ts
  | None => None
  end.

End Json.
Import Json.


(* ================================================================== *)
(** * Exceptions, state and the external world *)
(* ================================================================== *)

(** What a rejected promise or a [throw] carries. *)
Inductive exn :=
| ApiKeyMissing                 (* Error("API Key is missing in process.env") *)
| FileReadError                 (* the FileReader error event *)
| ServiceError (detail : jsstring)  (* whatever the SDK call rejects with *)
| SyntaxError.                  (* thrown by JSON.parse *)

Inductive outcome (A : Type) :=
| Returned (a : A)
| Thrown (e : exn).
Arguments Returned {A} a.
Arguments Thrown {A} e.

(** Computations over a state [S] that may throw. *)
Definition M (S A : Type) : Type := S -> outcome A * S.

Definition ret {S A} (a : A) : M S A := fun s => (Returned a, s).

Definition bind {S A B} (m : M S A) (k : A -> M S B) : M S B :=
  fun s => match m s with
           | (Returned a, s') => k a s'
           | (Thrown e, s') => (Thrown e, s')
           end.

Definition throw {S A} (e : exn) : M S A := fun s => (Thrown e, s).

Definition get {S} : M S S := fun s => (Returned s, s).

Definition modify {S} (f : S -> S) : M S unit := fun s => (Returned tt, f s).

(** [try { m } catch (e) { h e }] *)
Definition try_catch {S A} (m : M S A) (h : exn -> M S A) : M S A :=
  fun s => match m s with
           | (Returned a, s') => (Returned a, s')
           | (Thrown e, s') => h e s'
           end.

(** [try { m } finally { f }] *)
Definition finally {S A} (m : M S A) (f : M S unit) : M S A :=
  fun s => match m s with
           | (r, s') =>
               match f s' with
               | (Returned _, s'') => (r, s'')
               | (Thrown e, s'') => (Thrown e, s'')
               end
           end.

(** Running a computation on a component of a larger state. *)
Definition zoom {S T A} (proj : S -> T) (inj : T -> S -> S) (m : M T A)
  : M S A :=
  fun s => match m (proj s) with (r, t') => (r, inj t' s) end.

Declare Scope monad_scope.
Delimit Scope monad_scope with monad.
Notation "x <- m ;; k" := (bind m (fun x => k))
  (at level 61, m at next level, right associativity) : monad_scope.
Notation "m ;;; k" := (bind m (fun _ => k))
  (at level 61, right associativity) : monad_scope.
Open Scope monad_scope.

(* ================================================================== *)
(** * types.ts, constants.ts and the SDK's data *)
(* ================================================================== *)

(** ** types.ts *)

Module Types.

Inductive Trend := up | down | neutral.

Record SectorData := {
  name : jsstring;
  trend : Trend;
  value : number
}.

Record VisualizationData := {
  sentimentScore : number;
  volatilityIndex : number;
  marketPhase : jsstring;
  keySectors : list SectorData
}.

Record GroundingLink := { title : jsstring; url : jsstring }.

(** [visualizationData] holds whatever [JSON.parse] produced: the
    annotation [VisualizationData | null] is not checked at run time, so
    the field is a JSON value, [JNull] being [null]. *)
Record AnalysisResponse := {
  markdownReport : jsstring;
  visualizationData : json;
  groundingLinks : list GroundingLink
}.

Inductive Role := user | model.

Record ChatMessage := {
  id : jsstring;
  role : Role;
  text : jsstring;
  timestamp : nat
}.

(** ** The shape [VisualizationData] read off a JSON value *)

Definition as_number (v : json) : option number :=
  match v with JNumber n => Some n | _ => None end.

Definition as_string (v : json) : option jsstring :=
  match v with JString s => Some s | _ => None end.

Definition as_Trend (v : json) : option Trend :=
  match v with
  | JString s =>
      if JsString.eqb s (utf16 "up") then Some up
      else if JsString.eqb s (utf16 "down") then Some down
      else if JsString.eqb s (utf16 "neutral") then Some neutral
      else None
  | _ => None
  end.

Definition field {A} (members : list (jsstring * json)) (k : string)
  (read : json -> option A) : option A :=
  match obj_get members (utf16 k) with
  | Some v => read v
  | None => None
  end.

Definition as_SectorData (v : json) : option SectorData :=
  match v with
  | JObject ms =>
      match field ms "name" as_string, field ms "trend" as_Trend,
            field ms "value" as_number with
      | Some n, Some t, Some x => Some {| name := n; trend := t; value := x |}
      | _, _, _ => None
      end
  | _ => None
  end.

Fixpoint all_some {A} (l : list (option A)) : option (list A) :=
  match l with
  | [] => Some []
  | Some a :: r => option_map (cons a) (all_some r)
  | None :: _ => None
  end.

Definition as_sectors (v : json) : option (list SectorData) :=
  match v with
  | JArray items => all_some (map as_SectorData items)
  | _ => None
  end.

Definition as_VisualizationData (v : json) : option VisualizationData :=
  match v with
  | JObject ms =>
      match field ms "sentimentScore" as_number,
            field ms "volatilityIndex" as_number,
            field ms "marketPhase" as_string,
            field ms "keySectors" as_sectors with
      | Some s, Some vi, Some p, Some k =>
          Some {| sentimentScore := s; volatilityIndex := vi;
                  marketPhase := p; keySectors := k |}
      | _, _, _, _ => None
      end
  | _ => None
  end.

End Types.
Import Types.

(** ** constants.ts *)

Definition int (n : N) : number := Number false n 0.

Definition sector_json (n : string) (t : string) (v : N) : json :=
  JObject [(utf16 "name", JString (utf16 n));
           (utf16 "trend", JString (utf16 t));
           (utf16 "value", JNumber (int v))].

Definition GEMINI_MODEL : jsstring := utf16 "gemini-2.5-flash".

Definition INITIAL_VISUALIZATION_DATA : json :=
  JObject [(utf16 "sentimentScore", JNumber (int 50));
           (utf16 "volatilityIndex", JNumber (int 30));
           (utf16 "marketPhase", JString (utf16 "等待数据"));
           (utf16 "keySectors",
             JArray [sector_json "科技" "neutral" 0;
                     sector_json "金融" "neutral" 0;
                     sector_json "能源" "neutral" 0;
                     sector_json "医疗" "neutral" 0])].

(** ** The SDK's requests and responses *)

Record InlineData := { data : option jsstring; mimeType : jsstring }.

Inductive Part :=
| InlinePart (inlineData : InlineData)
| TextPart (t : jsstring).

Record Content := { content_role : Role; parts : list Part }.

Inductive Tool := googleSearch.

Record Config := { systemInstruction : jsstring; tools : list Tool }.

Record GenerateContentParameters := {
  gc_model : jsstring;
  contents : Content;
  config : Config
}.

Record Web := { web_uri : option jsstring; web_title : option jsstring }.
Record GroundingChunk := { web : option Web }.
Record GroundingMetadata := { groundingChunks : option (list GroundingChunk) }.
Record Candidate := { groundingMetadata : option GroundingMetadata }.

Record GenerateContentResponse := {
  response_text : option jsstring;
  candidates : option (list Candidate)
}.

Record GoogleGenAI := { apiKey : jsstring }.

(** A chat session as [ai.chats.create] builds it. *)
Record Chat := {
  chat_model : jsstring;
  chat_config : Config;
  history : list Content
}.

(** A file as the pipeline sees it: its declared media type and what
    [FileReader.readAsDataURL] yields, [None] being a read error. *)
Record File := { file_type : jsstring; dataURL : option jsstring }.

(** The world outside the page: the configured credential and the
    generative service.  A service call either rejects with some detail or
    resolves with a response; [sendMessage] also yields the session as the
    SDK leaves it. *)
Record Env := {
  API_KEY : option jsstring;
  generateContent :
    GoogleGenAI -> GenerateContentParameters
    -> jsstring + GenerateContentResponse;
  sendMessage :
    Chat -> jsstring -> (jsstring + GenerateContentResponse) * Chat
}.

(** ** Module state of services/gemini.ts, with the console *)

Inductive LogEntry :=
| LogError (message : option jsstring) (error : exn).

Record World := {
  chatInstance : option Chat;
  genAIInstance : option GoogleGenAI;
  console : list LogEntry;
  alerts : list jsstring
}.

Definition set_chatInstance (c : option Chat) (w : World) : World :=
  {| chatInstance := c; genAIInstance := genAIInstance w;
     console := console w; alerts := alerts w |}.

Definition set_genAIInstance (g : option GoogleGenAI) (w : World) : World :=
  {| chatInstance := chatInstance w; genAIInstance := g;
     console := console w; alerts := alerts w |}.

Definition console_error (msg : option jsstring) (e : exn) : M World unit :=
  modify (fun w =>
    {| chatInstance := chatInstance w; genAIInstance := genAIInstance w;
       console := console w ++ [LogError msg e]; alerts := alerts w |}).

Definition alert (msg : jsstring) : M World unit :=
  modify (fun w =>
    {| chatInstance := chatInstance w; genAIInstance := genAIInstance w;
       console := console w; alerts := alerts w ++ [msg] |}).

(* ================================================================== *)
(** * services/gemini.ts *)
(* ================================================================== *)

Module Gemini.

(** [fileToPart]: the text after the first comma of the data URL (up to a
    second comma, were there one), tagged with the file's type; rejects
    when the reader fails. *)
Definition fileToPart (file : File) : outcome Part :=
  match dataURL file with
  | Some result =>
      let base64Data := nth_error (split 44 result) 1 in
      Returned (InlinePart {| data := base64Data; mimeType := file_type file |})
  | None => Thrown FileReadError
  end.

(** [Promise.all] over the parts: all of them in order, or a rejection. *)
Fixpoint Promise_all {A} (ps : list (outcome A)) : outcome (list A) :=
  match ps with
  | [] => Returned []
  | Thrown e :: _ => Thrown e
  | Returned a :: r =>
      match Promise_all r with
      | Returned l => Returned (a :: l)
      | Thrown e => Thrown e
      end
  end.

Definition of_outcome {S A} (o : outcome A) : M S A := fun s => (o, s).

Definition SYSTEM_INSTRUCTION : jsstring := dq "
你是世界级的宏观对冲基金经理和技术分析大师。
你的核心能力是将**多张图表**放在一起进行**关联分析**（Cross-Asset Correlation Analysis），并结合**实时网络搜索**来验证你的假设。

**你的工作流程：**
1. **视觉识别**：首先准确识别每一张上传图片中的资产名称、代码（Ticker）、时间周期和当前技术形态。
2. **联网搜索**：针对识别出的资产，利用 Google Search 查找**今日/近期**的关键新闻、财报数据或宏观事件。
3. **逻辑关联**：不要孤立地分析每张图。你必须寻找图表之间的联系。例如：
   - 如果用户上传了“美元指数”和“黄金”，请分析美元走势如何影响黄金。
   - 如果用户上传了“英伟达”和“纳斯达克”，请分析权重股对指数的驱动。
4. **本质洞察**：透过现象看本质，解释资金流向和市场心理。

**内容排版要求：**
1. **结构清晰**：使用 Markdown 标题（###）分隔不同部分。
2. **突出重点**：关键结论、数据点或趋势名称必须使用**粗体**显示。
3. **留白美观**：在不同的逻辑段落之间，必须保留空白行。
4. **语言风格**：简体中文，专业、犀利、直击要害。

关键：你还必须在回复的最后生成一个特定的 JSON 块用于可视化。
JSON 块必须包裹在 ```json ... ``` 代码块中。
JSON 结构必须是：
{
  'sentimentScore': number, // 0-100 (0=极端恐惧, 100=极端贪婪)
  'volatilityIndex': number, // 0-100 (高活跃度/波动 = 高分)
  'marketPhase': string, // 短语，如 '看涨突破', '回调', '盘整'
  'keySectors': [
    { 'name': '板块名称', 'trend': 'up' | 'down' | 'neutral', 'value': number (-100 to 100) }
  ]
}
".

Definition analysis_prompt (count : nat) : jsstring :=
  utf16 "
    请对上传的这 " ++ decimal count ++ utf16 " 张市场图表进行综合关联分析。

    请严格按照以下步骤思考并输出报告：

    ### 第一步：图表内容概览 (必须放在报告最前面)
    请依次对每一张图片进行一句话精准概括，格式如下：
    *   **图表 1 ([资产名称])**：[一句话概括当前形态或趋势，如：突破20日均线，量能放大]。
    *   **图表 2 ([资产名称])**：[一句话概括...]
    ...

    ### 第二步：图表识别与搜索验证
    *   **使用 Google Search** 搜索这些标的**今天**发生的突发新闻、政策变动或主力资金动向。
    *   (在报告中明确指出你搜索到了什么关键信息来支撑你的分析)。

    ### 第三步：生成深度分析报告
    请按以下结构输出 Markdown：

    ### 1. 核心本质总结 (Executive Summary)
    (一句话概括多张图表共同反映的市场核心逻辑，例如：“在降息预期落空的背景下，科技股与避险资产出现罕见的同跌现象。”)

    ### 2. 跨图表关联分析 (Correlation Logic)
    (不要单独描述图A和图B。请分析它们的关系：A图的下跌是否导致了B图的上涨？它们是否受到同一个宏观因子的驱动？)

    ### 3. 关键技术形态与搜索印证
    (结合图表中的支撑/阻力位，以及搜索到的新闻。例如：“图表显示触及200日均线反弹，且搜索显示今日刚好公布了利好的回购计划。”)

    ### 4. 交易心理与策略建议
    (当前市场情绪是恐慌还是贪婪？主力在洗盘还是出货？)

    最后，请务必生成 JSON 可视化数据块。
  ".

(** [getAI] *)
Definition getAI (env : Env) : M World GoogleGenAI :=
  w <- get ;;
  match genAIInstance w with
  | Some ai => ret ai
  | None =>
      match API_KEY env with
      | Some key =>
          if JsString.truthy key then
            let ai := {| apiKey := key |} in
            modify (set_genAIInstance (Some ai)) ;;; ret ai
          else throw ApiKeyMissing
      | None => throw ApiKeyMissing
      end
  end.

(** ** The regular expression [/```json\n([\s\S]*?)\n```/]

    [String.prototype.match] with a non-global expression tries each start
    position from the left; at a position the opening fence must be read
    literally, then the lazy group takes as few code units as possible
    (any unit, line breaks included) such that the closing fence follows. *)

Definition fence_open : jsstring := utf16 "```json" ++ [10%N].
Definition fence_close : jsstring := 10%N :: utf16 "```".

Record MatchResult := {
  index : nat;          (* where the match starts *)
  whole : jsstring;     (* jsonMatch[0] *)
  group1 : jsstring     (* jsonMatch[1] *)
}.

(** [([\s\S]*?)] followed by [close]: the shortest prefix after which
    [close] is read. *)
Fixpoint lazy_until (close s : jsstring) : option jsstring :=
  if startsWith s close then Some []
  else match s with
       | [] => None
       | c :: r => option_map (cons c) (lazy_until close r)
       end.

Definition match_here (s : jsstring) : option jsstring :=
  if startsWith s fence_open
  then lazy_until fence_close (skipn (length fence_open) s)
  else None.

Fixpoint match_from (i : nat) (s : jsstring) : option MatchResult :=
  match match_here s with
  | Some body =>
      Some {| index := i;
              whole := fence_open ++ body ++ fence_close;
              group1 := body |}
  | None =>
      match s with
      | [] => None
      | _ :: r => match_from (S i) r
      end
  end.

Definition match_json_fence (fullText : jsstring) : option MatchResult :=
  match_from 0 fullText.

(** ** Grounding links *)

Definition truthy_opt (o : option jsstring) : bool :=
  match o with Some s => JsString.truthy s | None => false end.

(** [web && web.uri && web.title] *)
Definition web_ok (w : option Web) : bool :=
  match w with
  | Some x => truthy_opt (web_uri x) && truthy_opt (web_title x)
  | None => false
  end.

(** [({ title: web!.title!, url: web!.uri! })]; the filter has made the
    assertions true, the defaults below are never reached after it. *)
Definition to_link (w : option Web) : GroundingLink :=
  match w with
  | Some x => {| title := match web_title x with Some t => t | None => [] end;
                 url := match web_uri x with Some u => u | None => [] end |}
  | None => {| title := []; url := [] |}
  end.

(** [response.candidates?.[0]?.groundingMetadata?.groundingChunks || []] *)
Definition groundingChunks_of (response : GenerateContentResponse)
  : list GroundingChunk :=
  match candidates response with
  | Some (c :: _) =>
      match groundingMetadata c with
      | Some gm =>
          match groundingChunks gm with
          | Some chunks => chunks
          | None => []
          end
      | None => []
      end
  | _ => []
  end.

Definition groundingLinks_of (chunks : list GroundingChunk)
  : list GroundingLink :=
  map to_link (filter web_ok (map web chunks)).

(** ** Parsing the JSON block out of the text *)

Definition parse_failure_message : jsstring :=
  utf16 "Failed to parse visualization JSON".

Definition JSON_parse_M {S} (t : jsstring) : M S json :=
  match JSON_parse t with
  | Some v => ret v
  | None => throw SyntaxError
  end.

(** The pair is [(visualizationData, markdownReport)] after the [if]. *)
Definition parse_visualization (fullText : jsstring)
  : M World (json * jsstring) :=
  let jsonMatch := match_json_fence fullText in
  match jsonMatch with
  | Some m =>
      if JsString.truthy (group1 m) then
        try_catch
          (v <- JSON_parse_M (group1 m) ;;
           ret (v, trim (replace fullText (whole m) [])))
          (fun e =>
             console_error (Some parse_failure_message) e ;;;
             ret (JNull, fullText))
      else ret (JNull, fullText)
  | None => ret (JNull, fullText)
  end.

(** ** [analyzeMarketImages] *)

Definition analysis_parts (imageParts : list Part) (count : nat) : list Part :=
  imageParts ++ [TextPart (analysis_prompt count)].

Definition analysis_request (imageParts : list Part) (count : nat)
  : GenerateContentParameters :=
  {| gc_model := utf16 "gemini-2.5-flash";
     contents := {| content_role := user;
                    parts := analysis_parts imageParts count |};
     config := {| systemInstruction := SYSTEM_INSTRUCTION;
                  tools := [googleSearch] |} |}.

Definition models_generateContent (env : Env) (ai : GoogleGenAI)
  (req : GenerateContentParameters) : M World GenerateContentResponse :=
  match generateContent env ai req with
  | inr response => ret response
  | inl detail => throw (ServiceError detail)
  end.

(** [ai.chats.create]; an omitted history is the empty one. *)
Definition chats_create (m : jsstring) (c : Config) (h : list Content) : Chat :=
  {| chat_model := m; chat_config := c; history := h |}.

Definition text_or (t : option jsstring) (dflt : jsstring) : jsstring :=
  match t with
  | Some s => if JsString.truthy s then s else dflt
  | None => dflt
  end.

Definition analyzeMarketImages (env : Env) (files : list File)
  : M World AnalysisResponse :=
  ai <- getAI env ;;
  imageParts <- of_outcome (Promise_all (map fileToPart files)) ;;
  let count := length files in
  response <- models_generateContent env ai
                (analysis_request imageParts count) ;;
  let fullText := text_or (response_text response) [] in
  let chunks := groundingChunks_of response in
  let links := groundingLinks_of chunks in
  parsed <- parse_visualization fullText ;;
  let '(vis, report) := parsed in
  modify (set_chatInstance (Some
    (chats_create (utf16 "gemini-2.5-flash")
       {| systemInstruction := SYSTEM_INSTRUCTION; tools := [] |}
       [ {| content_role := user;
            parts := analysis_parts imageParts count |};
         {| content_role := model; parts := [TextPart fullText] |} ]))) ;;;
  ret {| markdownReport := report;
         visualizationData := vis;
         groundingLinks := links |}.

(** ** [sendChatMessage] *)

Definition no_reply : jsstring := utf16 "我无法生成回复。".

Definition chat_sendMessage (env : Env) (chat : Chat) (message : jsstring)
  : M World GenerateContentResponse :=
  match sendMessage env chat message with
  | (inr response, chat') =>
      modify (set_chatInstance (Some chat')) ;;; ret response
  | (inl detail, chat') =>
      modify (set_chatInstance (Some chat')) ;;; throw (ServiceError detail)
  end.

Definition bare_chat : Chat :=
  chats_create (utf16 "gemini-2.5-flash")
    {| systemInstruction := SYSTEM_INSTRUCTION; tools := [] |} [].

Definition sendChatMessage (env : Env) (message : jsstring)
  : M World jsstring :=
  w <- get ;;
  chat <- match chatInstance w with
          | Some chat => ret chat
          | None =>
              _ai <- getAI env ;;
              modify (set_chatInstance (Some bare_chat)) ;;; ret bare_chat
          end ;;
  response <- chat_sendMessage env chat message ;;
  ret (text_or (response_text response) no_reply).

End Gemini.
Import Gemini.


(* ================================================================== *)
(** * App.tsx and components/ChatInterface.tsx *)
(* ================================================================== *)

Module App.

Inductive EmailStatus := idle | sending | sent.

(** What a pending [setTimeout] of [simulateEmailSend] will do. *)
Inductive TimerAction := MarkSent | MarkIdle.

(** The [useState] cells of [App], with the timers it has armed. *)
Record State := {
  images : list File;
  imagePreviews : list jsstring;
  analyzing : bool;
  analysisResult : option AnalysisResponse;
  visualizationData : json;
  messages : list ChatMessage;
  dragActive : bool;
  email : jsstring;
  emailStatus : EmailStatus;
  timers : list (nat * TimerAction)
}.

(** The [useState] cells of [ChatInterface]; [messages] is [App]'s. *)
Record ChatState := {
  input : jsstring;
  loading : bool
}.

(** Everything a handler can read or write. *)
Record Page := {
  app : State;
  chat : ChatState;
  world : World
}.

Definition initial_state : State :=
  {| images := []; imagePreviews := []; analyzing := false;
     analysisResult := None;
     visualizationData := INITIAL_VISUALIZATION_DATA;
     messages := []; dragActive := false; email := [];
     emailStatus := idle; timers := [] |}.

Definition on_app (f : State -> State) : M Page unit :=
  modify (fun p => {| app := f (app p); chat := chat p; world := world p |}).

Definition on_chat (f : ChatState -> ChatState) : M Page unit :=
  modify (fun p => {| app := app p; chat := f (chat p); world := world p |}).

Definition in_world {A} (m : M World A) : M Page A :=
  zoom world (fun w p => {| app := app p; chat := chat p; world := w |}) m.

(** The state with one cell replaced. *)
Definition with_analyzing (b : bool) (s : State) : State :=
  {| images := images s; imagePreviews := imagePreviews s; analyzing := b;
     analysisResult := analysisResult s;
     visualizationData := visualizationData s; messages := messages s;
     dragActive := dragActive s; email := email s;
     emailStatus := emailStatus s; timers := timers s |}.

Definition with_analysisResult (r : option AnalysisResponse) (s : State)
  : State :=
  {| images := images s; imagePreviews := imagePreviews s;
     analyzing := analyzing s; analysisResult := r;
     visualizationData := visualizationData s; messages := messages s;
     dragActive := dragActive s; email := email s;
     emailStatus := emailStatus s; timers := timers s |}.

Definition with_visualizationData (v : json) (s : State) : State :=
  {| images := images s; imagePreviews := imagePreviews s;
     analyzing := analyzing s; analysisResult := analysisResult s;
     visualizationData := v; messages := messages s;
     dragActive := dragActive s; email := email s;
     emailStatus := emailStatus s; timers := timers s |}.

Definition with_messages (ms : list ChatMessage) (s : State) : State :=
  {| images := images s; imagePreviews := imagePreviews s;
     analyzing := analyzing s; analysisResult := analysisResult s;
     visualizationData := visualizationData s; messages := ms;
     dragActive := dragActive s; email := email s;
     emailStatus := emailStatus s; timers := timers s |}.

Definition with_emailStatus (e : EmailStatus) (s : State) : State :=
  {| images := images s; imagePreviews := imagePreviews s;
     analyzing := analyzing s; analysisResult := analysisResult s;
     visualizationData := visualizationData s; messages := messages s;
     dragActive := dragActive s; email := email s;
     emailStatus := e; timers := timers s |}.

Definition with_timers (ts : list (nat * TimerAction)) (s : State) : State :=
  {| images := images s; imagePreviews := imagePreviews s;
     analyzing := analyzing s; analysisResult := analysisResult s;
     visualizationData := visualizationData s; messages := messages s;
     dragActive := dragActive s; email := email s;
     emailStatus := emailStatus s; timers := ts |}.

Definition setAnalyzing (b : bool) : M Page unit :=
  on_app (with_analyzing b).

Definition setAnalysisResult (r : option AnalysisResponse) : M Page unit :=
  on_app (with_analysisResult r).

Definition setVisualizationData (v : json) : M Page unit :=
  on_app (with_visualizationData v).

(** [setMessages(prev => f(prev))] *)
Definition setMessages (f : list ChatMessage -> list ChatMessage)
  : M Page unit :=
  on_app (fun s => with_messages (f (messages s)) s).

Definition setEmailStatus (e : EmailStatus) : M Page unit :=
  on_app (with_emailStatus e).

Definition setTimeout (a : TimerAction) (ms : nat) : M Page unit :=
  on_app (fun s => with_timers (timers s ++ [(ms, a)]) s).

Definition setInput (i : jsstring) : M Page unit :=
  on_chat (fun c => {| input := i; loading := loading c |}).

Definition setLoading (b : bool) : M Page unit :=
  on_chat (fun c => {| input := input c; loading := b |}).

(** [simulateEmailSend]; the callbacks run when their timer fires. *)
Definition simulateEmailSend (recipient : jsstring) : M Page unit :=
  setEmailStatus sending ;;; setTimeout MarkSent 2000.

Definition fire (a : TimerAction) : M Page unit :=
  match a with
  | MarkSent => setEmailStatus sent ;;; setTimeout MarkIdle 5000
  | MarkIdle => setEmailStatus idle
  end.

Definition analysis_done_text : jsstring :=
  utf16 "我已识别图表内容，并结合最新的联网搜索信息完成了关联分析。请查看中间的详细报告。".

Definition analysis_failed_notice : jsstring :=
  utf16 "分析失败。请检查您的 API Key 和网络连接。".

Definition when {S} (b : bool) (m : M S unit) : M S unit :=
  if b then m else ret tt.

(** [runAnalysis]; [t_id] and [t_stamp] are the two readings of
    [Date.now()] taken when the run succeeds. *)
Definition runAnalysis (env : Env) (t_id t_stamp : nat) : M Page unit :=
  p <- get ;;
  let images := images (app p) in
  let email := email (app p) in
  if length images =? 0 then ret tt
  else
    setAnalyzing true ;;;
    setAnalysisResult None ;;;
    setEmailStatus idle ;;;
    finally
      (try_catch
         (result <- in_world (analyzeMarketImages env images) ;;
          setAnalysisResult (Some result) ;;;
          when (truthy (Types.visualizationData result))
            (setVisualizationData (Types.visualizationData result)) ;;;
          setMessages (fun prev =>
            prev ++ [ {| id := utf16 "analysis-" ++ decimal t_id;
                         role := model;
                         text := analysis_done_text;
                         timestamp := t_stamp |} ]) ;;;
          when (JsString.truthy email
                && negb (JsString.eqb (trim email) []))
            (simulateEmailSend email))
         (fun error =>
            in_world (console_error (Some (utf16 "Analysis failed")) error) ;;;
            in_world (alert analysis_failed_notice)))
      (setAnalyzing false).

Definition chat_error_text : jsstring := utf16 "抱歉，遇到错误。请重试。".

(** [handleSend]; [t1] to [t4] are the readings of [Date.now()]: the id
    and timestamp of the user's message, then of the reply. *)
Definition handleSend (env : Env) (t1 t2 t3 t4 : nat) : M Page unit :=
  p <- get ;;
  let input := input (chat p) in
  let loading := loading (chat p) in
  if negb (JsString.truthy (trim input)) || loading then ret tt
  else
    let userMsg := {| id := decimal t1; role := user; text := input;
                      timestamp := t2 |} in
    setMessages (fun prev => prev ++ [userMsg]) ;;;
    setInput [] ;;;
    setLoading true ;;;
    finally
      (try_catch
         (responseText <- in_world (sendChatMessage env input) ;;
          let aiMsg := {| id := decimal (t3 + 1); role := model;
                          text := responseText; timestamp := t4 |} in
          setMessages (fun prev => prev ++ [aiMsg]))
         (fun error =>
            in_world (console_error None error) ;;;
            let errorMsg := {| id := decimal (t3 + 1); role := model;
                               text := chat_error_text; timestamp := t4 |} in
            setMessages (fun prev => prev ++ [errorMsg])))
      (setLoading false).

End App.

(* ================================================================== *)
(** * [encodeURIComponent] *)
(* ================================================================== *)

Module Uri.

(** Letters, digits and [- _ . ! ~ * ' ( )] are left as they are. *)
Definition is_unreserved (c : N) : bool :=
  (((65 <=? c) && (c <=? 90)) || ((97 <=? c) && (c <=? 122))
   || ((48 <=? c) && (c <=? 57))
   || (c =? 45) || (c =? 95) || (c =? 46) || (c =? 33) || (c =? 126)
   || (c =? 42) || (c =? 39) || (c =? 40) || (c =? 41))%N.

Definition is_high_surrogate (c : N) : bool :=
  ((55296 <=? c) && (c <=? 56319))%N.

Definition is_low_surrogate (c : N) : bool :=
  ((56320 <=? c) && (c <=? 57343))%N.

Definition hex_digit (d : N) : N :=
  if (d <? 10)%N then (48 + d)%N else (55 + d)%N.

(** [%XX], in upper case. *)
Definition percent (byte : N) : jsstring :=
  [37%N; hex_digit (byte / 16); hex_digit (byte mod 16)].

Definition utf8_bytes (cp : N) : list N :=
  (if cp <? 128 then [cp]
   else if cp <? 2048 then [192 + cp / 64; 128 + cp mod 64]
   else if cp <? 65536 then
     [224 + cp / 4096; 128 + (cp / 64) mod 64; 128 + cp mod 64]
   else
     [240 + cp / 262144; 128 + (cp / 4096) mod 64;
      128 + (cp / 64) mod 64; 128 + cp mod 64])%N.

Definition escape (cp : N) : jsstring := flat_map percent (utf8_bytes cp).

Definition pair_point (hi lo : N) : N :=
  ((hi - 55296) * 1024 + (lo - 56320) + 65536)%N.

(** [None] stands for the [URIError] thrown on a lone surrogate. *)
Fixpoint encodeURIComponent (s : jsstring) : option jsstring :=
  match s with
  | [] => Some []
  | c :: r =>
      if is_unreserved c then option_map (cons c) (encodeURIComponent r)
      else if is_low_surrogate c then None
      else if is_high_surrogate c then
        match r with
        | d :: r' =>
            if is_low_surrogate d
            then option_map (app (escape (pair_point c d)))
                   (encodeURIComponent r')
            else None
        | [] => None
        end
      else option_map (app (escape c)) (encodeURIComponent r)
  end.

End Uri.
Import Uri.

(* ================================================================== *)
(** * The other handlers of App.tsx and ChatInterface.tsx *)
(* ================================================================== *)

Module Browser.

Import App.

(** A file handed to the user as a download. *)
Record Download := {
  filename : jsstring;
  mime : jsstring;
  content : jsstring
}.

(** What the asynchronous clipboard can answer. *)
Inductive ClipboardError := ClipboardDenied (detail : jsstring).

(** One representation of a clipboard item: its type and what [getType]
    yields, a rejection or a blob, the blob given by what reading it as a
    data URL will yield. *)
Record Representation := {
  rep_type : jsstring;
  rep_blob : ClipboardError + option jsstring
}.

Definition ClipboardItem := list Representation.

Inductive Clipboard :=
| NoClipboardApi
| ClipboardRead (outcome : ClipboardError + list ClipboardItem).

(** The page, the file readers still at work for previews, the downloads
    handed out so far and the console's warnings. *)
Record State := {
  page : Page;
  reading : list File;
  downloads : list Download;
  warnings : list (jsstring * ClipboardError)
}.

Definition on_page (m : M Page unit) : M State unit :=
  zoom page
    (fun p s => {| page := p; reading := reading s;
                   downloads := downloads s; warnings := warnings s |}) m.

Definition with_images (fs : list File) (s : App.State) : App.State :=
  {| images := fs; imagePreviews := imagePreviews s;
     analyzing := analyzing s; analysisResult := analysisResult s;
     visualizationData := App.visualizationData s; messages := messages s;
     dragActive := dragActive s; email := email s;
     emailStatus := emailStatus s; timers := timers s |}.

Definition with_imagePreviews (ps : list jsstring) (s : App.State)
  : App.State :=
  {| images := images s; imagePreviews := ps;
     analyzing := analyzing s; analysisResult := analysisResult s;
     visualizationData := App.visualizationData s; messages := messages s;
     dragActive := dragActive s; email := email s;
     emailStatus := emailStatus s; timers := timers s |}.

Definition with_dragActive (b : bool) (s : App.State) : App.State :=
  {| images := images s; imagePreviews := imagePreviews s;
     analyzing := analyzing s; analysisResult := analysisResult s;
     visualizationData := App.visualizationData s; messages := messages s;
     dragActive := b; email := email s;
     emailStatus := emailStatus s; timers := timers s |}.

Definition with_email (e : jsstring) (s : App.State) : App.State :=
  {| images := images s; imagePreviews := imagePreviews s;
     analyzing := analyzing s; analysisResult := analysisResult s;
     visualizationData := App.visualizationData s; messages := messages s;
     dragActive := dragActive s; email := e;
     emailStatus := emailStatus s; timers := timers s |}.

(** [setImages(prev => f(prev))] and its like. *)
Definition setImages (f : list File -> list File) : M State unit :=
  on_page (on_app (fun s => with_images (f (images s)) s)).

Definition setImagePreviews (f : list jsstring -> list jsstring)
  : M State unit :=
  on_page (on_app (fun s => with_imagePreviews (f (imagePreviews s)) s)).

Definition setDragActive (b : bool) : M State unit :=
  on_page (on_app (with_dragActive b)).

Definition setEmail (e : jsstring) : M State unit :=
  on_page (on_app (with_email e)).

Definition start_reading (fs : list File) : M State unit :=
  modify (fun s => {| page := page s; reading := reading s ++ fs;
                      downloads := downloads s; warnings := warnings s |}).

Definition save (d : Download) : M State unit :=
  modify (fun s => {| page := page s; reading := reading s;
                      downloads := downloads s ++ [d];
                      warnings := warnings s |}).

Definition console_warn (msg : jsstring) (e : ClipboardError) : M State unit :=
  modify (fun s => {| page := page s; reading := reading s;
                      downloads := downloads s;
                      warnings := warnings s ++ [(msg, e)] |}).

Definition window_alert (msg : jsstring) : M State unit :=
  on_page (in_world (alert msg)).

(** [f.type.startsWith('image/')] *)
Definition is_image (f : File) : bool :=
  startsWith (file_type f) (utf16 "image/").

(** [handleFiles]; [None] is the [null] file list.  The previews arrive
    later, one [reader_done] per file. *)
Definition handleFiles (files : option (list File)) : M State unit :=
  match files with
  | None => ret tt
  | Some files =>
      let newFiles := filter is_image files in
      if length newFiles =? 0 then ret tt
      else
        setImages (fun prev => prev ++ newFiles) ;;;
        start_reading newFiles
  end.

Fixpoint remove_nth {A} (i : nat) (l : list A) : list A :=
  match i, l with
  | _, [] => []
  | O, _ :: r => r
  | S i', x :: r => x :: remove_nth i' r
  end.

(** The reader of the [i]-th file still being read has finished: with a
    result its [onload] adds the preview, with an error nothing listens. *)
Definition reader_done (i : nat) : M State unit :=
  s <- get ;;
  match nth_error (reading s) i with
  | None => ret tt
  | Some f =>
      modify (fun s => {| page := page s;
                          reading := remove_nth i (reading s);
                          downloads := downloads s;
                          warnings := warnings s |}) ;;;
      match dataURL f with
      | Some result => setImagePreviews (fun prev => prev ++ [result])
      | None => ret tt
      end
  end.

(** [handleGlobalPaste]; [clipboardData] holds the files of the paste
    event, if it has a clipboard at all.  The result tells whether
    [preventDefault] was called. *)
Definition handleGlobalPaste (clipboardData : option (list File))
  : M State bool :=
  match clipboardData with
  | Some files =>
      if 0 <? length files then
        let imageFiles := filter is_image files in
        if 0 <? length imageFiles then
          handleFiles (Some imageFiles) ;;; ret true
        else ret false
      else ret false
  | None => ret false
  end.

Definition clipboard_unsupported_notice : jsstring := utf16 "当前环境不支持按钮读取剪贴板。
请直接使用键盘快捷键 Ctrl+V (Mac系统为 Cmd+V) 进行粘贴。".

Definition clipboard_empty_notice : jsstring := utf16 "剪贴板中没有图片。
提示：请截图或复制图片后，在此页面直接按 Ctrl+V (Cmd+V) 粘贴。".

Definition clipboard_denied_notice : jsstring := utf16 "浏览器安全策略限制了按钮访问剪贴板。

解决方案：
请直接按下键盘上的 Ctrl+V (Mac用户按 Cmd+V) 即可成功粘贴图片。".

Definition is_image_type (r : Representation) : bool :=
  startsWith (rep_type r) (utf16 "image/").

(** The inner loop of [handlePasteClick] over the image types of one
    item: a file per blob, or the first rejection. *)
Fixpoint blobs_of (reps : list Representation)
  : ClipboardError + list File :=
  match reps with
  | [] => inr []
  | r :: rest =>
      match rep_blob r with
      | inl e => inl e
      | inr blob =>
          match blobs_of rest with
          | inl e => inl e
          | inr files =>
              inr ({| file_type := rep_type r; dataURL := blob |} :: files)
          end
      end
  end.

(** The outer loop, over the items. *)
Fixpoint files_of_items (items : list ClipboardItem)
  : ClipboardError + list File :=
  match items with
  | [] => inr []
  | item :: rest =>
      match blobs_of (filter is_image_type item) with
      | inl e => inl e
      | inr files =>
          match files_of_items rest with
          | inl e => inl e
          | inr more => inr (files ++ more)
          end
      end
  end.

(** [handlePasteClick] *)
Definition handlePasteClick (clipboard : Clipboard) : M State unit :=
  match clipboard with
  | NoClipboardApi => window_alert clipboard_unsupported_notice
  | ClipboardRead outcome =>
      let caught (err : ClipboardError) :=
        console_warn (utf16 "Clipboard read access denied or failed:") err ;;;
        window_alert clipboard_denied_notice in
      match outcome with
      | inl err => caught err
      | inr clipboardItems =>
          match files_of_items clipboardItems with
          | inl err => caught err
          | inr imageFiles =>
              if 0 <? length imageFiles then handleFiles (Some imageFiles)
              else window_alert clipboard_empty_notice
          end
      end
  end.

(** [handleDrop], [handleDragOver], [handleDragLeave], [handleUploadChange] *)
Definition handleDrop (files : option (list File)) : M State unit :=
  setDragActive false ;;; handleFiles files.

Definition handleDragOver : M State unit := setDragActive true.

Definition handleDragLeave : M State unit := setDragActive false.

Definition handleUploadChange (files : option (list File)) : M State unit :=
  handleFiles files.

(** [clearImages] *)
Definition clearImages : M State unit :=
  setImages (fun _ => []) ;;;
  setImagePreviews (fun _ => []) ;;;
  on_page (setAnalysisResult None) ;;;
  on_page (setVisualizationData INITIAL_VISUALIZATION_DATA) ;;;
  on_page (setMessages (fun _ => [])) ;;;
  on_page (setEmailStatus idle).

(** The report on display, if there is one and it is not empty:
    [analysisResult?.markdownReport] when truthy. *)
Definition report_on_display (s : App.State) : option jsstring :=
  match analysisResult s with
  | Some r => if JsString.truthy (markdownReport r)
              then Some (markdownReport r) else None
  | None => None
  end.

(** [handleDownloadReport]; [iso_now] is [new Date().toISOString()]. *)
Definition handleDownloadReport (iso_now : jsstring) : M State unit :=
  s <- get ;;
  match report_on_display (app (page s)) with
  | None => ret tt
  | Some report =>
      save {| filename := utf16 "market_insight_report_"
                          ++ firstn 10 iso_now ++ utf16 ".md";
              mime := utf16 "text/plain;charset=utf-8";
              content := report |}
  end.

(** The subject line of the mail link, before it is encoded;
    [locale_date] is [new Date().toLocaleDateString()]. *)
Definition mail_subject (locale_date : jsstring) : jsstring :=
  utf16 "市场洞察 AI 分析报告 - " ++ locale_date.

(** [getMailtoLink]; [None] stands for the [URIError] of
    [encodeURIComponent]. *)
Definition getMailtoLink (locale_date : jsstring) (s : App.State)
  : option jsstring :=
  match report_on_display s with
  | None => Some (utf16 "#")
  | Some report =>
      if negb (JsString.truthy (email s)) then Some (utf16 "#")
      else
        match encodeURIComponent (mail_subject locale_date) with
        | None => None
        | Some subject =>
            match encodeURIComponent report with
            | None => None
            | Some body =>
                Some (utf16 "mailto:" ++ email s ++ utf16 "?subject="
                      ++ subject ++ utf16 "&body=" ++ body)
            end
        end
  end.

(** ** components/ChatInterface.tsx *)

(** [handleKeyDown]; the result tells whether [preventDefault] was
    called.  [ts] are the clock readings [handleSend] takes. *)
Definition handleKeyDown (env : Env) (ts : nat * nat * nat * nat)
  (key : jsstring) (metaKey ctrlKey : bool) : M State bool :=
  if JsString.eqb key (utf16 "Enter") && (metaKey || ctrlKey) then
    let '(t1, t2, t3, t4) := ts in
    on_page (handleSend env t1 t2 t3 t4) ;;; ret true
  else ret false.

(** [Array.prototype.join] *)
Fixpoint join (sep : jsstring) (l : list jsstring) : jsstring :=
  match l with
  | [] => []
  | [x] => x
  | x :: rest => x ++ sep ++ join sep rest
  end.

Definition role_label (r : Role) : jsstring :=
  match r with
  | user => utf16 "用户"
  | model => utf16 "AI 助教"
  end.

Definition separator_line : jsstring := utf16 "-------------------".

(** One message of the transcript export; [toLocaleTimeString] renders a
    timestamp in the user's locale. *)
Definition transcript_block (toLocaleTimeString : nat -> jsstring)
  (m : ChatMessage) : jsstring :=
  utf16 "[" ++ toLocaleTimeString (timestamp m) ++ utf16 "] "
  ++ role_label (role m) ++ utf16 ":" ++ [10%N]
  ++ text m ++ [10%N] ++ separator_line.

Definition transcript (toLocaleTimeString : nat -> jsstring)
  (ms : list ChatMessage) : jsstring :=
  join [10%N; 10%N] (map (transcript_block toLocaleTimeString) ms).

(** [handleDownloadChat] *)
Definition handleDownloadChat (toLocaleTimeString : nat -> jsstring)
  (iso_now : jsstring) : M State unit :=
  s <- get ;;
  let messages := messages (app (page s)) in
  if length messages =? 0 then ret tt
  else
    save {| filename := utf16 "market_insight_chat_"
                        ++ firstn 10 iso_now ++ utf16 ".txt";
            mime := utf16 "text/plain;charset=utf-8";
            content := transcript toLocaleTimeString messages |}.

(** ** What can happen to the page *)

Inductive Event :=
| FilesChosen (files : option (list File))
| FilesDropped (files : option (list File))
| DragOver
| DragLeave
| Pasted (clipboardData : option (list File))
| PasteClicked (clipboard : Clipboard)
| ReaderDone (i : nat)
| ClearClicked
| EmailTyped (e : jsstring)
| InputTyped (i : jsstring)
| AnalyzeClicked (env : Env) (t_id t_stamp : nat)
| SendClicked (env : Env) (t1 t2 t3 t4 : nat)
| KeyDown (env : Env) (ts : nat * nat * nat * nat) (key : jsstring)
    (metaKey ctrlKey : bool)
| TimerFired (a : TimerAction)
| ReportDownloadClicked (iso_now : jsstring)
| ChatDownloadClicked (toLocaleTimeString : nat -> jsstring)
    (iso_now : jsstring).

Definition dispatch (e : Event) : M State unit :=
  match e with
  | FilesChosen files => handleUploadChange files
  | FilesDropped files => handleDrop files
  | DragOver => handleDragOver
  | DragLeave => handleDragLeave
  | Pasted clipboardData => handleGlobalPaste clipboardData ;;; ret tt
  | PasteClicked clipboard => handlePasteClick clipboard
  | ReaderDone i => reader_done i
  | ClearClicked => clearImages
  | EmailTyped e => setEmail e
  | InputTyped i => on_page (setInput i)
  | AnalyzeClicked env t_id t_stamp => on_page (runAnalysis env t_id t_stamp)
  | SendClicked env t1 t2 t3 t4 => on_page (handleSend env t1 t2 t3 t4)
  | KeyDown env ts key metaKey ctrlKey =>
      handleKeyDown env ts key metaKey ctrlKey ;;; ret tt
  | TimerFired a => on_page (fire a)
  | ReportDownloadClicked iso_now => handleDownloadReport iso_now
  | ChatDownloadClicked toLocaleTimeString iso_now =>
      handleDownloadChat toLocaleTimeString iso_now
  end.

(** The page after a sequence of events, from a given state; an event
    whose handler threw would stop the sequence. *)
Fixpoint run_events (es : list Event) (s : State) : outcome unit * State :=
  match es with
  | [] => (Returned tt, s)
  | e :: rest =>
      match dispatch e s with
      | (Returned _, s') => run_events rest s'
      | (Thrown x, s') => (Thrown x, s')
      end
  end.

Definition initial : State :=
  {| page := {| app := initial_state;
                chat := {| input := []; loading := false |};
                world := {| chatInstance := None; genAIInstance := None;
                            console := []; alerts := [] |} |};
     reading := []; downloads := []; warnings := [] |}.

End Browser.

(* ================================================================== *)
(** * The handlers that wait, call by call *)
(* ================================================================== *)

Module Pending.

Import App Browser.

(** [runAnalysis] and [handleSend] are [async].  Each runs up to its
    [await] within the event that called it; what follows the [await]
    runs when the promise settles, and the handlers of other events run
    in between: the chat box is there while an analysis is under way.
    Here the two halves of a handler are separate steps, and the calls
    that have not settled yet are part of the state. *)

(** Running [m] and handing its outcome over instead of throwing: the
    promise an [async] function returns. *)
Definition promise {S A} (m : M S A) : M S (outcome A) :=
  fun s => match m s with (o, s') => (Returned o, s') end.

(** ** services/gemini.ts *)

(** [analyzeMarketImages] after its first statement, [getAI()]: the
    files are read, the service is called, and the response is dealt
    with.  Nothing of the module changes before the response is there. *)
Definition analysis_of (env : Env) (ai : GoogleGenAI) (files : list File)
  : M World AnalysisResponse :=
  imageParts <- of_outcome (Promise_all (map fileToPart files)) ;;
  let count := length files in
  response <- models_generateContent env ai
                (analysis_request imageParts count) ;;
  let fullText := text_or (response_text response) [] in
  let chunks := groundingChunks_of response in
  let links := groundingLinks_of chunks in
  parsed <- parse_visualization fullText ;;
  let '(vis, report) := parsed in
  modify (set_chatInstance (Some
    (chats_create (utf16 "gemini-2.5-flash")
       {| systemInstruction := SYSTEM_INSTRUCTION; tools := [] |}
       [ {| content_role := user;
            parts := analysis_parts imageParts count |};
         {| content_role := model; parts := [TextPart fullText] |} ]))) ;;;
  ret {| markdownReport := report;
         Types.visualizationData := vis;
         groundingLinks := links |}.

(** [sendChatMessage] up to its [await]: the session the message is sent
    on, the module's, created first when there is none. *)
Definition session_of (env : Env) : M World Chat :=
  w <- get ;;
  match chatInstance w with
  | Some chat => ret chat
  | None =>
      _ai <- getAI env ;;
      modify (set_chatInstance (Some bare_chat)) ;;; ret bare_chat
  end.

(** ... and after it: the SDK has recorded the exchange in the session
    the message was sent on, which is the module's session if
    [chatInstance] has not been assigned since ([current]); then the text
    of the response is returned, or the rejection thrown. *)
Definition reply_of (env : Env) (chat : Chat) (current : bool)
  (message : jsstring) : M World jsstring :=
  match sendMessage env chat message with
  | (answer, chat') =>
      when current (modify (set_chatInstance (Some chat'))) ;;;
      match answer with
      | inr response => ret (text_or (response_text response) no_reply)
      | inl detail => throw (ServiceError detail)
      end
  end.

(** ** App.tsx and components/ChatInterface.tsx *)

(** [runAnalysis] from its [try] on, [call] being what it awaits;
    [email] is the address its closure holds. *)
Definition runAnalysis_resumed (email : jsstring) (t_id t_stamp : nat)
  (call : M World AnalysisResponse) : M Page unit :=
  finally
    (try_catch
       (result <- in_world call ;;
        setAnalysisResult (Some result) ;;;
        when (truthy (Types.visualizationData result))
          (setVisualizationData (Types.visualizationData result)) ;;;
        setMessages (fun prev =>
          prev ++ [ {| id := utf16 "analysis-" ++ decimal t_id;
                       role := model;
                       text := analysis_done_text;
                       timestamp := t_stamp |} ]) ;;;
        when (JsString.truthy email
              && negb (JsString.eqb (trim email) []))
          (simulateEmailSend email))
       (fun error =>
          in_world (console_error (Some (utf16 "Analysis failed")) error) ;;;
          in_world (alert analysis_failed_notice)))
    (setAnalyzing false).

(** [handleSend] from its [try] on, [call] being what it awaits. *)
Definition handleSend_resumed (t3 t4 : nat) (call : M World jsstring)
  : M Page unit :=
  finally
    (try_catch
       (responseText <- in_world call ;;
        let aiMsg := {| id := decimal (t3 + 1); role := model;
                        text := responseText; timestamp := t4 |} in
        setMessages (fun prev => prev ++ [aiMsg]))
       (fun error =>
          in_world (console_error None error) ;;;
          let errorMsg := {| id := decimal (t3 + 1); role := model;
                             text := chat_error_text; timestamp := t4 |} in
          setMessages (fun prev => prev ++ [errorMsg])))
    (setLoading false).

(** A run of [runAnalysis] that waits for [analyzeMarketImages]: the
    service and the client the call went out with, the images it was
    given, and what the closure holds for later. *)
Record Run := {
  run_env : Env;
  run_ai : GoogleGenAI;
  run_images : list File;
  run_email : jsstring;
  run_t_id : nat;
  run_t_stamp : nat
}.

(** A call of [handleSend] that waits for [sendChatMessage]: the session
    the message was sent on, and whether it still is the module's. *)
Record Ask := {
  ask_env : Env;
  ask_chat : Chat;
  ask_current : bool;
  ask_message : jsstring;
  ask_t3 : nat;
  ask_t4 : nat
}.

Record State := {
  now : Browser.State;
  runs : list Run;
  asks : list Ask
}.

Definition on_now {A} (m : M Browser.State A) : M State A :=
  zoom now (fun b s => {| now := b; runs := runs s; asks := asks s |}) m.

Definition in_page {A} (m : M Page A) : M State A :=
  on_now (zoom page
            (fun p b => {| page := p; reading := reading b;
                           downloads := downloads b;
                           warnings := warnings b |}) m).

(** [chatInstance] is assigned a new session: the one a message was sent
    on is no longer the module's. *)
Definition left_behind (a : Ask) : Ask :=
  {| ask_env := ask_env a; ask_chat := ask_chat a; ask_current := false;
     ask_message := ask_message a; ask_t3 := ask_t3 a; ask_t4 := ask_t4 a |}.

(** [runAnalysis] up to its [await].  When [getAI] throws, the promise
    of [analyzeMarketImages] is rejected from the start and the handler
    goes on before any other event. *)
Definition runAnalysis_begin (env : Env) (t_id t_stamp : nat)
  : M State unit :=
  s <- get ;;
  let images := images (app (page (now s))) in
  let email := email (app (page (now s))) in
  if length images =? 0 then ret tt
  else
    in_page (setAnalyzing true ;;;
             setAnalysisResult None ;;;
             setEmailStatus idle) ;;;
    started <- in_page (in_world (promise (getAI env))) ;;
    match started with
    | Returned ai =>
        modify (fun s =>
          {| now := now s;
             runs := runs s ++ [ {| run_env := env; run_ai := ai;
                                    run_images := images;
                                    run_email := email;
                                    run_t_id := t_id;
                                    run_t_stamp := t_stamp |} ];
             asks := asks s |})
    | Thrown e =>
        in_page (runAnalysis_resumed email t_id t_stamp (throw e))
    end.

(** The call of the [k]-th waiting run settles, and the run goes on. *)
Definition analysis_settled (k : nat) : M State unit :=
  s <- get ;;
  match nth_error (runs s) k with
  | None => ret tt
  | Some r =>
      let call := analysis_of (run_env r) (run_ai r) (run_images r) in
      let assigned :=
        match fst (call (world (page (now s)))) with
        | Returned _ => true
        | Thrown _ => false
        end in
      modify (fun s =>
        {| now := now s;
           runs := remove_nth k (runs s);
           asks := if assigned then map left_behind (asks s)
                   else asks s |}) ;;;
      in_page (runAnalysis_resumed (run_email r) (run_t_id r)
                 (run_t_stamp r) call)
  end.

(** [handleSend] up to its [await]. *)
Definition handleSend_begin (env : Env) (t1 t2 t3 t4 : nat) : M State unit :=
  s <- get ;;
  let input := input (chat (page (now s))) in
  let loading := loading (chat (page (now s))) in
  if negb (JsString.truthy (trim input)) || loading then ret tt
  else
    let userMsg := {| id := decimal t1; role := user; text := input;
                      timestamp := t2 |} in
    in_page (setMessages (fun prev => prev ++ [userMsg]) ;;;
             setInput [] ;;;
             setLoading true) ;;;
    started <- in_page (in_world (promise (session_of env))) ;;
    match started with
    | Returned session =>
        modify (fun s =>
          {| now := now s;
             runs := runs s;
             asks := asks s ++ [ {| ask_env := env; ask_chat := session;
                                    ask_current := true;
                                    ask_message := input;
                                    ask_t3 := t3; ask_t4 := t4 |} ] |})
    | Thrown e =>
        in_page (handleSend_resumed t3 t4 (throw e))
    end.

(** The [k]-th waiting message is answered, and [handleSend] goes on. *)
Definition reply_settled (k : nat) : M State unit :=
  s <- get ;;
  match nth_error (asks s) k with
  | None => ret tt
  | Some a =>
      modify (fun s =>
        {| now := now s; runs := runs s;
           asks := remove_nth k (asks s) |}) ;;;
      in_page (handleSend_resumed (ask_t3 a) (ask_t4 a)
                 (reply_of (ask_env a) (ask_chat a) (ask_current a)
                    (ask_message a)))
  end.

(** The analyze button is on the page when no analysis is under way and
    there is a preview: [!analyzing && imagePreviews.length > 0]. *)
Definition analyze_button (s : App.State) : bool :=
  negb (analyzing s) && (0 <? length (imagePreviews s)).

(** What happens: a handler is called, or a call settles.  The clock
    readings an event carries for the second half of its handler are kept
    with the waiting call. *)
Inductive Step :=
| Handler (e : Event)
| AnalysisSettled (k : nat)
| ReplySettled (k : nat).

Definition step (o : Step) : M State unit :=
  match o with
  | Handler (AnalyzeClicked env t_id t_stamp) =>
      s <- get ;;
      if analyze_button (app (page (now s)))
      then runAnalysis_begin env t_id t_stamp
      else ret tt
  | Handler (SendClicked env t1 t2 t3 t4) => handleSend_begin env t1 t2 t3 t4
  | Handler (KeyDown env ts key metaKey ctrlKey) =>
      if JsString.eqb key (utf16 "Enter") && (metaKey || ctrlKey) then
        let '(t1, t2, t3, t4) := ts in
        handleSend_begin env t1 t2 t3 t4
      else ret tt
  | Handler e => on_now (dispatch e)
  | AnalysisSettled k => analysis_settled k
  | ReplySettled k => reply_settled k
  end.

Fixpoint run (steps : list Step) (s : State) : outcome unit * State :=
  match steps with
  | [] => (Returned tt, s)
  | o :: rest =>
      match step o s with
      | (Returned _, s') => run rest s'
      | (Thrown x, s') => (Thrown x, s')
      end
  end.

Definition initial : State :=
  {| now := Browser.initial; runs := []; asks := [] |}.

End Pending.

(* ================================================================== *)
(** * Vocabulary for the other handlers *)
(* ================================================================== *)

(** Every file loaded, and every file still being read for its preview,
    declares an image type. *)
Definition only_images (s : Browser.State) : Prop :=
  Forall (fun f => Browser.is_image f = true)
    (App.images (App.app (Browser.page s)))
  /\ Forall (fun f => Browser.is_image f = true) (Browser.reading s).

(** The two busy flags are off. *)
Definition at_rest (s : Browser.State) : Prop :=
  App.analyzing (App.app (Browser.page s)) = false
  /\ App.loading (App.chat (Browser.page s)) = false.

(** The busy flags tell the truth and calls do not overlap: no analysis
    is under way and [analyzing] is off, or exactly one is and it is on;
    and likewise for the chat and [loading]. *)
Definition one_call_at_most (s : Pending.State) : Prop :=
  ((Pending.runs s = []
    /\ App.analyzing (App.app (Browser.page (Pending.now s))) = false)
   \/ (exists r, Pending.runs s = [r]
       /\ App.analyzing (App.app (Browser.page (Pending.now s))) = true))
  /\ ((Pending.asks s = []
       /\ App.loading (App.chat (Browser.page (Pending.now s))) = false)
      \/ (exists a, Pending.asks s = [a]
          /\ App.loading (App.chat (Browser.page (Pending.now s))) = true)).

(** [p] is inline data tagged with an image type. *)
Definition image_part (p : Part) : Prop :=
  exists d t,
    p = InlinePart {| data := d; mimeType := t |}
    /\ startsWith t (utf16 "image/") = true.

(** The state with the files added to the images and to the readers. *)
Definition with_new_files (fs : list File) (s : Browser.State)
  : Browser.State :=
  {| Browser.page :=
       {| App.app := Browser.with_images
                       (App.images (App.app (Browser.page s)) ++ fs)
                       (App.app (Browser.page s));
          App.chat := App.chat (Browser.page s);
          App.world := App.world (Browser.page s) |};
     Browser.reading := Browser.reading s ++ fs;
     Browser.downloads := Browser.downloads s;
     Browser.warnings := Browser.warnings s |}.

(** The state with one more alert shown. *)
Definition with_alert (msg : jsstring) (s : Browser.State) : Browser.State :=
  {| Browser.page :=
       {| App.app := App.app (Browser.page s);
          App.chat := App.chat (Browser.page s);
          App.world :=
            {| chatInstance := chatInstance (App.world (Browser.page s));
               genAIInstance := genAIInstance (App.world (Browser.page s));
               console := console (App.world (Browser.page s));
               alerts := alerts (App.world (Browser.page s)) ++ [msg] |} |};
     Browser.reading := Browser.reading s;
     Browser.downloads := Browser.downloads s;
     Browser.warnings := Browser.warnings s |}.

(** The representations of the clipboard items that have an image type,
    item by item, in their order. *)
Definition image_blobs (items : list Browser.ClipboardItem)
  : list Browser.Representation :=
  flat_map (filter Browser.is_image_type) items.

(** [f] is the file made of the blob of [r]: the type of [r], and the
    content of its blob. *)
Definition blob_file (r : Browser.Representation) (f : File) : Prop :=
  file_type f = Browser.rep_type r
  /\ Browser.rep_blob r = inr (dataURL f).

(** The state with the console warning for a clipboard failure. *)
Definition with_warning (err : Browser.ClipboardError) (s : Browser.State)
  : Browser.State :=
  {| Browser.page := Browser.page s;
     Browser.reading := Browser.reading s;
     Browser.downloads := Browser.downloads s;
     Browser.warnings :=
       Browser.warnings s
       ++ [(utf16 "Clipboard read access denied or failed:", err)] |}.

(** The elements of a JavaScript string are 16-bit code units. *)
Definition code_units (s : jsstring) : Prop :=
  Forall (fun c => (c < 65536)%N) s.

(** What a percent-encoded text is made of: unreserved characters and
    the percent sign. *)
Definition uri_safe (c : N) : Prop := is_unreserved c = true \/ c = 37%N.

(** A percent-encoded text, exactly: unreserved characters and escapes,
    each escape a percent sign and two hexadecimal digits in upper case. *)
Definition is_upper_hex (c : N) : bool :=
  (((48 <=? c) && (c <=? 57)) || ((65 <=? c) && (c <=? 70)))%N.

Inductive percent_encoded : jsstring -> Prop :=
| encoded_end : percent_encoded []
| encoded_plain (c : N) (t : jsstring) :
    is_unreserved c = true -> percent_encoded t -> percent_encoded (c :: t)
| encoded_escape (h l : N) (t : jsstring) :
    is_upper_hex h = true -> is_upper_hex l = true -> percent_encoded t ->
    percent_encoded (37%N :: h :: l :: t).

(** Not one of the characters that structure a mail link or break it:
    ampersand, question mark, hash, equals sign, space, line break. *)
Definition no_separator (c : N) : Prop :=
  c <> 38%N /\ c <> 63%N /\ c <> 35%N /\ c <> 61%N /\ c <> 32%N /\ c <> 10%N.

(** Code units that form well-formed UTF-16: every high surrogate is
    followed by a low one, and no low surrogate stands alone. *)
Fixpoint well_formed_utf16 (s : jsstring) : bool :=
  match s with
  | [] => true
  | c :: r =>
      if is_low_surrogate c then false
      else if is_high_surrogate c then
        match r with
        | d :: r' => is_low_surrogate d && well_formed_utf16 r'
        | [] => false
        end
      else well_formed_utf16 r
  end.

(** Reading a percent-encoded text back: the bytes it stands for. *)
Definition hex_value (c : N) : N :=
  if (c <? 58)%N then (c - 48)%N else (c - 55)%N.

Fixpoint percent_bytes (t : jsstring) : list N :=
  match t with
  | [] => []
  | c :: r =>
      if (c =? 37)%N then
        match r with
        | h :: l :: r' => (hex_value h * 16 + hex_value l)%N :: percent_bytes r'
        | _ => []
        end
      else c :: percent_bytes r
  end.

(** ... and the string those bytes are the UTF-8 form of. *)
Definition percent_decode (t : jsstring) : jsstring :=
  flat_map units_of_point (utf8_points (percent_bytes t)).

(* ================================================================== *)
(** * Vocabulary of the properties *)
(* ================================================================== *)

(** [pat] occurs in [s] at index [i]. *)
Definition occurs_at (pat s : jsstring) (i : nat) : Prop :=
  exists a b, s = a ++ pat ++ b /\ length a = i.

(** [pat] occurs somewhere in [s]. *)
Definition occurs (pat s : jsstring) : Prop := exists i, occurs_at pat s i.

(** The leftmost occurrence of [pat] in [s] is at [i]. *)
Definition first_occurrence (pat s : jsstring) (i : nat) : Prop :=
  occurs_at pat s i /\ forall j, occurs_at pat s j -> i <= j.

(** The first fenced block of [text]: [pre] runs up to the leftmost
    opening fence, and [body] from there up to the first closing fence
    that follows. *)
Definition first_block (text pre body post : jsstring) : Prop :=
  text = pre ++ fence_open ++ body ++ fence_close ++ post
  /\ first_occurrence fence_open text (length pre)
  /\ first_occurrence fence_close (body ++ fence_close ++ post) (length body).

(** [text] holds a fenced block somewhere. *)
Definition has_block (text : jsstring) : Prop :=
  exists pre body post,
    text = pre ++ fence_open ++ body ++ fence_close ++ post.

(** The world after the parser has logged a decode failure on the console. *)
Definition logged_parse_failure (w : World) : World :=
  {| chatInstance := chatInstance w; genAIInstance := genAIInstance w;
     console := console w
                ++ [LogError (Some parse_failure_message) SyntaxError];
     alerts := alerts w |}.

(** [text] holds one fenced block only: [pre], then the block around
    [body], then [post]; no opening fence comes before the block and no
    block comes after it. *)
Definition single_block (text pre body post : jsstring) : Prop :=
  text = pre ++ fence_open ++ body ++ fence_close ++ post
  /\ first_occurrence fence_open text (length pre)
  /\ ~ has_block post.

(** The session [analyzeMarketImages] installs: the request and the raw
    reply as the first exchange. *)
Definition analysis_chat (imageParts : list Part) (count : nat)
  (fullText : jsstring) : Chat :=
  chats_create (utf16 "gemini-2.5-flash")
    {| systemInstruction := SYSTEM_INSTRUCTION; tools := [] |}
    [ {| content_role := user; parts := analysis_parts imageParts count |};
      {| content_role := model; parts := [TextPart fullText] |} ].

(** The credential is at hand: a client exists already, or the key is set
    and not empty. *)
Definition has_credential (env : Env) (w : World) : bool :=
  match genAIInstance w, API_KEY env with
  | Some _, _ => true
  | None, Some key => JsString.truthy key
  | None, None => false
  end.

(** Grounding links, following the specification's words: the sources in
    order, keeping those with both a non-empty title and a non-empty URL. *)
Fixpoint citations_with_title_and_url (sources : list GroundingChunk)
  : list GroundingLink :=
  match sources with
  | [] => []
  | src :: rest =>
      match web src with
      | Some {| web_uri := Some u; web_title := Some t |} =>
          match t, u with
          | _ :: _, _ :: _ =>
              {| title := t; url := u |} :: citations_with_title_and_url rest
          | _, _ => citations_with_title_and_url rest
          end
      | _ => citations_with_title_and_url rest
      end
  end.

(** A source is well formed when it has a title and a URL, both
    non-empty. *)
Definition well_formed_source (src : GroundingChunk) (l : GroundingLink)
  : Prop :=
  exists x, web src = Some x
            /\ web_title x = Some (title l) /\ web_uri x = Some (url l)
            /\ title l <> [] /\ url l <> [].

(** The citation sources a response returns in its grounding metadata:
    the grounding chunks of its first candidate. *)
Definition cited_sources (response : GenerateContentResponse)
  (sources : list GroundingChunk) : Prop :=
  exists c rest gm,
    candidates response = Some (c :: rest)
    /\ groundingMetadata c = Some gm
    /\ groundingChunks gm = Some sources.

(** What a data URL carries: the text after its first comma, up to a
    further comma were there one; nothing when it holds no comma. *)
Fixpoint up_to_comma (s : jsstring) : jsstring :=
  match s with
  | [] => []
  | c :: r => if (c =? 44)%N then [] else c :: up_to_comma r
  end.

Fixpoint payload (url : jsstring) : option jsstring :=
  match url with
  | [] => None
  | c :: r => if (c =? 44)%N then Some (up_to_comma r) else payload r
  end.

(** [p] is the image [f] encoded as inline data tagged with its media
    type: the data is the payload of the data URL the file is read into,
    the type is the one the file declares. *)
Definition inline_image (f : File) (p : Part) : Prop :=
  exists url,
    dataURL f = Some url
    /\ p = InlinePart {| data := payload url; mimeType := file_type f |}.

(** The two messages one chat exchange appends to the transcript. *)
Definition question_message (t1 t2 : nat) (input : jsstring) : ChatMessage :=
  {| id := decimal t1; role := user; text := input; timestamp := t2 |}.

Definition reply_message (t3 t4 : nat) (reply : jsstring) : ChatMessage :=
  {| id := decimal (t3 + 1); role := model; text := reply; timestamp := t4 |}.

(** The transcript entry a completed analysis adds. *)
Definition analysis_message (t_id t_stamp : nat) : ChatMessage :=
  {| id := utf16 "analysis-" ++ decimal t_id; role := model;
     text := App.analysis_done_text; timestamp := t_stamp |}.

(** The state when the call goes out: busy, no result, e-mail idle. *)
Definition cleared (s : App.State) : App.State :=
  App.with_emailStatus App.idle
    (App.with_analysisResult None (App.with_analyzing true s)).

(** [fullText] is the text of the reply the service gave to the analysis
    request for [files]; an absent text counts as the empty one. *)
Definition reply_text (env : Env) (files : list File) (fullText : jsstring)
  : Prop :=
  exists ai imageParts response,
    Promise_all (map fileToPart files) = Returned imageParts
    /\ generateContent env ai (analysis_request imageParts (length files))
       = inr response
    /\ fullText = text_or (response_text response) [].

(** In the middle of [true], [false] or [null] the lexer expects no line
    break. *)
Definition no_break_expected (m : lex_mode) : Prop :=
  match m with
  | LWord expect _ => ~ In 10%N expect
  | _ => True
  end.

(** ** Sample inputs *)

Definition empty_world : World :=
  {| chatInstance := None; genAIInstance := None; console := [];
     alerts := [] |}.

(** The sample scenario of the specification. *)
Definition sample_pre : jsstring := utf16 "### Summary
Bullish.

".

Definition sample_body : jsstring :=
  dq "{'sentimentScore':72,'volatilityIndex':40,'marketPhase':'Markup','keySectors':[{'name':'Tech','trend':'up','value':55}]}".

Definition sample_text : jsstring :=
  sample_pre ++ fence_open ++ sample_body ++ fence_close.

Definition sample_json : json :=
  JObject [(utf16 "sentimentScore", JNumber (int 72));
           (utf16 "volatilityIndex", JNumber (int 40));
           (utf16 "marketPhase", JString (utf16 "Markup"));
           (utf16 "keySectors", JArray [sector_json "Tech" "up" 55])].

Definition sample_record : VisualizationData :=
  {| sentimentScore := int 72; volatilityIndex := int 40;
     marketPhase := utf16 "Markup";
     keySectors := [ {| name := utf16 "Tech"; trend := up;
                        value := int 55 |} ] |}.

Definition png_file : File :=
  {| file_type := utf16 "image/png";
     dataURL := Some (utf16 "data:image/png;base64,iVBORw0KGgo=") |}.

Definition jpeg_file : File :=
  {| file_type := utf16 "image/jpeg";
     dataURL := Some (utf16 "data:image/jpeg;base64,/9j/4AAQ") |}.

Definition unreadable_file : File :=
  {| file_type := utf16 "image/png"; dataURL := None |}.

(** Sample services: one that answers every question with an empty
    text, one that rejects every call. *)
Definition silent_env : Env :=
  {| API_KEY := Some (utf16 "key");
     generateContent := fun _ _ =>
       inr {| response_text := Some []; candidates := None |};
     sendMessage := fun chat _ =>
       (inr {| response_text := Some []; candidates := None |}, chat) |}.

Definition failing_env : Env :=
  {| API_KEY := Some (utf16 "key");
     generateContent := fun _ _ => inl (utf16 "503");
     sendMessage := fun chat _ => (inl (utf16 "503"), chat) |}.

(** The same silent service, with no credential configured. *)
Definition keyless_env : Env :=
  {| API_KEY := None;
     generateContent := generateContent silent_env;
     sendMessage := sendMessage silent_env |}.

(** A page on which nothing has been analysed yet, with [question]
    typed into the chat box. *)
Definition fresh_page (question : jsstring) : App.Page :=
  {| App.app := App.initial_state;
     App.chat := {| App.input := question; App.loading := false |};
     App.world := empty_world |}.

(** A page showing the result of an earlier analysis, its e-mail sent,
    with one image loaded for the next run. *)
Definition sample_response : AnalysisResponse :=
  {| markdownReport := utf16 "### Summary
Bullish.";
     visualizationData := sample_json;
     groundingLinks := [] |}.

Definition analysed_page : App.Page :=
  {| App.app :=
       {| App.images := [png_file];
          App.imagePreviews := [utf16 "data:image/png;base64,iVBORw0KGgo="];
          App.analyzing := false;
          App.analysisResult := Some sample_response;
          App.visualizationData := sample_json;
          App.messages := [analysis_message 1 2];
          App.dragActive := false;
          App.email := utf16 "a@b.c";
          App.emailStatus := App.sent;
          App.timers := [(5000, App.MarkIdle)] |};
     App.chat := {| App.input := []; App.loading := false |};
     App.world := empty_world |}.

Definition flat_response : AnalysisResponse :=
  {| markdownReport := utf16 "Flat.";
     visualizationData := JNull;
     groundingLinks := [] |}.

(** A service whose reply is a report without any fenced block. *)
Definition plain_env : Env :=
  {| API_KEY := Some (utf16 "key");
     generateContent := fun _ _ =>
       inr {| response_text := Some (utf16 "Flat."); candidates := None |};
     sendMessage := fun chat _ =>
       (inr {| response_text := Some (utf16 "Flat."); candidates := None |},
        chat) |}.

(** A service that replies with the sample text, and one whose reply
    carries a block that is not JSON. *)
Definition sample_env : Env :=
  {| API_KEY := Some (utf16 "key");
     generateContent := fun _ _ =>
       inr {| response_text := Some sample_text; candidates := None |};
     sendMessage := fun chat _ =>
       (inr {| response_text := Some (utf16 "Yes."); candidates := None |},
        chat) |}.

Definition garbled_env : Env :=
  {| API_KEY := Some (utf16 "key");
     generateContent := fun _ _ =>
       inr {| response_text :=
                Some (utf16 "Report " ++ fence_open ++ utf16 "{oops"
                      ++ fence_close);
              candidates := None |};
     sendMessage := sendMessage sample_env |}.

(** A page with one image loaded and nothing analysed yet. *)
Definition one_image_page : App.Page :=
  {| App.app :=
       {| App.images := [png_file];
          App.imagePreviews := [utf16 "data:image/png;base64,iVBORw0KGgo="];
          App.analyzing := false;
          App.analysisResult := None;
          App.visualizationData := INITIAL_VISUALIZATION_DATA;
          App.messages := [];
          App.dragActive := false;
          App.email := [];
          App.emailStatus := App.idle;
          App.timers := [] |};
     App.chat := {| App.input := []; App.loading := false |};
     App.world := empty_world |}.

(** A service whose reply carries a fenced block that is JSON, but a bare
    number. *)
Definition number_env : Env :=
  {| API_KEY := Some (utf16 "key");
     generateContent := fun _ _ =>
       inr {| response_text :=
                Some (utf16 "Report " ++ fence_open ++ utf16 "1"
                      ++ fence_close);
              candidates := None |};
     sendMessage := sendMessage sample_env |}.

(** Citation sources: two well formed, and between them one without a
    title, one with an empty URL and one that is not a web source. *)
Definition sample_sources : list GroundingChunk :=
  [ {| web := Some {| web_uri := Some (utf16 "https://a.example/x");
                      web_title := Some (utf16 "A") |} |};
    {| web := Some {| web_uri := Some (utf16 "https://b.example");
                      web_title := None |} |};
    {| web := Some {| web_uri := Some [];
                      web_title := Some (utf16 "C") |} |};
    {| web := None |};
    {| web := Some {| web_uri := Some (utf16 "https://e.example");
                      web_title := Some (utf16 "E") |} |} ].

Definition cited_response : GenerateContentResponse :=
  {| response_text := Some (utf16 "Flat.");
     candidates :=
       Some [ {| groundingMetadata :=
                   Some {| groundingChunks := Some sample_sources |} |} ] |}.

Definition cited_env : Env :=
  {| API_KEY := Some (utf16 "key");
     generateContent := fun _ _ => inr cited_response;
     sendMessage := sendMessage sample_env |}.

Definition text_file : File :=
  {| file_type := utf16 "text/plain";
     dataURL := Some (utf16 "data:text/plain;base64,aGk=") |}.

(** A second block after the sample, and fences around nothing and around
    text that is not JSON. *)
Definition second_block : jsstring :=
  fence_open ++ dq "{'sentimentScore':1}" ++ fence_close.

Definition two_blocks_text : jsstring :=
  sample_text ++ utf16 "
More.
" ++ second_block.

Definition empty_fence : jsstring := fence_open ++ fence_close.

Definition broken_fence : jsstring :=
  utf16 "Report " ++ fence_open ++ utf16 "{oops" ++ fence_close.

Unset Implicit Arguments.

(* ================================================================== *)
(** * Facts about strings *)
(* ================================================================== *)

Section StringFacts.

Lemma startsWith_iff (s pat : jsstring) :
  startsWith s pat = true <-> exists r, s = pat ++ r.
Proof.
  revert s; induction pat as [|p pat IH]; intros s; simpl.
  - destruct s; (split; [intros _; eexists; reflexivity | reflexivity]).
  - destruct s as [|c s]; simpl.
    + split; [discriminate | intros [r Hr]; discriminate].
    + rewrite andb_true_iff, N.eqb_eq, IH. split.
      * intros [-> [r ->]]. now exists r.
      * intros [r Hr]. injection Hr as -> ->. split; [easy | now exists r].
Qed.

Lemma startsWith_app (pat r : jsstring) : startsWith (pat ++ r) pat = true.
Proof. apply startsWith_iff. now exists r. Qed.

Lemma occurs_at_0 (pat s : jsstring) :
  occurs_at pat s 0 <-> startsWith s pat = true.
Proof.
  rewrite startsWith_iff. split.
  - intros (a & b & -> & Ha). apply length_zero_iff_nil in Ha. subst a.
    now exists b.
  - intros [r ->]. now exists [], r.
Qed.

Lemma occurs_at_S (pat : jsstring) (c : N) (s : jsstring) (i : nat) :
  occurs_at pat (c :: s) (S i) <-> occurs_at pat s i.
Proof.
  split.
  - intros (a & b & E & Ha). destruct a as [|c' a]; [discriminate|].
    simpl in E, Ha. injection E as -> ->. exists a, b. split; [easy | lia].
  - intros (a & b & -> & Ha). exists (c :: a), b. simpl. split; [easy | lia].
Qed.

Lemma occurs_at_nil_S (pat : jsstring) (i : nat) : ~ occurs_at pat [] (S i).
Proof.
  intros (a & b & E & Ha). destruct a; [discriminate | discriminate].
Qed.

Lemma occurs_at_skipn (pat s : jsstring) (i : nat) :
  occurs_at pat s i <-> (startsWith (skipn i s) pat = true /\ i <= length s).
Proof.
  revert s; induction i as [|i IH]; intros s.
  - rewrite occurs_at_0. simpl. split; [intros H; split; [easy | lia] | easy].
  - destruct s as [|c s].
    + split; [intros H; now apply occurs_at_nil_S in H | simpl; lia].
    + rewrite occurs_at_S, IH. simpl. split; intros [H1 H2]; split; auto; lia.
Qed.

Lemma indexOf_sound (s pat : jsstring) (i : nat) :
  indexOf s pat = Some i -> first_occurrence pat s i.
Proof.
  revert i; induction s as [|c s IH]; intros i; cbn [indexOf].
  - destruct (startsWith [] pat) eqn:E; [|discriminate].
    intros [= <-]. split; [now apply occurs_at_0 | intros; lia].
  - destruct (startsWith (c :: s) pat) eqn:E.
    + intros [= <-]. split; [now apply occurs_at_0 | intros; lia].
    + destruct (indexOf s pat) as [k|]; [|discriminate]. cbn [option_map].
      intros [= <-]. destruct (IH k eq_refl) as [Hk Hmin].
      split; [now apply occurs_at_S |].
      intros [|j] Hj; [apply occurs_at_0 in Hj; congruence |].
      apply occurs_at_S in Hj. apply Hmin in Hj. lia.
Qed.

Lemma indexOf_None (s pat : jsstring) :
  indexOf s pat = None -> forall i, ~ occurs_at pat s i.
Proof.
  induction s as [|c s IH]; cbn [indexOf].
  - destruct (startsWith [] pat) eqn:E; [discriminate|].
    intros _ [|i] H; [apply occurs_at_0 in H; congruence |].
    now apply occurs_at_nil_S in H.
  - destruct (startsWith (c :: s) pat) eqn:E; [discriminate|].
    destruct (indexOf s pat) as [k|]; [discriminate|].
    intros _ [|i] H; [apply occurs_at_0 in H; congruence |].
    apply occurs_at_S in H. now apply (IH eq_refl i).
Qed.

(** [indexOf] finds the leftmost occurrence, and nothing when there is
    none. *)
Lemma indexOf_Some (s pat : jsstring) (i : nat) :
  indexOf s pat = Some i <-> first_occurrence pat s i.
Proof.
  split; [apply indexOf_sound|].
  intros [Hi Hmin]. destruct (indexOf s pat) as [k|] eqn:E.
  - apply indexOf_sound in E. destruct E as [Hk Hmink].
    apply Hmin in Hk. apply Hmink in Hi. f_equal; lia.
  - now apply (indexOf_None _ _ E) in Hi.
Qed.

End StringFacts.

(* ================================================================== *)
(** * JSON text holds no line break followed by a backquote *)
(* ================================================================== *)

Section LexerFacts.

Lemma lex_start_mode (toks : list token) (c : N) (st : lex_state) :
  lex_start toks c = Some st -> no_break_expected (fst st).
Proof.
  unfold lex_start.
  repeat match goal with
         | |- context [if ?b then _ else _] => destruct b
         end;
    try (intros [= <-]; first [exact I | vm_compute; intuition discriminate]).
  destruct (digit_of c); [|discriminate]. now intros [= <-].
Qed.

Lemma lex_step_mode (st st' : lex_state) (c : N) :
  no_break_expected (fst st) -> lex_step st c = Some st' ->
  no_break_expected (fst st').
Proof.
  destruct st as [m toks]. intros Hwf.
  destruct m as [|acc|acc|acc k v|ns neg mant scale eneg e|expect v];
    cbn [lex_step].
  - apply lex_start_mode.
  - repeat match goal with
           | |- context [if ?b then _ else _] => destruct b
           end; try discriminate; now intros [= <-].
  - repeat match goal with
           | |- context [if ?b then _ else _] => destruct b
           end; try discriminate; now intros [= <-].
  - destruct (hex_of c); [|discriminate].
    destruct (k =? 3); now intros [= <-].
  - unfold lex_number_end.
    destruct ns, (digit_of c);
      repeat match goal with
             | |- context [if ?b then _ else _] => destruct b
             end;
      try discriminate; try (now intros [= <-]); apply lex_start_mode.
  - destruct expect as [|x rest]; [discriminate|].
    destruct (c =? x)%N; [|discriminate].
    destruct rest as [|y rest]; intros [= <-]; cbn; [exact I|].
    cbn in Hwf. intros H. apply Hwf. now right.
Qed.

(** A line break is read between tokens only. *)
Lemma lex_step_line_break (st st' : lex_state) :
  no_break_expected (fst st) -> lex_step st 10%N = Some st' ->
  fst st' = LStart.
Proof.
  destruct st as [m toks]. intros Hwf.
  destruct m as [|acc|acc|acc k v|ns neg mant scale eneg e|expect v];
    cbn [lex_step]; try discriminate.
  - now intros [= <-].
  - destruct ns; cbn; try discriminate; now intros [= <-].
  - destruct expect as [|x rest]; [discriminate|].
    destruct (10 =? x)%N eqn:E; [|discriminate].
    apply N.eqb_eq in E. exfalso. apply Hwf. now left.
Qed.

Lemma lex_run_line_break_backquote (a b : jsstring) (st : lex_state) :
  no_break_expected (fst st) ->
  lex_run st (a ++ 10%N :: 96%N :: b) = None.
Proof.
  revert st; induction a as [|c a IH]; intros st Hwf; cbn [app lex_run].
  - destruct (lex_step st 10%N) as [[m toks]|] eqn:E; [|reflexivity].
    apply (lex_step_line_break st _ Hwf) in E. cbn in E. subst m.
    reflexivity.
  - destruct (lex_step st c) as [st'|] eqn:E; [|reflexivity].
    apply IH. now apply (lex_step_mode st _ c Hwf).
Qed.

(** What [JSON.parse] accepts holds no line break followed by a
    backquote. *)
Lemma JSON_parse_no_line_break_backquote (a b : jsstring) :
  JSON_parse (a ++ 10%N :: 96%N :: b) = None.
Proof.
  unfold JSON_parse, lex.
  now rewrite lex_run_line_break_backquote.
Qed.

End LexerFacts.

(* ================================================================== *)
(** * Facts about the fence expression *)
(* ================================================================== *)

Section FenceFacts.

Lemma match_from_nil (i : nat) : match_from i [] = None.
Proof. reflexivity. Qed.

Local Opaque fence_open fence_close.

Lemma lazy_until_indexOf (close s : jsstring) :
  lazy_until close s = option_map (fun i => firstn i s) (indexOf s close).
Proof.
  induction s as [|c r IH]; cbn [lazy_until indexOf].
  - now destruct (startsWith [] close).
  - destruct (startsWith (c :: r) close); [reflexivity|].
    rewrite IH. now destruct (indexOf r close).
Qed.

Lemma lazy_until_None_skipn (close s : jsstring) (n : nat) :
  lazy_until close s = None -> lazy_until close (skipn n s) = None.
Proof.
  revert s; induction n as [|n IH]; intros s H; [exact H|].
  destruct s as [|c r]; [exact H|].
  cbn [skipn]. apply IH. cbn [lazy_until] in H.
  destruct (startsWith (c :: r) close); [discriminate|].
  now destruct (lazy_until close r).
Qed.

Lemma match_from_hopeless (s : jsstring) (i : nat) :
  (forall n, lazy_until fence_close (skipn (n + length fence_open) s) = None) ->
  match_from i s = None.
Proof.
  revert i; induction s as [|c r IH]; intros i H.
  - apply match_from_nil.
  - cbn [match_from]. unfold match_here.
    destruct (startsWith (c :: r) fence_open).
    + pose proof (H 0) as H0. cbn [Nat.add] in H0. rewrite H0.
      apply IH. intros n. exact (H (S n)).
    + apply IH. intros n. exact (H (S n)).
Qed.

(** The expression matches at the leftmost opening fence, if a closing
    fence follows it, and nowhere otherwise. *)
Lemma match_from_spec (s : jsstring) (i : nat) :
  match_from i s =
  match indexOf s fence_open with
  | Some k =>
      option_map
        (fun body => {| index := i + k;
                        whole := fence_open ++ body ++ fence_close;
                        group1 := body |})
        (lazy_until fence_close (skipn (k + length fence_open) s))
  | None => None
  end.
Proof.
  revert i; induction s as [|c r IH]; intros i.
  - rewrite match_from_nil. cbn [indexOf].
    change (startsWith [] fence_open) with false. reflexivity.
  - cbn [match_from indexOf]. unfold match_here.
    destruct (startsWith (c :: r) fence_open) eqn:E.
    + cbn [Nat.add].
      destruct (lazy_until fence_close (skipn (length fence_open) (c :: r)))
        as [body|] eqn:L; cbn [option_map].
      * now rewrite Nat.add_0_r.
      * apply match_from_hopeless. intros n.
        replace (skipn (n + length fence_open) r)
          with (skipn (S n) (skipn (length fence_open) (c :: r)))
          by (rewrite skipn_skipn; reflexivity).
        now apply lazy_until_None_skipn.
    + rewrite IH. destruct (indexOf r fence_open) as [k|]; [|reflexivity].
      cbn [option_map Nat.add skipn].
      destruct (lazy_until fence_close (skipn (k + length fence_open) r));
        [|reflexivity].
      cbn [option_map]. do 2 f_equal. lia.
Qed.

Lemma skipn_pre (pre rest : jsstring) (n : nat) :
  skipn (length pre + n) (pre ++ rest) = skipn n rest.
Proof.
  rewrite skipn_app, skipn_all2 by lia.
  cbn [app]. f_equal. lia.
Qed.

Lemma firstn_pre (pre rest : jsstring) :
  firstn (length pre) (pre ++ rest) = pre.
Proof.
  rewrite firstn_app, firstn_all, Nat.sub_diag. cbn [firstn].
  apply app_nil_r.
Qed.

Lemma match_first_block (text pre body post : jsstring) :
  first_block text pre body post ->
  match_json_fence text =
    Some {| index := length pre;
            whole := fence_open ++ body ++ fence_close;
            group1 := body |}.
Proof.
  intros (E & Hopen & Hclose). unfold match_json_fence.
  rewrite match_from_spec.
  rewrite (proj2 (indexOf_Some _ _ _) Hopen).
  rewrite E, skipn_pre.
  replace (skipn (length fence_open) (fence_open ++ body ++ fence_close ++ post))
    with (body ++ fence_close ++ post)
    by (rewrite <- (Nat.add_0_r (length fence_open)), skipn_pre; reflexivity).
  rewrite lazy_until_indexOf, (proj2 (indexOf_Some _ _ _) Hclose).
  cbn [option_map]. now rewrite firstn_pre.
Qed.

Lemma occurs_at_shift (pat s : jsstring) (n j : nat) :
  occurs_at pat s (n + j) -> occurs_at pat (skipn n s) j.
Proof.
  rewrite !occurs_at_skipn. intros [H1 H2]. split.
  - rewrite skipn_skipn. now rewrite Nat.add_comm.
  - rewrite length_skipn. lia.
Qed.

Lemma match_Some_block (text : jsstring) (m : MatchResult) :
  match_json_fence text = Some m ->
  exists pre post,
    text = pre ++ fence_open ++ group1 m ++ fence_close ++ post
    /\ whole m = fence_open ++ group1 m ++ fence_close
    /\ index m = length pre.
Proof.
  unfold match_json_fence. rewrite match_from_spec.
  destruct (indexOf text fence_open) as [k|] eqn:Ek; [|discriminate].
  rewrite lazy_until_indexOf.
  destruct (indexOf (skipn (k + length fence_open) text) fence_close)
    as [j|] eqn:Ej; [|discriminate].
  cbn [option_map]. intros [= <-]. cbn [group1 whole index].
  apply indexOf_sound in Ek. destruct Ek as [(a & b & E & Ha) _].
  subst k.
  assert (Hs : skipn (length a + length fence_open) text = b).
  { rewrite E, skipn_pre, <- (Nat.add_0_r (length fence_open)), skipn_pre.
    reflexivity. }
  rewrite Hs in *.
  apply indexOf_sound in Ej. destruct Ej as [(a' & b' & E' & Ha') _].
  subst b j. rewrite firstn_pre. exists a, b'. repeat split. exact E.
Qed.

Lemma block_match_Some (text : jsstring) :
  has_block text -> match_json_fence text <> None.
Proof.
  intros (pre & body & post & E). unfold match_json_fence.
  rewrite match_from_spec.
  destruct (indexOf text fence_open) as [k|] eqn:Ek.
  - apply indexOf_sound in Ek. destruct Ek as [_ Hmin].
    assert (Hk : k <= length pre).
    { apply Hmin. now exists pre, (body ++ fence_close ++ post). }
    rewrite lazy_until_indexOf.
    destruct (indexOf (skipn (k + length fence_open) text) fence_close)
      as [j|] eqn:Ej; [discriminate|].
    exfalso.
    apply (indexOf_None _ _ Ej (length pre - k + length body)).
    apply occurs_at_shift.
    exists (pre ++ fence_open ++ body), post. split.
    + rewrite E. now rewrite <- !app_assoc.
    + rewrite !length_app. lia.
  - exfalso. apply (indexOf_None _ _ Ek (length pre)).
    now exists pre, (body ++ fence_close ++ post).
Qed.

(** The expression fails exactly on the texts without a fenced block. *)
Lemma match_None_iff (text : jsstring) :
  match_json_fence text = None <-> ~ has_block text.
Proof.
  split.
  - intros H Hb. now apply block_match_Some in Hb.
  - intros H. destruct (match_json_fence text) as [m|] eqn:E; [|reflexivity].
    exfalso. apply H. apply match_Some_block in E.
    destruct E as (pre & post & E & _). now exists pre, (group1 m), post.
Qed.

Lemma startsWith_app_l (s p q : jsstring) :
  startsWith s (p ++ q) = true -> startsWith s p = true.
Proof.
  rewrite !startsWith_iff. intros [r ->]. exists (q ++ r).
  now rewrite app_assoc.
Qed.

Lemma occurs_at_app_l (p q s : jsstring) (i : nat) :
  occurs_at (p ++ q) s i -> occurs_at p s i.
Proof.
  intros (a & b & -> & Ha). exists a, (q ++ b). now rewrite <- app_assoc.
Qed.

(** Replacing the matched text by nothing removes the block itself: its
    first occurrence as a string is where the expression matched. *)
Lemma replace_first_block (text pre body post : jsstring) :
  first_block text pre body post ->
  replace text (fence_open ++ body ++ fence_close) [] = pre ++ post.
Proof.
  intros (E & [_ Hmin] & _). unfold replace.
  assert (H : indexOf text (fence_open ++ body ++ fence_close)
              = Some (length pre)).
  { apply indexOf_Some. split.
    - exists pre, post. split; [|reflexivity].
      rewrite E. now rewrite <- !app_assoc.
    - intros j Hj. apply Hmin. now apply occurs_at_app_l in Hj. }
  rewrite H. cbn [app]. rewrite E at 1 2.
  rewrite firstn_pre. f_equal.
  rewrite skipn_pre.
  replace (fence_open ++ body ++ fence_close ++ post)
    with ((fence_open ++ body ++ fence_close) ++ post)
    by now rewrite <- !app_assoc.
  rewrite <- (Nat.add_0_r (length (fence_open ++ body ++ fence_close))).
  now rewrite skipn_pre.
Qed.

(** Where the expression matches, there is the first block. *)
Lemma match_Some_first_block (text : jsstring) (m : MatchResult) :
  match_json_fence text = Some m ->
  exists pre post, first_block text pre (group1 m) post.
Proof.
  unfold match_json_fence. rewrite match_from_spec.
  destruct (indexOf text fence_open) as [k|] eqn:Ek; [|discriminate].
  rewrite lazy_until_indexOf.
  destruct (indexOf (skipn (k + length fence_open) text) fence_close)
    as [j|] eqn:Ej; [|discriminate].
  cbn [option_map]. intros [= <-]. cbn [group1].
  apply indexOf_sound in Ek. destruct Ek as [(a & b & E & Ha) Hmin].
  subst k.
  assert (Hs : skipn (length a + length fence_open) text = b).
  { rewrite E, skipn_pre, <- (Nat.add_0_r (length fence_open)), skipn_pre.
    reflexivity. }
  rewrite Hs in *.
  apply indexOf_sound in Ej.
  destruct Ej as [(a' & b' & E' & Ha') Hmin'].
  subst j. exists a, b'. rewrite E', firstn_pre.
  split; [now rewrite E, E' | split].
  - split; [now exists a, b | exact Hmin].
  - rewrite <- E'. split; [now exists a', b' | exact Hmin'].
Qed.

(** A text has no fenced block, or it has a first one. *)
Lemma block_dichotomy (text : jsstring) :
  ~ has_block text \/ exists pre body post, first_block text pre body post.
Proof.
  destruct (match_json_fence text) as [m|] eqn:E.
  - right. destruct (@match_Some_first_block text m E) as (pre & post & H).
    now exists pre, (group1 m), post.
  - left. now apply match_None_iff.
Qed.

(** The first block of a text is determined by the text. *)
Lemma first_block_unique (text pre body post pre' body' post' : jsstring) :
  first_block text pre body post ->
  first_block text pre' body' post' ->
  pre = pre' /\ body = body' /\ post = post'.
Proof.
  intros H H'.
  pose proof (match_first_block _ _ _ _ H) as E.
  rewrite (match_first_block _ _ _ _ H') in E. injection E as Hlen _ Hbody.
  subst body'. destruct H as (E1 & _). destruct H' as (E2 & _).
  rewrite E1 in E2.
  assert (Hpre : pre = pre').
  { apply (f_equal (firstn (length pre))) in E2.
    rewrite firstn_pre in E2. rewrite <- Hlen, firstn_pre in E2.
    now symmetry. }
  subst pre'. repeat split.
  apply app_inv_head in E2. apply app_inv_head in E2.
  apply app_inv_head in E2. now apply app_inv_head in E2.
Qed.

End FenceFacts.

(* ================================================================== *)
(** * A body that decodes ends at the first closing fence *)
(* ================================================================== *)

Section ValidBody.

Lemma prefix_split (l r a r' : jsstring) :
  l ++ r = a ++ r' -> length a < length l ->
  exists x l', l = a ++ x :: l'.
Proof.
  revert a; induction l as [|y l IH]; intros a E Hlen; [cbn in Hlen; lia|].
  destruct a as [|z a].
  - now exists y, l.
  - cbn in E, Hlen. injection E as -> E.
    destruct (IH a E) as (x & l' & ->); [lia|]. now exists x, l'.
Qed.

(** A body that [JSON.parse] accepts does not reach into a closing fence
    earlier than its own end. *)
Lemma valid_body_first_close (body post : jsstring) (v : json) :
  JSON_parse body = Some v ->
  first_occurrence fence_close (body ++ fence_close ++ post) (length body).
Proof.
  intros Hv. split; [now exists body, post|].
  intros j (a & b & E & Ha).
  destruct (Nat.le_gt_cases (length body) j) as [Hle | Hlt]; [exact Hle|].
  exfalso. subst j.
  destruct (prefix_split _ _ _ _ E Hlt) as (x & body' & ->).
  rewrite <- app_assoc in E. apply app_inv_head in E.
  change fence_close with [10; 96; 96; 96]%N in E. cbn [app] in E.
  injection E as -> E.
  destruct body' as [|y body'']; [discriminate|].
  cbn [app] in E. injection E as -> _.
  now rewrite JSON_parse_no_line_break_backquote in Hv.
Qed.

(** So a fenced block whose body decodes, after the leftmost opening
    fence, is the first block. *)
Lemma first_block_of_valid_body (text pre body post : jsstring) (v : json) :
  text = pre ++ fence_open ++ body ++ fence_close ++ post ->
  first_occurrence fence_open text (length pre) ->
  JSON_parse body = Some v ->
  first_block text pre body post.
Proof.
  intros E Hopen Hv. repeat split; try exact E; try apply Hopen.
  - now exists body, post.
  - apply (valid_body_first_close body post v Hv).
Qed.

End ValidBody.

(* ================================================================== *)
(** * The response parser *)
(* ================================================================== *)

Section ParserFacts.

Lemma JSON_parse_nonempty (body : jsstring) (v : json) :
  JSON_parse body = Some v -> JsString.truthy body = true.
Proof. destruct body; [discriminate | reflexivity]. Qed.

Lemma parse_no_block_eq (text : jsstring) (w : World) :
  ~ has_block text ->
  parse_visualization text w = (Returned (JNull, text), w).
Proof.
  intros H. apply match_None_iff in H.
  unfold parse_visualization. now rewrite H.
Qed.

(** What the parser does with the first fenced block of a text. *)
Lemma parse_visualization_first_block
  (text pre body post : jsstring) (w : World) :
  first_block text pre body post ->
  parse_visualization text w =
    if JsString.truthy body then
      match JSON_parse body with
      | Some v => (Returned (v, trim (pre ++ post)), w)
      | None => (Returned (JNull, text), logged_parse_failure w)
      end
    else (Returned (JNull, text), w).
Proof.
  intros H. unfold parse_visualization.
  rewrite (match_first_block _ _ _ _ H). cbn [group1 whole].
  destruct (JsString.truthy body); [|reflexivity].
  unfold try_catch, bind, JSON_parse_M.
  destruct (JSON_parse body) as [v|].
  - unfold ret. now rewrite (replace_first_block _ _ _ _ H).
  - reflexivity.
Qed.

(** ** Trimming keeps what lies between two non-blank code units *)

Lemma trimStart_keeps (a c : jsstring) (x : N) (blk : jsstring) :
  is_white_space x = false ->
  exists a', trimStart (a ++ (x :: blk) ++ c) = a' ++ (x :: blk) ++ c.
Proof.
  intros Hx. induction a as [|y a IH].
  - exists []. cbn [app trimStart]. now rewrite Hx.
  - cbn [app trimStart]. destruct (is_white_space y).
    + exact IH.
    + now exists (y :: a).
Qed.

Lemma trimEnd_keeps (a c : jsstring) (z : N) (blk : jsstring) :
  is_white_space z = false ->
  exists c', trimEnd (a ++ (blk ++ [z]) ++ c) = a ++ (blk ++ [z]) ++ c'.
Proof.
  intros Hz. unfold trimEnd.
  rewrite !rev_app_distr. cbn [rev app].
  destruct (@trimStart_keeps (rev c) (rev a) z (rev blk) Hz) as [c' E].
  exists (rev c').
  rewrite <- app_assoc. cbn [app] in *. rewrite E.
  rewrite !rev_app_distr. cbn [rev app]. rewrite !rev_app_distr.
  cbn [rev app]. rewrite !rev_involutive, <- !app_assoc. reflexivity.
Qed.

Lemma trim_keeps (x z : N) (mid s : jsstring) :
  is_white_space x = false -> is_white_space z = false ->
  occurs (x :: mid ++ [z]) s -> occurs (x :: mid ++ [z]) (trim s).
Proof.
  intros Hx Hz (i & a & c & -> & _). unfold trim.
  destruct (@trimStart_keeps a c x (mid ++ [z]) Hx) as [a' ->].
  change ((x :: mid ++ [z]) ++ c) with (((x :: mid) ++ [z]) ++ c).
  destruct (@trimEnd_keeps a' c z (x :: mid) Hz) as [c' ->].
  exists (length a'), a', c'. now split.
Qed.

(** A fenced block begins and ends with a backquote. *)
Lemma fenced_shape (b : jsstring) :
  exists mid,
    fence_open ++ b ++ fence_close = 96%N :: mid ++ [96%N].
Proof.
  exists (skipn 1 fence_open ++ b ++ removelast fence_close).
  unfold fence_open, fence_close. cbn. rewrite <- !app_assoc. reflexivity.
Qed.

Lemma trim_keeps_block (b s : jsstring) :
  occurs (fence_open ++ b ++ fence_close) s ->
  occurs (fence_open ++ b ++ fence_close) (trim s).
Proof.
  destruct (fenced_shape b) as [mid ->]. now apply trim_keeps.
Qed.

Lemma occurs_app_r (pat a s : jsstring) : occurs pat s -> occurs pat (a ++ s).
Proof.
  intros (i & x & y & -> & _). exists (length (a ++ x)), (a ++ x), y.
  split; [now rewrite <- app_assoc | reflexivity].
Qed.

End ParserFacts.

(* ================================================================== *)
(** * The models at work *)
(* ================================================================== *)

Section Examples.

Example sample_body_decodes : JSON_parse sample_body = Some sample_json.
Proof. vm_compute. reflexivity. Qed.

Example sample_json_shape :
  as_VisualizationData sample_json = Some sample_record.
Proof. reflexivity. Qed.

Example initial_data_shape :
  option_map marketPhase (as_VisualizationData INITIAL_VISUALIZATION_DATA)
  = Some (utf16 "等待数据").
Proof. reflexivity. Qed.

Example sample_match :
  match_json_fence sample_text
  = Some {| index := 22;
            whole := fence_open ++ sample_body ++ fence_close;
            group1 := sample_body |}.
Proof. vm_compute. reflexivity. Qed.

(** The closing fence must start a line of its own. *)
Example closing_fence_needs_line_break :
  match_json_fence (fence_open ++ dq "{}" ++ utf16 "```") = None.
Proof. vm_compute. reflexivity. Qed.

Example JSON_parse_rejects :
  map (fun t => JSON_parse (dq t))
    ["" ; " " ; "[1,]" ; "{'a':1,}" ; "01" ; "1." ; ".5" ; "+1" ; "tru" ;
     "'open" ; "{'a' 1}" ; "[1 2]" ; "{oops" ; "nul" ; "1 2"]%string
  = repeat None 15.
Proof. vm_compute. reflexivity. Qed.

Example JSON_parse_accepts :
  map (fun t => JSON_parse (dq t))
    ["null" ; " true " ; "-1.25E+2" ; "'aA\n'" ; "[]" ;
     "{'a':1,'b':[false],'a':2}"]%string
  = [ Some JNull; Some (JBool true);
      Some (JNumber (Number true 125 0));
      Some (JString [97; 65; 10]%N);
      Some (JArray []);
      Some (JObject [([97%N], JNumber (int 2));
                     ([98%N], JArray [JBool false])]) ].
Proof. vm_compute. reflexivity. Qed.

(** Values [if (result.visualizationData)] lets through, and values it
    does not. *)
Example truthy_values :
  map (fun t => option_map truthy (JSON_parse (dq t)))
    ["{}" ; "[]" ; "'x'" ; "1" ; "2.48e-324" ;
     "null" ; "false" ; "0" ; "-0.0" ; "''" ; "1e-400" ; "2.47e-324"]%string
  = repeat (Some true) 5 ++ repeat (Some false) 7.
Proof. vm_compute. reflexivity. Qed.

Example trim_example :
  trim (utf16 " 
  a b	
") = utf16 "a b".
Proof. vm_compute. reflexivity. Qed.

Example prompt_counts_files :
  firstn 15 (analysis_prompt 12)
  = 10%N :: utf16 "    请对上传的这 12 ".
Proof. vm_compute. reflexivity. Qed.

End Examples.

(* ================================================================== *)
(** * Properties of the response parser *)
(* ================================================================== *)

Section ParserClaims.

(** Checking [first_block] on a given text by running [indexOf]. *)
Lemma first_block_by_indexOf (text pre body post : jsstring) :
  text = pre ++ fence_open ++ body ++ fence_close ++ post ->
  indexOf text fence_open = Some (length pre) ->
  indexOf (body ++ fence_close ++ post) fence_close = Some (length body) ->
  first_block text pre body post.
Proof.
  intros E Ho Hc. repeat split; try exact E; now apply indexOf_Some.
Qed.

Lemma no_block_by_match (text : jsstring) :
  match_json_fence text = None -> ~ has_block text.
Proof. apply match_None_iff. Qed.

(** C1. A text that holds one fenced block only (the opening fence with
    its line break, a body, a line break and the closing fence), whose body
    [JSON.parse] decodes to a value of the [VisualizationData] shape: the
    parser yields that value, and the text without the block, trimmed, as
    the report.  Nothing is logged. *)
Theorem parse_single_block
  (text pre body post : jsstring) (v : json) (rec : VisualizationData)
  (w : World) :
  single_block text pre body post ->
  JSON_parse body = Some v ->
  as_VisualizationData v = Some rec ->
  parse_visualization text w = (Returned (v, trim (pre ++ post)), w).
Proof.
  intros (E & Hopen & _) Hparse _.
  pose proof (first_block_of_valid_body _ _ _ _ _ E Hopen Hparse) as Hfirst.
  rewrite (parse_visualization_first_block _ _ _ _ w Hfirst).
  now rewrite (JSON_parse_nonempty _ _ Hparse), Hparse.
Qed.

Lemma parse_single_block_witness :
  as_VisualizationData sample_json = Some sample_record
  /\ parse_visualization sample_text empty_world
     = (Returned (sample_json, utf16 "### Summary
Bullish."), empty_world).
Proof.
  split; [reflexivity|].
  change (utf16 "### Summary
Bullish.") with (trim (sample_pre ++ [])).
  apply (@parse_single_block sample_text sample_pre sample_body []
           sample_json sample_record empty_world).
  - split; [|split].
    + vm_compute. reflexivity.
    + apply indexOf_Some. vm_compute. reflexivity.
    + apply no_block_by_match. vm_compute. reflexivity.
  - vm_compute. reflexivity.
  - vm_compute. reflexivity.
Defined.

(** C5. Of several fenced blocks only the first is looked at: the
    visualization is what its body decodes to (nothing when it does not
    decode), on success the report is the text without that block,
    trimmed, otherwise the text itself, and every fenced block that
    follows the first one is still in the report, unchanged. *)
Theorem parse_first_block_only
  (text pre body post : jsstring) (w : World) :
  first_block text pre body post ->
  has_block post ->
  exists report w',
    parse_visualization text w
    = (Returned (match JSON_parse body with Some v => v | None => JNull end,
                 report), w')
    /\ report = match JSON_parse body with
                | Some _ => trim (pre ++ post)
                | None => text
                end
    /\ forall b, occurs (fence_open ++ b ++ fence_close) post ->
                 occurs (fence_open ++ b ++ fence_close) report.
Proof.
  intros Hfirst _.
  rewrite (parse_visualization_first_block _ _ _ _ w Hfirst).
  destruct (JSON_parse body) as [v|] eqn:Hparse.
  - rewrite (JSON_parse_nonempty _ _ Hparse).
    exists (trim (pre ++ post)), w. repeat split.
    intros b Hb. apply trim_keeps_block. now apply occurs_app_r.
  - exists text, (if JsString.truthy body then logged_parse_failure w else w).
    split; [now destruct (JsString.truthy body) | split; [reflexivity|]].
    intros b Hb. destruct Hfirst as (-> & _).
    rewrite !app_assoc, <- !app_assoc.
    do 4 apply occurs_app_r. exact Hb.
Qed.

Lemma parse_first_block_only_witness :
  exists report w',
    parse_visualization two_blocks_text empty_world
    = (Returned (sample_json, report), w')
    /\ occurs second_block report.
Proof.
  destruct (@parse_first_block_only two_blocks_text sample_pre sample_body
              (utf16 "
More.
" ++ second_block) empty_world) as (report & w' & E & _ & Hkept).
  - apply first_block_by_indexOf; vm_compute; reflexivity.
  - exists (utf16 "
More.
"), (dq "{'sentimentScore':1}"), []. vm_compute. reflexivity.
  - exists report, w'. split.
    + exact E.
    + apply (Hkept (dq "{'sentimentScore':1}")).
      exists 7, (utf16 "
More.
"), []. split; vm_compute; reflexivity.
Defined.

(** C6, as the code has it.  When the body of the first fenced block is
    not valid JSON, the parser yields no visualization and the text itself,
    untouched, as the report; the failure is logged when the body is not
    empty, and nothing is logged for an empty body, which is never handed
    to [JSON.parse]. *)
Theorem parse_invalid_block
  (text pre body post : jsstring) (w : World) :
  first_block text pre body post ->
  JSON_parse body = None ->
  parse_visualization text w
  = (Returned (JNull, text),
     if JsString.truthy body then logged_parse_failure w else w).
Proof.
  intros Hfirst Hparse.
  rewrite (parse_visualization_first_block _ _ _ _ w Hfirst), Hparse.
  now destruct (JsString.truthy body).
Qed.

Lemma parse_invalid_block_witness :
  parse_visualization broken_fence empty_world
  = (Returned (JNull, broken_fence), logged_parse_failure empty_world).
Proof.
  apply (@parse_invalid_block broken_fence (utf16 "Report ") (utf16 "{oops")
           [] empty_world).
  - apply first_block_by_indexOf; vm_compute; reflexivity.
  - vm_compute. reflexivity.
Defined.

(** C6 as stated fails: the text made of an opening fence directly
    followed by a closing fence holds a block whose (empty) body is not
    valid JSON, and the parser logs nothing for it. *)
Lemma empty_block_is_not_logged :
  first_block empty_fence [] [] []
  /\ JSON_parse [] = None
  /\ parse_visualization empty_fence empty_world
     = (Returned (JNull, empty_fence), empty_world)
  /\ parse_visualization empty_fence empty_world
     <> (Returned (JNull, empty_fence), logged_parse_failure empty_world).
Proof.
  split; [apply first_block_by_indexOf; vm_compute; reflexivity|].
  repeat split. discriminate.
Qed.

(** C7. A text with no fenced block comes back verbatim as the report,
    with no visualization; nothing is logged. *)
Theorem parse_no_block (text : jsstring) (w : World) :
  ~ has_block text ->
  parse_visualization text w = (Returned (JNull, text), w).
Proof.
  apply parse_no_block_eq.
Qed.

Lemma parse_no_block_witness :
  parse_visualization (utf16 "  ### Summary
Bullish.
") empty_world
  = (Returned (JNull, utf16 "  ### Summary
Bullish.
"), empty_world).
Proof.
  apply parse_no_block. apply no_block_by_match. vm_compute. reflexivity.
Defined.

End ParserClaims.

(* ================================================================== *)
(** * Properties of [analyzeMarketImages] *)
(* ================================================================== *)

Section AnalysisFacts.

Lemma getAI_eq (env : Env) (w : World) :
  getAI env w =
  match genAIInstance w with
  | Some ai => (Returned ai, w)
  | None =>
      match API_KEY env with
      | Some key =>
          if JsString.truthy key
          then (Returned {| apiKey := key |},
                set_genAIInstance (Some {| apiKey := key |}) w)
          else (Thrown ApiKeyMissing, w)
      | None => (Thrown ApiKeyMissing, w)
      end
  end.
Proof.
  unfold getAI, bind, get. destruct (genAIInstance w); [reflexivity|].
  destruct (API_KEY env) as [key|]; [|reflexivity].
  now destruct (JsString.truthy key).
Qed.

(** [getAI] succeeds exactly when the credential is at hand; it touches
    nothing but the client. *)
Lemma getAI_credential (env : Env) (w : World) :
  if has_credential env w
  then exists ai, getAI env w
                  = (Returned ai,
                     match genAIInstance w with
                     | Some _ => w
                     | None => set_genAIInstance (Some ai) w
                     end)
  else getAI env w = (Thrown ApiKeyMissing, w).
Proof.
  rewrite getAI_eq. unfold has_credential.
  destruct (genAIInstance w) as [ai|]; [now exists ai|].
  destruct (API_KEY env) as [key|]; [|reflexivity].
  destruct (JsString.truthy key); [now eexists | reflexivity].
Qed.

Lemma getAI_frame (env : Env) (w w1 : World) (o : outcome GoogleGenAI) :
  getAI env w = (o, w1) ->
  chatInstance w1 = chatInstance w
  /\ console w1 = console w /\ alerts w1 = alerts w.
Proof.
  rewrite getAI_eq. destruct (genAIInstance w).
  - now intros [= _ <-].
  - destruct (API_KEY env) as [key|]; [|now intros [= _ <-]].
    destruct (JsString.truthy key); now intros [= _ <-].
Qed.

(** The parser never throws. *)
Lemma parse_visualization_returns (text : jsstring) (w : World) :
  exists vis report w',
    parse_visualization text w = (Returned (vis, report), w').
Proof.
  unfold parse_visualization.
  destruct (match_json_fence text) as [m|]; [|now eexists _, _, _].
  destruct (JsString.truthy (group1 m)); [|now eexists _, _, _].
  unfold try_catch, bind, JSON_parse_M.
  destruct (JSON_parse (group1 m)); now eexists _, _, _.
Qed.

(** [analyzeMarketImages], step by step. *)
Lemma analyzeMarketImages_eq (env : Env) (files : list File) (w : World) :
  analyzeMarketImages env files w =
  match getAI env w with
  | (Thrown e, w1) => (Thrown e, w1)
  | (Returned ai, w1) =>
      match Promise_all (map fileToPart files) with
      | Thrown e => (Thrown e, w1)
      | Returned imageParts =>
          match generateContent env ai
                  (analysis_request imageParts (length files)) with
          | inl detail => (Thrown (ServiceError detail), w1)
          | inr response =>
              let fullText := text_or (response_text response) [] in
              match parse_visualization fullText w1 with
              | (Returned (vis, report), w2) =>
                  (Returned
                     {| markdownReport := report;
                        visualizationData := vis;
                        groundingLinks :=
                          groundingLinks_of (groundingChunks_of response) |},
                   set_chatInstance
                     (Some (analysis_chat imageParts (length files) fullText))
                     w2)
              | (Thrown e, w2) => (Thrown e, w2)
              end
          end
      end
  end.
Proof.
  unfold analyzeMarketImages, bind at 1.
  destruct (getAI env w) as [[ai|e] w1]; [|reflexivity].
  unfold bind at 1, of_outcome.
  destruct (Promise_all (map fileToPart files)) as [imageParts|e];
    [|reflexivity].
  unfold bind at 1, models_generateContent.
  destruct (generateContent env ai _) as [detail|response]; [reflexivity|].
  unfold ret at 1, bind at 1. cbn zeta.
  destruct (parse_visualization _ w1) as [[[vis report]|e] w2]; reflexivity.
Qed.

(** A failed run leaves the session, the console and the alerts as they
    were. *)
Lemma analyzeMarketImages_thrown_frame
  (env : Env) (files : list File) (w w' : World) (e : exn) :
  analyzeMarketImages env files w = (Thrown e, w') ->
  chatInstance w' = chatInstance w
  /\ console w' = console w /\ alerts w' = alerts w.
Proof.
  rewrite analyzeMarketImages_eq.
  destruct (getAI env w) as [[ai|e1] w1] eqn:Hai.
  - apply getAI_frame in Hai.
    destruct (Promise_all _); [|now intros [= _ <-]].
    destruct (generateContent _ _ _); [now intros [= _ <-]|].
    cbn zeta.
    destruct (parse_visualization_returns
                (text_or (response_text g) []) w1) as (v & r & w2 & ->).
    discriminate.
  - apply getAI_frame in Hai. now intros [= _ <-].
Qed.

(** A completed run has parsed the text of some reply of the service. *)
Lemma analyzeMarketImages_returned
  (env : Env) (files : list File) (w w' : World) (r : AnalysisResponse) :
  analyzeMarketImages env files w = (Returned r, w') ->
  exists ai w1 imageParts response w2,
    getAI env w = (Returned ai, w1)
    /\ Promise_all (map fileToPart files) = Returned imageParts
    /\ generateContent env ai (analysis_request imageParts (length files))
       = inr response
    /\ parse_visualization (text_or (response_text response) []) w1
       = (Returned (Types.visualizationData r, markdownReport r), w2)
    /\ groundingLinks r = groundingLinks_of (groundingChunks_of response).
Proof.
  rewrite analyzeMarketImages_eq.
  destruct (getAI env w) as [[ai|e1] w1] eqn:Hai; [|discriminate].
  destruct (Promise_all _) as [imageParts|] eqn:Hparts; [|discriminate].
  destruct (generateContent _ _ _) as [|response] eqn:Hgc; [discriminate|].
  cbn zeta.
  destruct (parse_visualization _ w1) as [[[vis report]|e] w2] eqn:Hp;
    [|discriminate].
  intros [= <- <-]. now exists ai, w1, imageParts, response, w2.
Qed.

End AnalysisFacts.

(* ================================================================== *)
(** * Grounding links and the request *)
(* ================================================================== *)

Section RequestClaims.

Lemma groundingLinks_of_cons (c : GroundingChunk) (rest : list GroundingChunk) :
  groundingLinks_of (c :: rest) =
  if web_ok (web c) then to_link (web c) :: groundingLinks_of rest
  else groundingLinks_of rest.
Proof.
  unfold groundingLinks_of. cbn [map filter].
  now destruct (web_ok (web c)).
Qed.

Lemma well_formed_source_unique (c : GroundingChunk) (l l' : GroundingLink) :
  well_formed_source c l -> well_formed_source c l' -> l = l'.
Proof.
  intros (x & Hx & Ht & Hu & _) (x' & Hx' & Ht' & Hu' & _).
  rewrite Hx in Hx'. injection Hx' as <-.
  destruct l, l'. cbn in *. congruence.
Qed.

(** The filter accepts exactly the well-formed sources. *)
Lemma web_ok_well_formed (c : GroundingChunk) :
  if web_ok (web c) then well_formed_source c (to_link (web c))
  else forall l, ~ well_formed_source c l.
Proof.
  destruct c as [[[[[|u0 u]|] [[|t0 t]|]]|]]; cbn;
    try (intros l (x & Hx & Ht & Hu & Hnt & Hnu); cbn in Hx;
         injection Hx as <-; cbn in Ht, Hu; congruence).
  - eexists. cbn. repeat split; discriminate.
  - intros l (x & Hx & _). discriminate.
Qed.

(** The pipeline on a list of sources: the in-order selection of those
    with a non-empty title and a non-empty URL, a link being produced
    exactly for such a source. *)
Lemma groundingLinks_of_selects (sources : list GroundingChunk) :
  groundingLinks_of sources = citations_with_title_and_url sources
  /\ (forall l, In l (groundingLinks_of sources) <->
                exists src, In src sources /\ well_formed_source src l).
Proof.
  split.
  - induction sources as [|c rest IH]; [reflexivity|].
    rewrite groundingLinks_of_cons. cbn [citations_with_title_and_url].
    rewrite IH.
    destruct c as [[[[[|u0 u]|] [[|t0 t]|]]|]]; reflexivity.
  - intros l. induction sources as [|c rest IH].
    + split; [easy | now intros (src & [] & _)].
    + rewrite groundingLinks_of_cons.
      pose proof (web_ok_well_formed c) as Hc.
      destruct (web_ok (web c)).
      * split.
        -- intros [<- | H]; [exists c; split; [now left | exact Hc]|].
           apply IH in H. destruct H as (src & Hin & Hwf).
           exists src. split; [now right | exact Hwf].
        -- intros (src & [<- | Hin] & Hwf).
           ++ left. now apply well_formed_source_unique with c.
           ++ right. apply IH. now exists src.
      * split.
        -- intros H. apply IH in H. destruct H as (src & Hin & Hwf).
           exists src. split; [now right | exact Hwf].
        -- intros (src & [<- | Hin] & Hwf); [now apply Hc in Hwf|].
           apply IH. now exists src.
Qed.

(** What the optional chain [candidates?.[0]?.groundingMetadata
    ?.groundingChunks || []] reads: the sources the response cites, and
    the empty list when it cites none. *)
Lemma groundingChunks_of_cited
  (response : GenerateContentResponse) (sources : list GroundingChunk) :
  cited_sources response sources -> groundingChunks_of response = sources.
Proof.
  intros (c & rest & gm & Hc & Hgm & Hchunks).
  unfold groundingChunks_of. now rewrite Hc, Hgm, Hchunks.
Qed.

Lemma groundingChunks_of_uncited (response : GenerateContentResponse) :
  (forall sources, ~ cited_sources response sources) ->
  groundingChunks_of response = [].
Proof.
  intros Hnone. unfold groundingChunks_of.
  destruct (candidates response) as [[|c rest]|] eqn:Hc; try reflexivity.
  destruct (groundingMetadata c) as [gm|] eqn:Hgm; [|reflexivity].
  destruct (groundingChunks gm) as [chunks|] eqn:Hchunks; [|reflexivity].
  exfalso. apply (Hnone chunks). now exists c, rest, gm.
Qed.

(** C8. The grounding links of a completed analysis are made from the
    response the service gave to the request: for every list of citation
    sources that response returns in its grounding metadata, the links are
    exactly the sources that carry both a non-empty title and a non-empty
    URL, in their order, each with its title and URL, every other source
    being dropped; and a response that cites nothing gives no link. *)
Theorem groundingLinks_are_well_formed_sources
  (env : Env) (files : list File) (w w' : World) (r : AnalysisResponse) :
  analyzeMarketImages env files w = (Returned r, w') ->
  exists ai imageParts response,
    Promise_all (map fileToPart files) = Returned imageParts
    /\ generateContent env ai (analysis_request imageParts (length files))
       = inr response
    /\ groundingLinks r = groundingLinks_of (groundingChunks_of response)
    /\ (forall sources,
          cited_sources response sources ->
          groundingLinks r = citations_with_title_and_url sources
          /\ (forall l, In l (groundingLinks r) <->
                        exists src,
                          In src sources /\ well_formed_source src l))
    /\ ((forall sources, ~ cited_sources response sources) ->
        groundingLinks r = []).
Proof.
  intros Hrun.
  destruct (analyzeMarketImages_returned _ _ _ _ _ Hrun)
    as (ai & w1 & imageParts & response & w2 & _ & Hparts & Hgc & _ & Hlinks).
  exists ai, imageParts, response.
  split; [exact Hparts | split; [exact Hgc | split; [exact Hlinks|]]].
  split.
  - intros sources Hcited.
    rewrite Hlinks, (groundingChunks_of_cited _ _ Hcited).
    apply groundingLinks_of_selects.
  - intros Hnone. now rewrite Hlinks, (groundingChunks_of_uncited _ Hnone).
Qed.

Lemma groundingLinks_are_well_formed_sources_witness :
  exists r w',
    analyzeMarketImages cited_env [png_file] empty_world = (Returned r, w')
    /\ groundingLinks r
       = [ {| title := utf16 "A"; url := utf16 "https://a.example/x" |};
           {| title := utf16 "E"; url := utf16 "https://e.example" |} ].
Proof.
  destruct (analyzeMarketImages cited_env [png_file] empty_world)
    as [[r|e] w'] eqn:Hrun; [|vm_compute in Hrun; discriminate].
  destruct (groundingLinks_are_well_formed_sources _ _ _ _ _ Hrun)
    as (ai & imageParts & response & _ & Hgc & _ & Hsel & _).
  change (@inr jsstring _ cited_response = inr response) in Hgc.
  injection Hgc as <-.
  destruct (Hsel sample_sources) as [E _]; [now eexists _, _, _|].
  exists r, w'. split; [reflexivity|]. rewrite E. reflexivity.
Defined.

(** [split(',')[1]] is the payload of the data URL. *)
Lemma split_first_piece (s : jsstring) :
  exists rest, split 44 s = up_to_comma s :: rest.
Proof.
  induction s as [|c s (rest & IH)]; [now exists []|].
  cbn [split up_to_comma]. destruct (c =? 44)%N; [now eexists|].
  rewrite IH. now exists rest.
Qed.

Lemma split_payload (url : jsstring) :
  nth_error (split 44 url) 1 = payload url.
Proof.
  induction url as [|c url IH]; [reflexivity|].
  cbn [split payload]. destruct (c =? 44)%N.
  - destruct (split_first_piece url) as (rest & ->). reflexivity.
  - destruct (split_first_piece url) as (rest & E). rewrite E in IH |- *.
    exact IH.
Qed.

(** On a data URL with one comma the payload is what follows it. *)
Lemma payload_after_comma (header data : jsstring) :
  ~ In 44%N header -> ~ In 44%N data ->
  payload (header ++ 44%N :: data) = Some data.
Proof.
  intros Hh Hd. induction header as [|c header IH].
  - cbn [app payload N.eqb Pos.eqb]. f_equal.
    induction data as [|d data IHd]; [reflexivity|].
    cbn [up_to_comma]. destruct (N.eqb_spec d 44) as [->|_].
    + exfalso. apply Hd. now left.
    + f_equal. apply IHd. intros Hin. apply Hd. now right.
  - cbn [app payload]. destruct (N.eqb_spec c 44) as [->|_].
    + exfalso. apply Hh. now left.
    + apply IH. intros Hin. apply Hh. now right.
Qed.

Lemma Promise_all_fileToPart (files : list File) :
  Forall (fun f => dataURL f <> None) files ->
  exists imageParts,
    Promise_all (map fileToPart files) = Returned imageParts
    /\ Forall2 inline_image files imageParts.
Proof.
  induction 1 as [|f rest Hf _ IH].
  - exists []. split; [reflexivity | constructor].
  - destruct IH as (ps & E & Hps).
    destruct (dataURL f) as [result|] eqn:Hurl; [|congruence].
    eexists (_ :: ps). cbn [map Promise_all]. unfold fileToPart at 1.
    rewrite Hurl, E. split; [reflexivity|].
    constructor; [|exact Hps].
    exists result. split; [exact Hurl | now rewrite split_payload].
Qed.

(** C9. For a non-empty list of readable image files the request holds,
    in the order of the files, each image encoded as inline data, the
    payload of the data URL the file is read into, tagged with the media
    type the file declares; then the one instruction text: image count
    plus one parts in all.  It is the request the service is called with:
    the service's rejection of it is what [analyzeMarketImages] throws,
    and the analysis depends on the service through its answer to this
    request only. *)
Theorem request_is_images_then_prompt (files : list File) :
  files <> [] ->
  Forall (fun f => dataURL f <> None) files ->
  exists imageParts,
    Promise_all (map fileToPart files) = Returned imageParts
    /\ Forall2 inline_image files imageParts
    /\ parts (contents (analysis_request imageParts (length files)))
       = imageParts ++ [TextPart (analysis_prompt (length files))]
    /\ length (parts (contents (analysis_request imageParts (length files))))
       = length files + 1
    /\ (forall env w ai w1 detail,
          getAI env w = (Returned ai, w1) ->
          generateContent env ai (analysis_request imageParts (length files))
          = inl detail ->
          analyzeMarketImages env files w
          = (Thrown (ServiceError detail), w1))
    /\ (forall env env' w,
          API_KEY env' = API_KEY env ->
          (forall ai,
             generateContent env' ai
               (analysis_request imageParts (length files))
             = generateContent env ai
                 (analysis_request imageParts (length files))) ->
          analyzeMarketImages env' files w = analyzeMarketImages env files w).
Proof.
  intros _ Hread.
  destruct (Promise_all_fileToPart _ Hread) as (imageParts & E & Hparts).
  exists imageParts.
  split; [exact E | split; [exact Hparts | split; [reflexivity|]]].
  split; [|split].
  - cbn [analysis_request contents parts]. unfold analysis_parts.
    rewrite length_app. cbn [length].
    now rewrite (Forall2_length Hparts).
  - intros env w ai w1 detail Hai Hgc.
    now rewrite analyzeMarketImages_eq, Hai, E, Hgc.
  - intros env env' w Hkey Hsame.
    rewrite (analyzeMarketImages_eq env'), (analyzeMarketImages_eq env),
      (getAI_eq env'), (getAI_eq env), Hkey, E.
    destruct (genAIInstance w) as [ai|]; [now rewrite Hsame|].
    destruct (API_KEY env) as [key|]; [|reflexivity].
    destruct (JsString.truthy key); [now rewrite Hsame | reflexivity].
Qed.

Lemma request_is_images_then_prompt_witness :
  exists imageParts,
    Promise_all (map fileToPart [png_file; jpeg_file]) = Returned imageParts
    /\ Forall2 inline_image [png_file; jpeg_file] imageParts
    /\ length (parts (contents (analysis_request imageParts 2))) = 3.
Proof.
  destruct (@request_is_images_then_prompt [png_file; jpeg_file])
    as (imageParts & E & Hparts & _ & Hlen & _).
  - discriminate.
  - repeat constructor; discriminate.
  - exists imageParts. repeat split; assumption.
Defined.

(** The parts are determined by the files, one by one: no other data and
    no other order will do. *)
Lemma inline_image_unique (f : File) (p q : Part) :
  inline_image f p -> inline_image f q -> p = q.
Proof.
  intros (url & Hurl & ->) (url' & Hurl' & ->).
  rewrite Hurl in Hurl'. now injection Hurl' as <-.
Qed.

Example payload_of_png :
  payload (utf16 "data:image/png;base64,iVBORw0KGgo=")
  = Some (utf16 "iVBORw0KGgo=").
Proof. reflexivity. Qed.

(** The request for the two sample files, computed. *)
Example request_of_two_files :
  Promise_all (map fileToPart [png_file; jpeg_file])
  = Returned
      [ InlinePart {| data := Some (utf16 "iVBORw0KGgo=");
                      mimeType := utf16 "image/png" |};
        InlinePart {| data := Some (utf16 "/9j/4AAQ");
                      mimeType := utf16 "image/jpeg" |} ].
Proof. vm_compute. reflexivity. Qed.

(** One unreadable file and the whole run is rejected before any request. *)
Example unreadable_file_rejects :
  Promise_all (map fileToPart [png_file; unreadable_file])
  = Thrown FileReadError.
Proof. reflexivity. Qed.

End RequestClaims.

(* ================================================================== *)
(** * The chat continuation *)
(* ================================================================== *)

Section ChatClaims.

Lemma sendChatMessage_eq (env : Env) (message : jsstring) (w : World) :
  sendChatMessage env message w =
  let ask (chat : Chat) (w0 : World) :=
    match sendMessage env chat message with
    | (inr response, chat') =>
        (Returned (text_or (response_text response) no_reply),
         set_chatInstance (Some chat') w0)
    | (inl detail, chat') =>
        (Thrown (ServiceError detail), set_chatInstance (Some chat') w0)
    end in
  match chatInstance w with
  | Some chat => ask chat w
  | None =>
      match getAI env w with
      | (Returned _, w1) => ask bare_chat (set_chatInstance (Some bare_chat) w1)
      | (Thrown e, w1) => (Thrown e, w1)
      end
  end.
Proof.
  unfold sendChatMessage, bind at 1, get. cbn zeta.
  destruct (chatInstance w) as [chat|].
  - unfold bind, ret, chat_sendMessage.
    destruct (sendMessage env chat message) as [[detail|response] chat'];
      reflexivity.
  - unfold bind at 1 2.
    destruct (getAI env w) as [[ai|e] w1]; [|reflexivity].
    unfold bind, modify, ret, chat_sendMessage.
    destruct (sendMessage env bare_chat message) as [[detail|response] chat'];
      reflexivity.
Qed.

Lemma text_or_nonempty (t : option jsstring) (dflt : jsstring) :
  dflt <> [] -> text_or t dflt <> [].
Proof.
  intros H. unfold text_or. destruct t as [[|c s]|]; cbn; try exact H.
  discriminate.
Qed.

Lemma no_reply_nonempty : no_reply <> [].
Proof. discriminate. Qed.

(** C10. When [sendChatMessage] returns, it returns a non-empty string:
    the text of the service's reply to the session in use, or the fixed
    string [no_reply] when that text is absent or empty. *)
Theorem sendChatMessage_reply_nonempty
  (env : Env) (message : jsstring) (w w' : World) (s : jsstring) :
  sendChatMessage env message w = (Returned s, w') ->
  s <> []
  /\ exists chat response chat',
       (chatInstance w = Some chat
        \/ (chatInstance w = None /\ chat = bare_chat))
       /\ sendMessage env chat message = (inr response, chat')
       /\ ((response_text response = None \/ response_text response = Some [])
           -> s = no_reply)
       /\ (forall t, response_text response = Some t -> t <> [] -> s = t).
Proof.
  rewrite sendChatMessage_eq. cbn zeta.
  assert (Hshape : forall response,
            ((response_text response = None
              \/ response_text response = Some [])
             -> text_or (response_text response) no_reply = no_reply)
            /\ (forall t, response_text response = Some t -> t <> [] ->
                          text_or (response_text response) no_reply = t)).
  { intros response. unfold text_or. split.
    - now intros [-> | ->].
    - intros t -> Ht. now destruct t. }
  destruct (chatInstance w) as [chat|] eqn:Hchat.
  - destruct (sendMessage env chat message) as [[detail|response] chat']
      eqn:Hsend; [discriminate|].
    intros [= <- _]. split; [apply text_or_nonempty, no_reply_nonempty|].
    exists chat, response, chat'. split; [now left|].
    split; [exact Hsend | apply Hshape].
  - destruct (getAI env w) as [[ai|e] w1]; [|discriminate].
    destruct (sendMessage env bare_chat message) as [[detail|response] chat']
      eqn:Hsend; [discriminate|].
    intros [= <- _]. split; [apply text_or_nonempty, no_reply_nonempty|].
    exists bare_chat, response, chat'. split; [now right|].
    split; [exact Hsend | apply Hshape].
Qed.

Lemma sendChatMessage_reply_nonempty_witness :
  sendChatMessage silent_env (utf16 "Why?") empty_world
  = (Returned no_reply,
     set_chatInstance (Some bare_chat)
       (set_genAIInstance (Some {| apiKey := utf16 "key" |}) empty_world))
  /\ no_reply <> [].
Proof.
  split; [reflexivity|].
  apply (@sendChatMessage_reply_nonempty silent_env (utf16 "Why?")
           empty_world
           (set_chatInstance (Some bare_chat)
              (set_genAIInstance (Some {| apiKey := utf16 "key" |})
                 empty_world))
           no_reply).
  reflexivity.
Defined.

Import App.

(** [handleSend] in terms of what [sendChatMessage] does. *)
Lemma handleSend_eq (env : Env) (t1 t2 t3 t4 : nat) (p : Page) :
  handleSend env t1 t2 t3 t4 p =
  if negb (JsString.truthy (trim (input (chat p)))) || loading (chat p)
  then (Returned tt, p)
  else
    let asked := messages (app p) ++ [question_message t1 t2 (input (chat p))] in
    let idle_chat := {| input := []; loading := false |} in
    match sendChatMessage env (input (chat p)) (world p) with
    | (Returned responseText, w') =>
        (Returned tt,
         {| app := with_messages (asked ++ [reply_message t3 t4 responseText])
                     (app p);
            chat := idle_chat;
            world := w' |})
    | (Thrown e, w') =>
        (Returned tt,
         {| app := with_messages (asked ++ [reply_message t3 t4 chat_error_text])
                     (app p);
            chat := idle_chat;
            world := {| chatInstance := chatInstance w';
                        genAIInstance := genAIInstance w';
                        console := console w' ++ [LogError None e];
                        alerts := alerts w' |} |})
    end.
Proof.
  unfold handleSend, bind at 1, get. cbn zeta.
  destruct (negb (JsString.truthy (trim (input (chat p)))) || loading (chat p));
    [reflexivity|].
  unfold finally, try_catch, bind, setMessages, setInput, setLoading,
    on_app, on_chat, modify, in_world, zoom, console_error, ret.
  cbn [app chat world].
  destruct (sendChatMessage env (input (chat p)) (world p))
    as [[responseText|e] w']; reflexivity.
Qed.

(** The chat handler never throws: whatever [sendChatMessage] throws is
    caught in it. *)
Lemma handleSend_never_throws (env : Env) (t1 t2 t3 t4 : nat) (p : Page) :
  exists p', handleSend env t1 t2 t3 t4 p = (Returned tt, p').
Proof.
  rewrite handleSend_eq.
  destruct (negb _ || _); [now eexists|]. cbn zeta.
  destruct (sendChatMessage _ _ _) as [[responseText|e] w']; now eexists.
Qed.

(** C4, as the code has it.  A non-blank question sent while no call is
    outstanding and before any analysis has run: the handler does not
    throw and appends the question and one reply to the transcript.  With
    the credential at hand a bare session (no history) is created and
    asked, and the reply is the text [sendChatMessage] returns, or the
    fixed fallback when the service fails; without the credential no
    session is created and the reply is the fixed fallback. *)
Theorem chat_before_analysis
  (env : Env) (t1 t2 t3 t4 : nat) (p : Page) :
  chatInstance (world p) = None ->
  JsString.truthy (trim (input (chat p))) = true ->
  loading (chat p) = false ->
  exists p' reply,
    handleSend env t1 t2 t3 t4 p = (Returned tt, p')
    /\ messages (app p')
       = messages (app p)
         ++ [question_message t1 t2 (input (chat p));
             reply_message t3 t4 reply]
    /\ history bare_chat = []
    /\ if has_credential env (world p)
       then
         match sendMessage env bare_chat (input (chat p)) with
         | (inr response, chat') =>
             sendChatMessage env (input (chat p)) (world p)
             = (Returned reply, world p')
             /\ chatInstance (world p') = Some chat'
         | (inl detail, chat') =>
             reply = chat_error_text
             /\ chatInstance (world p') = Some chat'
         end
       else reply = chat_error_text /\ chatInstance (world p') = None.
Proof.
  intros Hnone Hinput Hload.
  rewrite handleSend_eq, Hinput, Hload. cbn [negb orb]. cbn zeta.
  pose proof (getAI_credential env (world p)) as Hai.
  rewrite sendChatMessage_eq, Hnone. cbn zeta.
  destruct (has_credential env (world p)).
  - destruct Hai as [ai ->].
    destruct (sendMessage env bare_chat (input (chat p)))
      as [[detail|response] chat'] eqn:Hsend.
    + eexists _, chat_error_text. cbn [app world messages with_messages].
      rewrite <- app_assoc. repeat split.
    + eexists _, _. cbn [app world messages with_messages].
      rewrite <- app_assoc. repeat split.
  - rewrite Hai. eexists _, chat_error_text.
    cbn [app world messages with_messages chatInstance].
    rewrite <- app_assoc. now repeat split.
Qed.

Lemma chat_before_analysis_witness :
  exists p',
    handleSend silent_env 1 2 3 4 (fresh_page (utf16 "Why?"))
    = (Returned tt, p')
    /\ messages (app p')
       = [question_message 1 2 (utf16 "Why?"); reply_message 3 4 no_reply]
    /\ chatInstance (world p') = Some bare_chat.
Proof.
  destruct (@chat_before_analysis silent_env 1 2 3 4
              (fresh_page (utf16 "Why?")))
    as (p' & reply & E & Hmsgs & _ & Hsend & Hchat);
    [reflexivity | reflexivity | reflexivity |].
  exists p'. split; [exact E | split; [|exact Hchat]].
  rewrite Hmsgs. cbn [app messages fresh_page initial_state List.app].
  injection Hsend as <- _. reflexivity.
Defined.

(** C4 as stated fails.  With no credential configured, a question asked
    before any analysis makes [sendChatMessage] throw to its caller (as a
    failing service does, too), and when [handleSend] has caught that, the
    transcript shows the fallback but there is still no session.  And a
    blank question is dropped by [handleSend]: nothing is asked and no
    reply is given. *)
Lemma chat_without_credential_creates_no_session :
  sendChatMessage keyless_env (utf16 "Why?") empty_world
  = (Thrown ApiKeyMissing, empty_world)
  /\ fst (sendChatMessage failing_env (utf16 "Why?") empty_world)
     = Thrown (ServiceError (utf16 "503"))
  /\ (let after := handleSend keyless_env 1 2 3 4 (fresh_page (utf16 "Why?")) in
      fst after = Returned tt
      /\ chatInstance (world (snd after)) = None
      /\ messages (app (snd after))
         = [question_message 1 2 (utf16 "Why?");
            reply_message 3 4 chat_error_text])
  /\ handleSend silent_env 1 2 3 4 (fresh_page (utf16 "  "))
     = (Returned tt, fresh_page (utf16 "  ")).
Proof.
  split; [reflexivity | split; [reflexivity | split; [|reflexivity]]].
  cbn zeta. repeat split; vm_compute; reflexivity.
Qed.

End ChatClaims.

(* ================================================================== *)
(** * The analysis run *)
(* ================================================================== *)

Section RunClaims.

Import App.

(** [runAnalysis] in terms of what [analyzeMarketImages] does. *)
Lemma runAnalysis_eq (env : Env) (t_id t_stamp : nat) (p : Page) :
  runAnalysis env t_id t_stamp p =
  if length (images (app p)) =? 0 then (Returned tt, p)
  else
    match analyzeMarketImages env (images (app p)) (world p) with
    | (Returned result, w') =>
        let s1 := with_analysisResult (Some result) (cleared (app p)) in
        let s2 := if truthy (Types.visualizationData result)
                  then with_visualizationData
                         (Types.visualizationData result) s1
                  else s1 in
        let s3 := with_messages
                    (messages s2 ++ [analysis_message t_id t_stamp]) s2 in
        let s4 := if JsString.truthy (email (app p))
                     && negb (JsString.eqb (trim (email (app p))) [])
                  then with_timers (timers s3 ++ [(2000, MarkSent)])
                         (with_emailStatus sending s3)
                  else s3 in
        (Returned tt,
         {| app := with_analyzing false s4; chat := chat p; world := w' |})
    | (Thrown e, w') =>
        (Returned tt,
         {| app := with_analyzing false (cleared (app p));
            chat := chat p;
            world :=
              {| chatInstance := chatInstance w';
                 genAIInstance := genAIInstance w';
                 console := console w'
                            ++ [LogError (Some (utf16 "Analysis failed")) e];
                 alerts := alerts w' ++ [analysis_failed_notice] |} |})
    end.
Proof.
  unfold runAnalysis, bind at 1, get. cbn zeta.
  destruct (length (images (app p)) =? 0); [reflexivity|].
  unfold finally, try_catch, bind, setAnalyzing, setAnalysisResult,
    setEmailStatus, setVisualizationData, setMessages, simulateEmailSend,
    setTimeout, when, on_app, modify, in_world, zoom, console_error, alert,
    ret.
  cbn [app chat world].
  destruct (analyzeMarketImages env (images (app p)) (world p))
    as [[result|e] w']; [|reflexivity].
  cbn [app chat world].
  destruct (truthy (Types.visualizationData result));
    destruct (JsString.truthy (email (app p))
              && negb (JsString.eqb (trim (email (app p))) []));
    reflexivity.
Qed.

Lemma nonempty_length (files : list File) :
  files <> [] -> (length files =? 0) = false.
Proof. destruct files; [congruence | reflexivity]. Qed.

(** A handler that never throws: [runAnalysis] catches what the analysis
    throws. *)
Lemma runAnalysis_never_throws (env : Env) (t_id t_stamp : nat) (p : Page) :
  exists p', runAnalysis env t_id t_stamp p = (Returned tt, p').
Proof.
  rewrite runAnalysis_eq. destruct (_ =? 0); [now eexists|].
  destruct (analyzeMarketImages _ _ _) as [[result|e] w']; now eexists.
Qed.

(** C2, as the code has it.  When the analysis throws, [runAnalysis]
    catches the error, logs it and presents the one failure notice; the
    visualization, the transcript, the images, the address, the armed
    timers, the chat box and the session are as before, the busy flag is
    off again, and the displayed result and the e-mail status are reset:
    no result, status idle. *)
Theorem failed_analysis_is_caught
  (env : Env) (t_id t_stamp : nat) (p : Page) (e : exn) (w' : World) :
  images (app p) <> [] ->
  analyzeMarketImages env (images (app p)) (world p) = (Thrown e, w') ->
  exists p',
    runAnalysis env t_id t_stamp p = (Returned tt, p')
    /\ alerts (world p') = alerts (world p) ++ [analysis_failed_notice]
    /\ console (world p')
       = console (world p) ++ [LogError (Some (utf16 "Analysis failed")) e]
    /\ App.visualizationData (app p') = App.visualizationData (app p)
    /\ messages (app p') = messages (app p)
    /\ images (app p') = images (app p)
    /\ imagePreviews (app p') = imagePreviews (app p)
    /\ email (app p') = email (app p)
    /\ dragActive (app p') = dragActive (app p)
    /\ timers (app p') = timers (app p)
    /\ chat p' = chat p
    /\ chatInstance (world p') = chatInstance (world p)
    /\ analyzing (app p') = false
    /\ analysisResult (app p') = None
    /\ emailStatus (app p') = idle.
Proof.
  intros Himages Hthrown.
  rewrite runAnalysis_eq, (nonempty_length _ Himages), Hthrown.
  destruct (analyzeMarketImages_thrown_frame _ _ _ _ _ Hthrown)
    as (Hchat & Hconsole & Halerts).
  eexists. split; [reflexivity|].
  cbn. rewrite Hchat, Hconsole, Halerts. repeat split.
Qed.

Lemma failed_analysis_is_caught_witness :
  let after := runAnalysis failing_env 1 2 analysed_page in
  fst after = Returned tt
  /\ alerts (world (snd after)) = [analysis_failed_notice]
  /\ App.visualizationData (app (snd after)) = sample_json
  /\ messages (app (snd after)) = [analysis_message 1 2].
Proof.
  destruct (@failed_analysis_is_caught failing_env 1 2 analysed_page
              (ServiceError (utf16 "503"))
              (set_genAIInstance (Some {| apiKey := utf16 "key" |})
                 empty_world))
    as (p' & E & Halerts & _ & Hvis & Hmsgs & _).
  - discriminate.
  - reflexivity.
  - cbn zeta. rewrite E. cbn [fst snd]. now repeat split.
Defined.

(** C2 as stated fails: after a run that the service rejects, the result
    shown before is gone and the e-mail status is back to idle. *)
Lemma failed_analysis_clears_result :
  let after := runAnalysis failing_env 1 2 analysed_page in
  analyzeMarketImages failing_env (images (app analysed_page))
    (world analysed_page)
  = (Thrown (ServiceError (utf16 "503")),
     set_genAIInstance (Some {| apiKey := utf16 "key" |}) empty_world)
  /\ analysisResult (app analysed_page) = Some sample_response
  /\ analysisResult (app (snd after)) = None
  /\ emailStatus (app analysed_page) = sent
  /\ emailStatus (app (snd after)) = idle
  /\ app (snd after) <> app analysed_page.
Proof.
  cbn zeta. split; [reflexivity|].
  assert (H : analysisResult (app (snd (runAnalysis failing_env 1 2
                                          analysed_page))) = None)
    by (vm_compute; reflexivity).
  repeat split; try (vm_compute; reflexivity).
  intros E. rewrite E in H. discriminate.
Qed.

(** Whether the run ends by arming the e-mail timer. *)
Ltac email_cases :=
  match goal with
  | |- context [if ?b && ?c then _ else _] => destruct (b && c)
  end.

(** What the parser yields is not null only when the first block decoded. *)
Lemma parse_visualization_value
  (text : jsstring) (w w2 : World) (vis : json) (report : jsstring) :
  parse_visualization text w = (Returned (vis, report), w2) ->
  (~ has_block text /\ vis = JNull /\ report = text)
  \/ exists pre body post,
       first_block text pre body post
       /\ match JSON_parse body with
          | Some v => vis = v /\ report = trim (pre ++ post)
          | None => vis = JNull /\ report = text
          end.
Proof.
  destruct (block_dichotomy text) as [Hno | (pre & body & post & Hfirst)].
  - rewrite (parse_no_block_eq _ w Hno). intros [= <- <- _]. now left.
  - rewrite (parse_visualization_first_block _ _ _ _ w Hfirst).
    intros H. right. exists pre, body, post. split; [exact Hfirst|].
    destruct body as [|c body].
    + cbn in H. injection H as <- <- _. now cbn.
    + cbn [JsString.truthy] in H.
      destruct (JSON_parse (c :: body)); now injection H as <- <- _.
Qed.

(** A value of the [VisualizationData] shape is an object, hence truthy:
    [runAnalysis] always stores it. *)
Lemma VisualizationData_is_truthy (v : json) (rec : VisualizationData) :
  as_VisualizationData v = Some rec -> truthy v = true.
Proof. destruct v; try discriminate. reflexivity. Qed.

(** C3, as the code has it.  After a completed run the new result is
    stored; the visualization differs from the previous one only if the
    first fenced block of the reply decoded, and then it is the decoded
    value; whenever the first block decodes, the visualization becomes the
    decoded value if that is truthy, whatever its shape, and stays as it
    was otherwise; and when the reply has no fenced block, or its first
    block does not decode, the visualization is the previous one and the
    report is the reply text. *)
Theorem visualization_changes_only_by_parse
  (env : Env) (t_id t_stamp : nat) (p : Page) (r : AnalysisResponse)
  (w' : World) :
  images (app p) <> [] ->
  analyzeMarketImages env (images (app p)) (world p) = (Returned r, w') ->
  exists p' fullText,
    runAnalysis env t_id t_stamp p = (Returned tt, p')
    /\ reply_text env (images (app p)) fullText
    /\ analysisResult (app p') = Some r
    /\ (App.visualizationData (app p') <> App.visualizationData (app p) ->
        exists pre body post v,
          first_block fullText pre body post
          /\ JSON_parse body = Some v
          /\ Types.visualizationData r = v
          /\ App.visualizationData (app p') = v)
    /\ (forall pre body post v,
          first_block fullText pre body post ->
          JSON_parse body = Some v ->
          Types.visualizationData r = v
          /\ markdownReport r = trim (pre ++ post)
          /\ App.visualizationData (app p')
             = if truthy v then v else App.visualizationData (app p))
    /\ ((~ has_block fullText
         \/ exists pre body post,
              first_block fullText pre body post /\ JSON_parse body = None) ->
        App.visualizationData (app p') = App.visualizationData (app p)
        /\ markdownReport r = fullText).
Proof.
  intros Himages Hrun.
  rewrite runAnalysis_eq, (nonempty_length _ Himages), Hrun. cbn zeta.
  destruct (analyzeMarketImages_returned _ _ _ _ _ Hrun)
    as (ai & w1 & imageParts & response & w2 & _ & Hparts & Hgc & Hparse & _).
  eexists _, (text_or (response_text response) []).
  split; [reflexivity|].
  split; [now exists ai, imageParts, response|].
  cbn [app]. split; [|split; [|split]].
  - destruct (truthy (Types.visualizationData r)); now email_cases.
  - intros Hchanged.
    destruct (truthy (Types.visualizationData r)) eqn:Htruthy.
    + destruct (parse_visualization_value _ _ _ _ _ Hparse)
        as [(_ & Hnull & _) | (pre & body & post & Hfirst & Hbody)].
      * rewrite Hnull in Htruthy. discriminate.
      * destruct (JSON_parse body) as [v|] eqn:Hv.
        -- destruct Hbody as [Hr _]. exists pre, body, post, v.
           split; [exact Hfirst | split; [exact Hv | split; [exact Hr|]]].
           now email_cases.
        -- destruct Hbody as [Hnull _]. rewrite Hnull in Htruthy.
           discriminate.
    + exfalso. apply Hchanged. now email_cases.
  - intros pre body post v Hfirst Hv.
    destruct (parse_visualization_value _ _ _ _ _ Hparse)
      as [(Hno & _) | (pre' & body' & post' & Hfirst' & Hbody)].
    + exfalso. apply Hno. destruct Hfirst as (E & _).
      now exists pre, body, post.
    + destruct (first_block_unique _ _ _ _ _ _ _ Hfirst Hfirst')
        as (<- & <- & <-).
      rewrite Hv in Hbody. destruct Hbody as [-> ->].
      split; [reflexivity | split; [reflexivity|]].
      destruct (truthy v); now email_cases.
  - intros Hnone.
    assert (Hnull : Types.visualizationData r = JNull
                    /\ markdownReport r = text_or (response_text response) []).
    { destruct (parse_visualization_value _ _ _ _ _ Hparse)
        as [(_ & Hnull & Hrep) | (pre & body & post & Hfirst & Hbody)];
        [now split|].
      destruct Hnone as [Hno | (pre' & body' & post' & Hfirst' & Hbad)].
      - exfalso. apply Hno. destruct Hfirst as (E & _).
        now exists pre, body, post.
      - destruct (first_block_unique _ _ _ _ _ _ _ Hfirst Hfirst') as (_ & <- & _).
        now rewrite Hbad in Hbody. }
    destruct Hnull as [Hnull Hrep]. rewrite Hnull. cbn [truthy].
    split; [now email_cases | exact Hrep].
Qed.

Lemma visualization_changes_only_by_parse_witness :
  let after := runAnalysis plain_env 3 4 analysed_page in
  fst after = Returned tt
  /\ App.visualizationData (app (snd after)) = sample_json
  /\ option_map markdownReport (analysisResult (app (snd after)))
     = Some (utf16 "Flat.").
Proof.
  destruct (@visualization_changes_only_by_parse plain_env 3 4 analysed_page
              flat_response (snd (analyzeMarketImages plain_env [png_file] empty_world)))
    as (p' & fullText & E & Hreply & Hres & _ & _ & Hkeep).
  - discriminate.
  - vm_compute. reflexivity.
  - destruct Hreply as (ai & imageParts & response & _ & Hgc & ->).
    injection Hgc as <-.
    destruct Hkeep as [Hvis _].
    { left. apply no_block_by_match. vm_compute. reflexivity. }
    cbn zeta. rewrite E. cbn [fst snd]. rewrite Hres, Hvis.
    repeat split.
Defined.

(** C3 as stated fails: the reply of this completed run carries a block
    whose body is the number 1.  It decodes, so the visualization is
    updated, to that number, though no [VisualizationData] was parsed out
    of the reply: the decoded value has not that shape. *)
Lemma bare_number_becomes_visualization :
  let after := runAnalysis number_env 1 2 one_image_page in
  fst after = Returned tt
  /\ first_block (utf16 "Report " ++ fence_open ++ utf16 "1" ++ fence_close)
       (utf16 "Report ") (utf16 "1") []
  /\ JSON_parse (utf16 "1") = Some (JNumber (int 1))
  /\ as_VisualizationData (JNumber (int 1)) = None
  /\ App.visualizationData (app one_image_page) = INITIAL_VISUALIZATION_DATA
  /\ App.visualizationData (app (snd after)) = JNumber (int 1)
  /\ App.visualizationData (app (snd after))
     <> App.visualizationData (app one_image_page)
  /\ as_VisualizationData (App.visualizationData (app (snd after))) = None.
Proof.
  cbn zeta.
  assert (H : App.visualizationData
                (app (snd (runAnalysis number_env 1 2 one_image_page)))
              = JNumber (int 1)) by (vm_compute; reflexivity).
  split; [vm_compute; reflexivity|].
  split; [apply first_block_by_indexOf; vm_compute; reflexivity|].
  split; [vm_compute; reflexivity|].
  split; [reflexivity|].
  split; [reflexivity|].
  split; [exact H|].
  rewrite H. split; [discriminate | reflexivity].
Qed.

(** The sample reply on a fresh page: the visualization is replaced by
    the decoded value and the report is the text without the block. *)
Example analysis_of_sample_reply :
  let after := runAnalysis sample_env 1 2 one_image_page in
  fst after = Returned tt
  /\ App.visualizationData (app (snd after)) = sample_json
  /\ analysisResult (app (snd after)) = Some sample_response
  /\ messages (app (snd after)) = [analysis_message 1 2]
  /\ analyzing (app (snd after)) = false.
Proof. cbn zeta. repeat split; vm_compute; reflexivity. Qed.

(** A reply whose block is not JSON: the report is the whole reply, the
    failure is on the console and the visualization stays as it was. *)
Example analysis_of_garbled_reply :
  let after := runAnalysis garbled_env 1 2 analysed_page in
  fst after = Returned tt
  /\ App.visualizationData (app (snd after)) = sample_json
  /\ option_map markdownReport (analysisResult (app (snd after)))
     = Some broken_fence
  /\ console (world (snd after))
     = [LogError (Some parse_failure_message) SyntaxError].
Proof. cbn zeta. repeat split; vm_compute; reflexivity. Qed.

End RunClaims.

(* ================================================================== *)
(** * More about services/gemini.ts *)
(* ================================================================== *)

Section GeminiMore.

(** X1. Once [getAI] has returned a client, it returns that same client
    from then on and changes nothing, whatever the environment holds:
    the key is read once. *)
Theorem getAI_caches_client
  (env : Env) (w w1 : World) (ai : GoogleGenAI) :
  getAI env w = (Returned ai, w1) ->
  genAIInstance w1 = Some ai
  /\ forall env', getAI env' w1 = (Returned ai, w1).
Proof.
  rewrite getAI_eq. intros H.
  assert (Hai : genAIInstance w1 = Some ai).
  { destruct (genAIInstance w) as [ai0|] eqn:E.
    - now injection H as <- <-.
    - destruct (API_KEY env) as [key|]; [|discriminate].
      destruct (JsString.truthy key); [|discriminate].
      now injection H as <- <-. }
  split; [exact Hai|]. intros env'. now rewrite getAI_eq, Hai.
Qed.

Lemma getAI_caches_client_witness :
  genAIInstance (snd (getAI sample_env empty_world))
  = Some {| apiKey := utf16 "key" |}
  /\ getAI keyless_env (snd (getAI sample_env empty_world))
     = (Returned {| apiKey := utf16 "key" |},
        snd (getAI sample_env empty_world)).
Proof.
  destruct (getAI_caches_client sample_env empty_world
              (snd (getAI sample_env empty_world))
              {| apiKey := utf16 "key" |} eq_refl) as [Hkept Hsame].
  split; [exact Hkept | exact (Hsame keyless_env)].
Defined.

(** X2. With no client yet and the key missing or empty, nothing is
    sent: the analysis throws the missing-key error whatever the files and
    the service are, and so does a first chat question; the module state
    is untouched. *)
Theorem nothing_is_sent_without_key
  (env : Env) (files : list File) (message : jsstring) (w : World) :
  genAIInstance w = None ->
  API_KEY env = None \/ API_KEY env = Some [] ->
  analyzeMarketImages env files w = (Thrown ApiKeyMissing, w)
  /\ (chatInstance w = None ->
      sendChatMessage env message w = (Thrown ApiKeyMissing, w)).
Proof.
  intros Hnone Hkey.
  assert (Hai : getAI env w = (Thrown ApiKeyMissing, w)).
  { rewrite getAI_eq, Hnone. now destruct Hkey as [-> | ->]. }
  split.
  - now rewrite analyzeMarketImages_eq, Hai.
  - intros Hchat. now rewrite sendChatMessage_eq, Hchat, Hai.
Qed.

Lemma nothing_is_sent_without_key_witness :
  analyzeMarketImages keyless_env [png_file] empty_world
  = (Thrown ApiKeyMissing, empty_world).
Proof.
  apply (nothing_is_sent_without_key keyless_env [png_file] [] empty_world).
  - reflexivity.
  - now left.
Defined.

Lemma Promise_all_unreadable (files : list File) (f : File) :
  In f files -> dataURL f = None ->
  Promise_all (map fileToPart files) = Thrown FileReadError.
Proof.
  intros Hin Hf. induction files as [|g rest IH]; [destruct Hin|].
  cbn [map Promise_all]. unfold fileToPart at 1.
  destruct (dataURL g) as [result|] eqn:Hg; [|reflexivity].
  destruct Hin as [-> | Hin]; [congruence|].
  now rewrite (IH Hin).
Qed.

(** X3. One file that cannot be read and the analysis is rejected with
    the read error before the service is called: the outcome is the same
    for every service, no session is installed and nothing is logged. *)
Theorem unreadable_file_stops_analysis
  (env : Env) (files : list File) (f : File) (w w1 : World)
  (ai : GoogleGenAI) :
  getAI env w = (Returned ai, w1) ->
  In f files -> dataURL f = None ->
  analyzeMarketImages env files w = (Thrown FileReadError, w1)
  /\ chatInstance w1 = chatInstance w
  /\ console w1 = console w
  /\ forall g s,
       analyzeMarketImages
         {| API_KEY := API_KEY env; generateContent := g; sendMessage := s |}
         files w
       = (Thrown FileReadError, w1).
Proof.
  intros Hai Hin Hf.
  pose proof (Promise_all_unreadable files f Hin Hf) as Hall.
  destruct (getAI_frame env w w1 _ Hai) as (Hchat & Hconsole & _).
  split; [now rewrite analyzeMarketImages_eq, Hai, Hall|].
  split; [exact Hchat | split; [exact Hconsole|]].
  intros g s. rewrite analyzeMarketImages_eq.
  assert (Hai' : getAI {| API_KEY := API_KEY env; generateContent := g;
                          sendMessage := s |} w = (Returned ai, w1)).
  { rewrite getAI_eq in Hai |- *. exact Hai. }
  now rewrite Hai', Hall.
Qed.

Lemma unreadable_file_stops_analysis_witness :
  analyzeMarketImages sample_env [png_file; unreadable_file] empty_world
  = (Thrown FileReadError,
     set_genAIInstance (Some {| apiKey := utf16 "key" |}) empty_world).
Proof.
  apply (unreadable_file_stops_analysis sample_env
           [png_file; unreadable_file] unreadable_file empty_world
           _ {| apiKey := utf16 "key" |}).
  - reflexivity.
  - right. now left.
  - reflexivity.
Defined.

(** X4. An analysis that throws leaves the chat session as it was, so a
    question asked afterwards gets the answer it would have got before. *)
Theorem failed_analysis_keeps_session
  (env : Env) (files : list File) (w w' : World) (e : exn)
  (chat : Chat) :
  analyzeMarketImages env files w = (Thrown e, w') ->
  chatInstance w = Some chat ->
  chatInstance w' = Some chat
  /\ forall env2 message,
       fst (sendChatMessage env2 message w')
       = fst (sendChatMessage env2 message w)
       /\ chatInstance (snd (sendChatMessage env2 message w'))
          = Some (snd (sendMessage env2 chat message)).
Proof.
  intros Hthrown Hchat.
  destruct (analyzeMarketImages_thrown_frame _ _ _ _ _ Hthrown)
    as (Hsame & _ & _).
  rewrite Hchat in Hsame. split; [exact Hsame|].
  intros env2 message. rewrite !sendChatMessage_eq, Hsame, Hchat.
  cbv beta zeta.
  destruct (sendMessage env2 chat message) as [[detail|response] chat'];
    split; reflexivity.
Qed.

Lemma failed_analysis_keeps_session_witness :
  chatInstance
    (snd (analyzeMarketImages failing_env [png_file]
            (set_chatInstance (Some bare_chat) empty_world)))
  = Some bare_chat.
Proof.
  apply (failed_analysis_keeps_session failing_env [png_file]
           (set_chatInstance (Some bare_chat) empty_world)
           (snd (analyzeMarketImages failing_env [png_file]
                   (set_chatInstance (Some bare_chat) empty_world)))
           (ServiceError (utf16 "503")) bare_chat).
  - reflexivity.
  - reflexivity.
Defined.

(** X5. A completed analysis replaces the chat session, whatever it was,
    by a new one whose history is exactly the request that was sent (the
    images and the prompt) and the raw reply: the whole reply text, JSON
    block included, also when the report shown has the block removed. *)
Theorem analysis_installs_fresh_session
  (env : Env) (files : list File) (w w' : World) (r : AnalysisResponse) :
  analyzeMarketImages env files w = (Returned r, w') ->
  exists imageParts fullText session,
    Promise_all (map fileToPart files) = Returned imageParts
    /\ reply_text env files fullText
    /\ chatInstance w' = Some session
    /\ history session
       = [ {| content_role := user;
              parts := imageParts
                       ++ [TextPart (analysis_prompt (length files))] |};
           {| content_role := model; parts := [TextPart fullText] |} ]
    /\ systemInstruction (chat_config session) = SYSTEM_INSTRUCTION
    /\ tools (chat_config session) = []
    /\ fst (parse_visualization fullText w)
       = Returned (Types.visualizationData r, markdownReport r).
Proof.
  rewrite analyzeMarketImages_eq.
  destruct (getAI env w) as [[ai|e1] w1] eqn:Hai; [|discriminate].
  destruct (Promise_all _) as [imageParts|] eqn:Hparts; [|discriminate].
  destruct (generateContent _ _ _) as [|response] eqn:Hgc; [discriminate|].
  cbn zeta.
  destruct (parse_visualization _ w1) as [[[vis report]|e] w2] eqn:Hp;
    [|discriminate].
  intros [= <- <-].
  exists imageParts, (text_or (response_text response) []),
    (analysis_chat imageParts (length files)
       (text_or (response_text response) [])).
  split; [reflexivity|].
  split; [now exists ai, imageParts, response|].
  split; [reflexivity|]. repeat split.
  cbn [Types.visualizationData markdownReport].
  assert (Hindep : forall t wa wb,
            fst (parse_visualization t wa) = fst (parse_visualization t wb)).
  { intros t wa wb. unfold parse_visualization.
    destruct (match_json_fence t) as [m|]; [|reflexivity].
    destruct (JsString.truthy (group1 m)); [|reflexivity].
    unfold try_catch, bind, JSON_parse_M.
    now destruct (JSON_parse (group1 m)). }
  now rewrite (Hindep _ w w1), Hp.
Qed.

Lemma analysis_installs_fresh_session_witness :
  exists session,
    chatInstance
      (snd (analyzeMarketImages sample_env [png_file]
              (set_chatInstance (Some bare_chat) empty_world)))
    = Some session
    /\ nth_error (history session) 1
       = Some {| content_role := model; parts := [TextPart sample_text] |}.
Proof.
  destruct (analysis_installs_fresh_session sample_env [png_file]
              (set_chatInstance (Some bare_chat) empty_world)
              (snd (analyzeMarketImages sample_env [png_file]
                      (set_chatInstance (Some bare_chat) empty_world)))
              sample_response)
    as (imageParts & fullText & session & _ & Hreply & Hchat & Hhist & _).
  - vm_compute. reflexivity.
  - exists session. split; [exact Hchat|].
    rewrite Hhist. cbn [nth_error].
    destruct Hreply as (ai & ps & response & _ & Hgc & ->).
    injection Hgc as <-. reflexivity.
Defined.

(** X6. With a session in place a chat question goes to that session
    and to nothing else: the credential and the analysis service are not
    consulted, and the session kept afterwards is the one the SDK leaves,
    also when the call failed. *)
Theorem chat_uses_existing_session
  (env : Env) (message : jsstring) (w : World) (chat : Chat) :
  chatInstance w = Some chat ->
  chatInstance (snd (sendChatMessage env message w))
  = Some (snd (sendMessage env chat message))
  /\ genAIInstance (snd (sendChatMessage env message w)) = genAIInstance w
  /\ console (snd (sendChatMessage env message w)) = console w
  /\ fst (sendChatMessage env message w)
     = match fst (sendMessage env chat message) with
       | inr response => Returned (text_or (response_text response) no_reply)
       | inl detail => Thrown (ServiceError detail)
       end
  /\ forall key g,
       sendChatMessage
         {| API_KEY := key; generateContent := g;
            sendMessage := sendMessage env |} message w
       = sendChatMessage env message w.
Proof.
  intros Hchat. rewrite !sendChatMessage_eq, Hchat. cbv beta zeta.
  repeat split;
    try (destruct (sendMessage env chat message) as [[detail|response] chat'];
         reflexivity).
  intros key g. now rewrite sendChatMessage_eq, Hchat.
Qed.

Lemma chat_uses_existing_session_witness :
  fst (sendChatMessage keyless_env (utf16 "Why?")
         (set_chatInstance (Some bare_chat) empty_world))
  = Returned no_reply.
Proof.
  destruct (chat_uses_existing_session keyless_env (utf16 "Why?")
              (set_chatInstance (Some bare_chat) empty_world) bare_chat)
    as (_ & _ & _ & H & _).
  - reflexivity.
  - rewrite H. reflexivity.
Defined.

End GeminiMore.

(* ================================================================== *)
(** * More about the parser, the expression and [fileToPart] *)
(* ================================================================== *)

Section ParserMore.

(** What [trimStart] takes away is white space, and what it leaves does
    not begin with white space. *)
Lemma trimStart_spec (s : jsstring) :
  exists a,
    s = a ++ trimStart s
    /\ forallb is_white_space a = true
    /\ match trimStart s with
       | [] => True
       | x :: _ => is_white_space x = false
       end.
Proof.
  induction s as [|c s IH].
  - exists []. now cbn.
  - cbn [trimStart]. destruct (is_white_space c) eqn:E.
    + destruct IH as (a & Ha & Hws & Hhead). exists (c :: a).
      cbn [app forallb]. rewrite E, Hws. split; [now f_equal | now split].
    + exists []. cbn. now rewrite E.
Qed.

Lemma trimEnd_spec (s : jsstring) :
  exists b,
    s = trimEnd s ++ b
    /\ forallb is_white_space b = true
    /\ match rev (trimEnd s) with
       | [] => True
       | z :: _ => is_white_space z = false
       end.
Proof.
  unfold trimEnd. destruct (trimStart_spec (rev s)) as (a & Ha & Hws & Hhead).
  exists (rev a). rewrite rev_involutive. split; [|split].
  - rewrite <- rev_app_distr, <- Ha. now rewrite rev_involutive.
  - rewrite forallb_forall in Hws |- *. intros x Hx.
    apply Hws. now apply in_rev.
  - exact Hhead.
Qed.

Lemma trimEnd_keeps_head (x : N) (r : jsstring) :
  is_white_space x = false ->
  exists r', trimEnd (x :: r) = x :: r'.
Proof.
  intros Hx. destruct (trimEnd_spec (x :: r)) as (b & Hb & Hws & _).
  destruct (trimEnd (x :: r)) as [|y r'] eqn:E.
  - cbn in Hb. subst b. cbn in Hws. now rewrite Hx in Hws.
  - cbn in Hb. injection Hb as <- _. now exists r'.
Qed.

(** [trim] takes white space off both ends and nothing else. *)
Lemma trim_spec (s : jsstring) :
  exists a b,
    s = a ++ trim s ++ b
    /\ forallb is_white_space a = true
    /\ forallb is_white_space b = true
    /\ trimStart (trim s) = trim s
    /\ trimEnd (trim s) = trim s.
Proof.
  unfold trim.
  destruct (trimStart_spec s) as (a & Ha & Hwa & Hhead).
  destruct (trimEnd_spec (trimStart s)) as (b & Hb & Hwb & Hlast).
  exists a, b. split; [now rewrite <- Hb|].
  split; [exact Hwa | split; [exact Hwb | split]].
  - destruct (trimStart s) as [|x r]; [reflexivity|].
    destruct (trimEnd_keeps_head x r Hhead) as [r' ->].
    cbn [trimStart]. now rewrite Hhead.
  - set (t := trimEnd (trimStart s)) in *.
    unfold trimEnd at 1.
    destruct (rev t) as [|z u] eqn:E.
    + apply (f_equal (@rev N)) in E. rewrite rev_involutive in E.
      now rewrite E.
    + cbn [trimStart]. rewrite Hlast, <- E. apply rev_involutive.
Qed.

Lemma trim_length (s : jsstring) : length (trim s) <= length s.
Proof.
  destruct (trim_spec s) as (a & b & E & _).
  rewrite E at 2. rewrite !length_app. lia.
Qed.

(** X7. The parser never throws, whatever the reply text: the error of
    [JSON.parse] is caught.  It writes at most one entry on the console
    and touches nothing else, and the report is either the text itself or
    the text with its first block, which then decoded, removed and the
    rest trimmed. *)
Theorem parser_never_throws (text : jsstring) (w : World) :
  exists vis report w',
    parse_visualization text w = (Returned (vis, report), w')
    /\ (w' = w \/ w' = logged_parse_failure w)
    /\ ((report = text /\ vis = JNull)
        \/ exists pre body post,
             first_block text pre body post
             /\ JSON_parse body = Some vis
             /\ report = trim (pre ++ post)).
Proof.
  destruct (block_dichotomy text) as [Hno | (pre & body & post & Hfirst)].
  - exists JNull, text, w. rewrite (parse_no_block_eq _ w Hno).
    split; [reflexivity | split; [now left | now left]].
  - rewrite (parse_visualization_first_block _ _ _ _ w Hfirst).
    destruct (JsString.truthy body).
    + destruct (JSON_parse body) as [v|] eqn:Hv.
      * exists v, (trim (pre ++ post)), w.
        split; [reflexivity | split; [now left | right]].
        now exists pre, body, post.
      * exists JNull, text, (logged_parse_failure w).
        split; [reflexivity | split; [now right | now left]].
    + exists JNull, text, w.
      split; [reflexivity | split; [now left | now left]].
Qed.

(** X8. When the first block decodes, the report is shorter than the
    reply by at least the whole block, fences included, and it neither
    begins nor ends with white space. *)
Theorem stripped_report_is_trimmed
  (text pre body post : jsstring) (v : json) (w : World) :
  first_block text pre body post ->
  JSON_parse body = Some v ->
  exists report,
    parse_visualization text w = (Returned (v, report), w)
    /\ length report + length body + 12 <= length text
    /\ trimStart report = report
    /\ trimEnd report = report
    /\ trim report = report.
Proof.
  intros Hfirst Hv.
  rewrite (parse_visualization_first_block _ _ _ _ w Hfirst).
  rewrite (JSON_parse_nonempty _ _ Hv), Hv.
  exists (trim (pre ++ post)). split; [reflexivity|].
  destruct (trim_spec (pre ++ post)) as (a & b & _ & _ & _ & Hs & He).
  split; [|split; [exact Hs | split; [exact He|]]].
  - pose proof (trim_length (pre ++ post)) as Hlen.
    destruct Hfirst as (-> & _). rewrite !length_app in *.
    change (length fence_open) with 8. change (length fence_close) with 4.
    lia.
  - unfold trim at 1. now rewrite Hs, He.
Qed.

Lemma stripped_report_is_trimmed_witness :
  exists report,
    parse_visualization sample_text empty_world
    = (Returned (sample_json, report), empty_world)
    /\ trim report = report.
Proof.
  destruct (stripped_report_is_trimmed sample_text sample_pre sample_body []
              sample_json empty_world)
    as (report & E & _ & _ & _ & Ht).
  - apply first_block_by_indexOf; vm_compute; reflexivity.
  - vm_compute. reflexivity.
  - now exists report.
Defined.

(** X9. The expression finds the leftmost opening fence that a closing
    fence follows, and captures up to the first such closing fence: it
    matches exactly when the text has a first block, at that block, and
    fails exactly when the text has no block. *)
Theorem match_is_leftmost_and_shortest (text : jsstring) :
  (forall m,
     match_json_fence text = Some m <->
     exists pre post,
       first_block text pre (group1 m) post
       /\ index m = length pre
       /\ whole m = fence_open ++ group1 m ++ fence_close)
  /\ (match_json_fence text = None <-> ~ has_block text).
Proof.
  split; [|apply match_None_iff].
  intros m. split.
  - intros E. destruct (match_Some_first_block text m E) as (pre & post & H).
    exists pre, post. split; [exact H|].
    rewrite (match_first_block _ _ _ _ H) in E. now injection E as <-.
  - intros (pre & post & H & Hi & Hw).
    rewrite (match_first_block _ _ _ _ H).
    destruct m as [i wh g]. cbn in *. now subst.
Qed.

(** X10. A body that [JSON.parse] accepts is never cut short: it holds
    no line break followed by a backquote, so after the leftmost opening
    fence the lazy group captures all of it, whatever follows the block. *)
Theorem decodable_body_is_captured
  (text pre body post : jsstring) (v : json) :
  text = pre ++ fence_open ++ body ++ fence_close ++ post ->
  first_occurrence fence_open text (length pre) ->
  JSON_parse body = Some v ->
  match_json_fence text
  = Some {| index := length pre;
            whole := fence_open ++ body ++ fence_close;
            group1 := body |}
  /\ forall a b, body <> a ++ fence_close ++ b.
Proof.
  intros E Hopen Hv. split.
  - apply (match_first_block text pre body post).
    split; [exact E | split; [exact Hopen|]].
    apply (valid_body_first_close body post v Hv).
  - intros a b ->. change fence_close with [10; 96; 96; 96]%N in Hv.
    cbn [app] in Hv.
    now rewrite JSON_parse_no_line_break_backquote in Hv.
Qed.

Lemma decodable_body_is_captured_witness :
  match_json_fence two_blocks_text
  = Some {| index := length sample_pre;
            whole := fence_open ++ sample_body ++ fence_close;
            group1 := sample_body |}.
Proof.
  apply (decodable_body_is_captured two_blocks_text sample_pre sample_body
           (utf16 "
More.
" ++ second_block) sample_json).
  - vm_compute. reflexivity.
  - apply indexOf_Some. vm_compute. reflexivity.
  - vm_compute. reflexivity.
Defined.

Lemma split_without_separator (sep : N) (s : jsstring) :
  ~ In sep s -> split sep s = [s].
Proof.
  induction s as [|c s IH]; intros H; [reflexivity|].
  cbn [split]. destruct (c =? sep)%N eqn:E.
  - apply N.eqb_eq in E. exfalso. apply H. now left.
  - rewrite IH; [reflexivity|]. intros Hin. apply H. now right.
Qed.

Lemma split_at_first_separator (sep : N) (a b : jsstring) :
  ~ In sep a -> split sep (a ++ sep :: b) = a :: split sep b.
Proof.
  induction a as [|c a IH]; intros H.
  - cbn [app split]. now rewrite N.eqb_refl.
  - cbn [app split]. destruct (c =? sep)%N eqn:E.
    + apply N.eqb_eq in E. exfalso. apply H. now left.
    + rewrite IH; [reflexivity|]. intros Hin. apply H. now right.
Qed.

(** X11. [fileToPart] on a file that was read: the part carries the
    file's own media type; its data is what follows the comma of the data
    URL when the payload holds no further comma, and it is undefined when
    the URL holds no comma at all. *)
Theorem fileToPart_takes_payload (f : File) (url : jsstring) :
  dataURL f = Some url ->
  exists d,
    fileToPart f = Returned (InlinePart {| data := d; mimeType := file_type f |})
    /\ (forall header payload,
          url = header ++ 44%N :: payload ->
          ~ In 44%N header -> ~ In 44%N payload -> d = Some payload)
    /\ (~ In 44%N url -> d = None).
Proof.
  intros Hurl. unfold fileToPart. rewrite Hurl.
  eexists. split; [reflexivity | split].
  - intros header payload -> Hh Hp.
    rewrite (split_at_first_separator 44 header payload Hh).
    now rewrite (split_without_separator 44 payload Hp).
  - intros Hno. now rewrite (split_without_separator 44 url Hno).
Qed.

Lemma fileToPart_takes_payload_witness :
  fileToPart png_file
  = Returned (InlinePart {| data := Some (utf16 "iVBORw0KGgo=");
                            mimeType := utf16 "image/png" |}).
Proof.
  destruct (fileToPart_takes_payload png_file
              (utf16 "data:image/png;base64,iVBORw0KGgo=") eq_refl)
    as (d & E & Hd & _).
  rewrite E.
  rewrite (Hd (utf16 "data:image/png;base64") (utf16 "iVBORw0KGgo=")).
  - reflexivity.
  - reflexivity.
  - vm_compute. intuition discriminate.
  - vm_compute. intuition discriminate.
Defined.

End ParserMore.

(* ================================================================== *)
(** * More about [handleSend] and [runAnalysis] *)
(* ================================================================== *)

Section HandlersMore.

Import App.

(** X12. [handleSend] never throws.  A blank question, or one sent while
    a call is outstanding, changes nothing and asks nothing.  Otherwise
    the question is recorded, then one reply from the model: the text
    [sendChatMessage] returned, or the fixed apology when it threw, the
    error then being logged; the input is cleared, the busy flag is off
    again, and the rest of the page is as before. *)
Theorem handleSend_effects (env : Env) (t1 t2 t3 t4 : nat) (p : Page) :
  exists p',
    handleSend env t1 t2 t3 t4 p = (Returned tt, p')
    /\ if negb (JsString.truthy (trim (input (chat p)))) || loading (chat p)
       then p' = p
       else
         exists reply,
           messages (app p')
           = messages (app p)
             ++ [question_message t1 t2 (input (chat p));
                 reply_message t3 t4 reply]
           /\ with_messages (messages (app p)) (app p')
              = with_messages (messages (app p)) (app p)
           /\ chat p' = {| input := []; loading := false |}
           /\ match sendChatMessage env (input (chat p)) (world p) with
              | (Returned responseText, w') =>
                  reply = responseText /\ world p' = w'
              | (Thrown e, w') =>
                  reply = chat_error_text
                  /\ console (world p') = console w' ++ [LogError None e]
                  /\ chatInstance (world p') = chatInstance w'
                  /\ genAIInstance (world p') = genAIInstance w'
                  /\ alerts (world p') = alerts w'
              end.
Proof.
  rewrite handleSend_eq.
  destruct (negb _ || _); [now exists p|]. cbv zeta.
  destruct (sendChatMessage env (input (chat p)) (world p))
    as [[responseText|e] w'].
  - eexists. split; [reflexivity|]. exists responseText.
    cbn [app chat world messages with_messages].
    rewrite <- app_assoc. repeat split.
  - eexists. split; [reflexivity|]. exists chat_error_text.
    cbn [app chat world messages with_messages console chatInstance
         genAIInstance alerts].
    rewrite <- app_assoc. repeat split.
Qed.

(** X13. A run that completes adds exactly one message to the
    transcript, turns the busy flag off and keeps the images, their
    previews, the address and the chat box.  The e-mail simulation starts
    exactly when the address has a character that is not white space: the
    status becomes sending and the two-second timer is armed; otherwise the
    status is idle and no timer is armed. *)
Theorem completed_run_effects
  (env : Env) (t_id t_stamp : nat) (p : Page) (r : AnalysisResponse)
  (w' : World) :
  images (app p) <> [] ->
  analyzeMarketImages env (images (app p)) (world p) = (Returned r, w') ->
  exists p',
    runAnalysis env t_id t_stamp p = (Returned tt, p')
    /\ world p' = w'
    /\ chat p' = chat p
    /\ messages (app p') = messages (app p) ++ [analysis_message t_id t_stamp]
    /\ analyzing (app p') = false
    /\ images (app p') = images (app p)
    /\ imagePreviews (app p') = imagePreviews (app p)
    /\ email (app p') = email (app p)
    /\ match trim (email (app p)) with
       | [] => emailStatus (app p') = idle
               /\ timers (app p') = timers (app p)
       | _ :: _ => emailStatus (app p') = sending
                   /\ timers (app p') = timers (app p) ++ [(2000, MarkSent)]
       end.
Proof.
  intros Himages Hrun.
  rewrite runAnalysis_eq, (nonempty_length _ Himages), Hrun. cbv zeta.
  eexists. split; [reflexivity|].
  assert (Hblank : JsString.truthy (email (app p))
                   && negb (JsString.eqb (trim (email (app p))) [])
                   = match trim (email (app p)) with
                     | [] => false
                     | _ :: _ => true
                     end).
  { destruct (email (app p)) as [|c e] eqn:E; [reflexivity|].
    cbn [JsString.truthy andb]. unfold JsString.eqb.
    destruct (list_eq_dec N.eq_dec (trim (c :: e)) []) as [-> | Hne];
      [reflexivity|].
    now destruct (trim (c :: e)). }
  rewrite Hblank.
  destruct (truthy (Types.visualizationData r));
    destruct (trim (email (app p))); cbn; repeat split.
Qed.

Lemma completed_run_effects_witness :
  let after := snd (runAnalysis sample_env 1 2 analysed_page) in
  emailStatus (app after) = sending
  /\ timers (app after) = [(5000, MarkIdle); (2000, MarkSent)]
  /\ length (messages (app after)) = 2.
Proof.
  destruct (completed_run_effects sample_env 1 2 analysed_page
              sample_response
              (snd (analyzeMarketImages sample_env [png_file] empty_world)))
    as (p' & E & _ & _ & Hmsgs & _ & _ & _ & _ & Hmail).
  - discriminate.
  - vm_compute. reflexivity.
  - cbv zeta. rewrite E. cbn [snd].
    change (trim (email (app analysed_page))) with (utf16 "a@b.c") in Hmail.
    destruct Hmail as [-> ->]. rewrite Hmsgs. now repeat split.
Defined.

End HandlersMore.

(* ================================================================== *)
(** * The file intake, the clipboard and clearing *)
(* ================================================================== *)

Section IntakeMore.

Import App Browser.

Lemma handleFiles_eq (files : option (list File)) (s : Browser.State) :
  handleFiles files s =
  (Returned tt,
   match files with
   | None => s
   | Some fs =>
       match filter is_image fs with
       | [] => s
       | f :: rest => with_new_files (f :: rest) s
       end
   end).
Proof.
  destruct files as [fs|]; [|reflexivity]. unfold handleFiles.
  destruct (filter is_image fs) as [|f rest]; reflexivity.
Qed.

Lemma filter_is_image (fs : list File) :
  Forall (fun f => is_image f = true) (filter is_image fs).
Proof.
  apply Forall_forall. intros f Hf. now apply filter_In in Hf.
Qed.

Lemma filter_all_images (fs : list File) :
  Forall (fun f => is_image f = true) fs -> filter is_image fs = fs.
Proof.
  induction 1 as [|f fs Hf _ IH]; [reflexivity|].
  cbn [filter]. now rewrite Hf, IH.
Qed.

Lemma window_alert_eq (msg : jsstring) (s : Browser.State) :
  window_alert msg s = (Returned tt, with_alert msg s).
Proof. reflexivity. Qed.

Lemma blobs_of_images (reps : list Representation) (files : list File) :
  Forall (fun r => is_image_type r = true) reps ->
  blobs_of reps = inr files ->
  Forall (fun f => is_image f = true) files
  /\ length files = length reps.
Proof.
  intros Hreps. revert files.
  induction Hreps as [|r rest Hr _ IH]; intros files; cbn [blobs_of].
  - intros [= <-]. now split.
  - destruct (rep_blob r) as [e|blob]; [discriminate|].
    destruct (blobs_of rest) as [e|fs]; [discriminate|].
    intros [= <-]. destruct (IH fs eq_refl) as [Hfs Hlen].
    split; [constructor; [exact Hr | exact Hfs] | cbn; now rewrite Hlen].
Qed.

Lemma files_of_items_images (items : list ClipboardItem) (files : list File) :
  files_of_items items = inr files ->
  Forall (fun f => is_image f = true) files.
Proof.
  revert files; induction items as [|item rest IH]; intros files;
    cbn [files_of_items].
  - intros [= <-]. constructor.
  - destruct (blobs_of (filter is_image_type item)) as [e|fs] eqn:Hb;
      [discriminate|].
    destruct (files_of_items rest) as [e|more]; [discriminate|].
    intros [= <-]. apply Forall_app. split; [|now apply IH].
    apply (blobs_of_images (filter is_image_type item) fs); [|exact Hb].
    apply Forall_forall. intros r Hr. now apply filter_In in Hr.
Qed.

Lemma blobs_of_spec (reps : list Representation) :
  match blobs_of reps with
  | inr files => Forall2 blob_file reps files
  | inl err => exists r, In r reps /\ rep_blob r = inl err
  end.
Proof.
  induction reps as [|r rest IH]; cbn [blobs_of]; [constructor|].
  destruct (rep_blob r) as [e|blob] eqn:Hr.
  - exists r. split; [now left | exact Hr].
  - destruct (blobs_of rest) as [e|files].
    + destruct IH as (r' & Hin & Hr'). exists r'. split; [now right | exact Hr'].
    + constructor; [|exact IH]. now split.
Qed.

Lemma files_of_items_spec (items : list ClipboardItem) :
  match files_of_items items with
  | inr files => Forall2 blob_file (image_blobs items) files
  | inl err => exists r, In r (image_blobs items) /\ rep_blob r = inl err
  end.
Proof.
  unfold image_blobs.
  induction items as [|item rest IH]; cbn [files_of_items flat_map];
    [constructor|].
  pose proof (blobs_of_spec (filter is_image_type item)) as Hitem.
  destruct (blobs_of (filter is_image_type item)) as [e|files].
  - destruct Hitem as (r & Hin & Hr). exists r.
    split; [apply in_or_app; now left | exact Hr].
  - destruct (files_of_items rest) as [e|more].
    + destruct IH as (r & Hin & Hr). exists r.
      split; [apply in_or_app; now right | exact Hr].
    + now apply Forall2_app.
Qed.

(** X14. The paste button never throws.  Without the clipboard API it
    shows the unsupported notice; when reading the clipboard is rejected,
    or fetching the blob of one of its image types is, it warns on the
    console and shows the denied notice; otherwise it makes one file of
    every image-typed representation, item by item in order, and adds
    them to the images and to the readers, or, when there is none, shows
    the empty notice.  A notice comes alone: images and readers are left
    as they were. *)
Theorem handlePasteClick_adds_or_alerts
  (clipboard : Clipboard) (s : Browser.State) :
  exists s',
    handlePasteClick clipboard s = (Returned tt, s')
    /\ match clipboard with
       | NoClipboardApi => s' = with_alert clipboard_unsupported_notice s
       | ClipboardRead (inl err) =>
           s' = with_alert clipboard_denied_notice (with_warning err s)
       | ClipboardRead (inr items) =>
           (exists files,
              Forall2 blob_file (image_blobs items) files
              /\ s' = match files with
                      | [] => with_alert clipboard_empty_notice s
                      | _ :: _ => with_new_files files s
                      end)
           \/ (exists r err,
                 In r (image_blobs items) /\ rep_blob r = inl err
                 /\ s' = with_alert clipboard_denied_notice
                           (with_warning err s))
       end.
Proof.
  unfold handlePasteClick.
  destruct clipboard as [|[err|items]].
  - eexists. split; [apply window_alert_eq | reflexivity].
  - eexists. split; reflexivity.
  - pose proof (files_of_items_spec items) as Hspec.
    pose proof (files_of_items_images items) as Himg.
    destruct (files_of_items items) as [err|files].
    + destruct Hspec as (r & Hin & Hr).
      eexists. split; [reflexivity|]. right. now exists r, err.
    + destruct files as [|f fs].
      * eexists. split; [apply window_alert_eq|]. left. now exists [].
      * cbn [length Nat.ltb Nat.leb].
        rewrite handleFiles_eq, (filter_all_images _ (Himg _ eq_refl)).
        eexists. split; [reflexivity|]. left. now exists (f :: fs).
Qed.

(** X15. The paste event: [preventDefault] is called exactly when the
    clipboard carries at least one image file; then those image files,
    and only they, are added in their order.  Any other paste (text, or
    files that are not images) leaves the page as it is and the browser's
    own handling in place. *)
Theorem handleGlobalPaste_prevents_for_images_only
  (clipboardData : option (list File)) (s : Browser.State) :
  exists prevented s',
    handleGlobalPaste clipboardData s = (Returned prevented, s')
    /\ match clipboardData with
       | None => prevented = false /\ s' = s
       | Some files =>
           match filter is_image files with
           | [] => prevented = false /\ s' = s
           | f :: rest =>
               prevented = true /\ s' = with_new_files (f :: rest) s
           end
       end.
Proof.
  unfold handleGlobalPaste. destruct clipboardData as [files|];
    [|now exists false, s].
  destruct files as [|g files]; [now exists false, s|].
  cbn [length Nat.ltb Nat.leb].
  destruct (filter is_image (g :: files)) as [|f rest] eqn:E;
    [now exists false, s|].
  cbn [length Nat.ltb Nat.leb]. unfold bind at 1.
  rewrite handleFiles_eq.
  rewrite (filter_all_images (f :: rest))
    by (rewrite <- E; apply filter_is_image).
  now exists true, (with_new_files (f :: rest) s).
Qed.

Lemma with_alert_only_images (msg : jsstring) (s : Browser.State) :
  (only_images s -> only_images (with_alert msg s))
  /\ (at_rest s -> at_rest (with_alert msg s)).
Proof. now split. Qed.

Lemma with_new_files_step (fs : list File) (s : Browser.State) :
  Forall (fun f => is_image f = true) fs ->
  (only_images s -> only_images (with_new_files fs s))
  /\ (at_rest s -> at_rest (with_new_files fs s)).
Proof.
  intros Hfs. split; [|now intros H].
  intros [Hi Hr]. split; cbn; apply Forall_app; now split.
Qed.

Lemma handleGlobalPaste_step
  (clipboardData : option (list File)) (s : Browser.State) :
  exists prevented s',
    handleGlobalPaste clipboardData s = (Returned prevented, s')
    /\ (only_images s -> only_images s')
    /\ (at_rest s -> at_rest s').
Proof.
  unfold handleGlobalPaste. destruct clipboardData as [files|];
    [|now exists false, s].
  destruct (0 <? length files); [|now exists false, s].
  pose proof (filter_is_image files) as Himg.
  destruct (0 <? length (filter is_image files)); [|now exists false, s].
  unfold bind at 1. rewrite handleFiles_eq.
  rewrite (filter_all_images _ Himg).
  destruct (filter is_image files) as [|f rest]; [now exists true, s|].
  exists true, (with_new_files (f :: rest) s).
  split; [reflexivity | now apply with_new_files_step].
Qed.

Lemma handlePasteClick_step (clipboard : Clipboard) (s : Browser.State) :
  exists s',
    handlePasteClick clipboard s = (Returned tt, s')
    /\ (only_images s -> only_images s')
    /\ (at_rest s -> at_rest s').
Proof.
  unfold handlePasteClick.
  destruct clipboard as [|[err|items]].
  - eexists. split; [apply window_alert_eq | apply with_alert_only_images].
  - eexists. split; [reflexivity | now split].
  - pose proof (files_of_items_images items) as Himg.
    destruct (files_of_items items) as [err|files].
    + eexists. split; [reflexivity | now split].
    + destruct files as [|f fs].
      * eexists. split; [apply window_alert_eq | apply with_alert_only_images].
      * cbn [length Nat.ltb Nat.leb].
        rewrite handleFiles_eq, (filter_all_images _ (Himg _ eq_refl)).
        eexists. split; [reflexivity|].
        apply with_new_files_step. now apply Himg.
Qed.

Lemma handleGlobalPaste_prevents
  (clipboardData : option (list File)) (s : Browser.State) :
  exists prevented,
    handleGlobalPaste clipboardData s =
    (Returned prevented,
     match clipboardData with
     | None => s
     | Some files =>
         match filter is_image files with
         | [] => s
         | f :: rest => with_new_files (f :: rest) s
         end
     end).
Proof.
  unfold handleGlobalPaste. destruct clipboardData as [files|];
    [|now exists false].
  destruct files as [|g files]; [now exists false|].
  cbn [length Nat.ltb Nat.leb].
  destruct (filter is_image (g :: files)) as [|f rest] eqn:E;
    [now exists false|].
  cbn [length Nat.ltb Nat.leb]. unfold bind at 1.
  rewrite handleFiles_eq.
  rewrite (filter_all_images (f :: rest))
    by (rewrite <- E; apply filter_is_image).
  now exists true.
Qed.

Lemma handlePasteClick_downloads (clipboard : Clipboard) (s : Browser.State) :
  exists s',
    handlePasteClick clipboard s = (Returned tt, s')
    /\ downloads s' = downloads s.
Proof.
  unfold handlePasteClick.
  destruct clipboard as [|[err|items]]; try (now eexists).
  pose proof (files_of_items_images items) as Himg.
  destruct (files_of_items items) as [err|[|f fs]]; try (now eexists).
  cbn [length Nat.ltb Nat.leb].
  rewrite handleFiles_eq, (filter_all_images _ (Himg _ eq_refl)).
  now eexists.
Qed.

End IntakeMore.

(* ================================================================== *)
(** * Clearing, and what holds after any sequence of events *)
(* ================================================================== *)

Section EventsMore.

Import App Browser.

Lemma on_page_eq (m : M Page unit) (s : Browser.State) :
  on_page m s =
  (fst (m (page s)),
   {| page := snd (m (page s)); reading := reading s;
      downloads := downloads s; warnings := warnings s |}).
Proof. unfold on_page, zoom. now destruct (m (page s)). Qed.

Lemma reader_done_eq (i : nat) (s : Browser.State) :
  reader_done i s =
  (Returned tt,
   match nth_error (reading s) i with
   | None => s
   | Some f =>
       {| page :=
            match dataURL f with
            | Some result =>
                {| app := with_imagePreviews
                            (imagePreviews (app (page s)) ++ [result])
                            (app (page s));
                   chat := chat (page s);
                   world := world (page s) |}
            | None => page s
            end;
          reading := remove_nth i (reading s);
          downloads := downloads s;
          warnings := warnings s |}
   end).
Proof.
  unfold reader_done, bind at 1, get.
  destruct (nth_error (reading s) i) as [f|]; [|reflexivity].
  destruct (dataURL f); reflexivity.
Qed.

(** The page [clearImages] leaves. *)
Lemma clearImages_eq (s : Browser.State) :
  clearImages s =
  (Returned tt,
   {| page :=
        {| app :=
             {| images := []; imagePreviews := [];
                analyzing := analyzing (app (page s));
                analysisResult := None;
                visualizationData := INITIAL_VISUALIZATION_DATA;
                messages := [];
                dragActive := dragActive (app (page s));
                email := email (app (page s));
                emailStatus := idle;
                timers := timers (app (page s)) |};
           chat := chat (page s);
           world := world (page s) |};
      reading := reading s;
      downloads := downloads s;
      warnings := warnings s |}).
Proof. reflexivity. Qed.

(** X16. Clearing the page does not end the chat session: the
    transcript starts again from nothing, but a question sent after
    [clearImages] still goes to the session that was there before, the one
    of the analysis that was cleared; no new session is created and the
    credential is not consulted. *)
Theorem chat_survives_clear
  (s : Browser.State) (chat0 : Chat) (env : Env) (t1 t2 t3 t4 : nat) :
  chatInstance (world (page s)) = Some chat0 ->
  JsString.truthy (trim (input (chat (page s)))) = true ->
  loading (chat (page s)) = false ->
  exists s' reply,
    run_events [ClearClicked; SendClicked env t1 t2 t3 t4] s
    = (Returned tt, s')
    /\ chatInstance (world (page s'))
       = Some (snd (sendMessage env chat0 (input (chat (page s)))))
    /\ messages (app (page s'))
       = [question_message t1 t2 (input (chat (page s)));
          reply_message t3 t4 reply]
    /\ images (app (page s')) = []
    /\ analysisResult (app (page s')) = None
    /\ App.visualizationData (app (page s')) = INITIAL_VISUALIZATION_DATA
    /\ reading s' = reading s.
Proof.
  intros Hchat Hinput Hload. cbn [run_events dispatch].
  rewrite clearImages_eq, on_page_eq, handleSend_eq.
  cbn [page chat world app]. rewrite Hinput, Hload. cbn [negb orb].
  cbv zeta. rewrite sendChatMessage_eq, Hchat. cbv beta zeta.
  destruct (sendMessage env chat0 (input (chat (page s))))
    as [[detail|response] chat'].
  - eexists _, chat_error_text. split; [reflexivity|]. now repeat split.
  - eexists _, _. split; [reflexivity|]. now repeat split.
Qed.

Lemma chat_survives_clear_witness :
  let before :=
    {| page := {| app := app analysed_page;
                  chat := {| input := utf16 "Why?"; loading := false |};
                  world := set_chatInstance (Some bare_chat) empty_world |};
       reading := []; downloads := []; warnings := [] |} in
  exists s' reply,
    run_events [ClearClicked; SendClicked silent_env 1 2 3 4] before
    = (Returned tt, s')
    /\ chatInstance (world (page s')) = Some bare_chat
    /\ messages (app (page s'))
       = [question_message 1 2 (utf16 "Why?"); reply_message 3 4 reply].
Proof.
  cbv zeta.
  destruct (chat_survives_clear
              {| page := {| app := app analysed_page;
                            chat := {| input := utf16 "Why?";
                                       loading := false |};
                            world := set_chatInstance (Some bare_chat)
                                       empty_world |};
                 reading := []; downloads := []; warnings := [] |}
              bare_chat silent_env 1 2 3 4 eq_refl eq_refl eq_refl)
    as (s' & reply & E & Hchat & Hmsgs & _).
  exists s', reply. split; [exact E | split; [exact Hchat | exact Hmsgs]].
Defined.

(** X17. A file reader that finishes after the page was cleared still
    adds its preview: the page then shows a preview, and the analyze
    button with it, while it holds no image, so that [runAnalysis] does
    nothing. *)
Theorem preview_arrives_after_clear
  (s : Browser.State) (i : nat) (f : File) (url : jsstring)
  (env : Env) (t_id t_stamp : nat) :
  nth_error (reading s) i = Some f ->
  dataURL f = Some url ->
  exists s',
    run_events [ClearClicked; ReaderDone i] s = (Returned tt, s')
    /\ images (app (page s')) = []
    /\ imagePreviews (app (page s')) = [url]
    /\ run_events [AnalyzeClicked env t_id t_stamp] s' = (Returned tt, s').
Proof.
  intros Hf Hurl. cbn [run_events dispatch].
  rewrite clearImages_eq, reader_done_eq. cbn [reading page app].
  rewrite Hf, Hurl. eexists. split; [reflexivity|].
  split; [reflexivity | split; [reflexivity|]].
  rewrite on_page_eq, runAnalysis_eq. reflexivity.
Qed.

Lemma preview_arrives_after_clear_witness :
  let loading_one := with_new_files [png_file] initial in
  exists s',
    run_events [ClearClicked; ReaderDone 0] loading_one = (Returned tt, s')
    /\ images (app (page s')) = []
    /\ imagePreviews (app (page s'))
       = [utf16 "data:image/png;base64,iVBORw0KGgo="].
Proof.
  cbv zeta.
  destruct (preview_arrives_after_clear
              (with_new_files [png_file] initial)
              0 png_file (utf16 "data:image/png;base64,iVBORw0KGgo=")
              silent_env 1 2 eq_refl eq_refl)
    as (s' & E & Himages & Hprev & _).
  exists s'. split; [exact E | split; [exact Himages | exact Hprev]].
Defined.

Lemma runAnalysis_frame (env : Env) (t_id t_stamp : nat) (p : Page) :
  exists p',
    runAnalysis env t_id t_stamp p = (Returned tt, p')
    /\ images (app p') = images (app p)
    /\ chat p' = chat p
    /\ (analyzing (app p) = false -> analyzing (app p') = false).
Proof.
  rewrite runAnalysis_eq. destruct (_ =? 0); [now exists p|].
  destruct (analyzeMarketImages _ _ _) as [[result|e] w'].
  - cbv zeta. eexists. split; [reflexivity|].
    destruct (truthy (Types.visualizationData result));
      destruct (JsString.truthy (email (app p)) && _); now repeat split.
  - eexists. split; [reflexivity|]. now repeat split.
Qed.

Lemma handleSend_frame (env : Env) (t1 t2 t3 t4 : nat) (p : Page) :
  exists p',
    handleSend env t1 t2 t3 t4 p = (Returned tt, p')
    /\ images (app p') = images (app p)
    /\ analyzing (app p') = analyzing (app p)
    /\ (loading (chat p) = false -> loading (chat p') = false).
Proof.
  rewrite handleSend_eq. destruct (negb _ || _); [now exists p|].
  cbv zeta. destruct (sendChatMessage _ _ _) as [[responseText|e] w'];
    eexists; (split; [reflexivity | now repeat split]).
Qed.

Lemma remove_nth_Forall {A} (P : A -> Prop) (i : nat) (l : list A) :
  Forall P l -> Forall P (remove_nth i l).
Proof.
  intros H. revert i. induction H as [|x l Hx Hl IH]; intros [|i]; cbn;
    try constructor; auto.
Qed.

Lemma with_new_files_only_images (fs : list File) (s : Browser.State) :
  Forall (fun f => is_image f = true) fs ->
  only_images s -> only_images (with_new_files fs s).
Proof.
  intros Hfs [Hi Hr]. split; cbn; apply Forall_app; now split.
Qed.

Lemma handleFiles_step (files : option (list File)) (s : Browser.State) :
  exists s',
    handleFiles files s = (Returned tt, s')
    /\ (only_images s -> only_images s')
    /\ (at_rest s -> at_rest s').
Proof.
  rewrite handleFiles_eq. eexists. split; [reflexivity|].
  destruct files as [fs|]; [|now split].
  pose proof (filter_is_image fs) as Himg.
  destruct (filter is_image fs) as [|f rest]; [now split|].
  split; [now apply with_new_files_only_images | now intros H].
Qed.

(** One event: its handler returns, and keeps the two invariants. *)
Lemma dispatch_step (e : Event) (s : Browser.State) :
  exists s',
    dispatch e s = (Returned tt, s')
    /\ (only_images s -> only_images s')
    /\ (at_rest s -> at_rest s').
Proof.
  destruct e; cbn [dispatch].
  - apply handleFiles_step.
  - unfold handleDrop, bind, setDragActive. rewrite on_page_eq.
    cbn [fst snd].
    destruct (handleFiles_step files
                {| page := snd (on_app (with_dragActive false) (page s));
                   reading := reading s; downloads := downloads s;
                   warnings := warnings s |}) as (s' & E & Hi & Hr).
    exists s'. split; [exact E|]. split; intros H; [apply Hi | apply Hr];
      exact H.
  - eexists. split; [reflexivity | now split].
  - eexists. split; [reflexivity | now split].
  - destruct (handleGlobalPaste_step clipboardData s) as (b & s' & E & Hi & Hr).
    exists s'. unfold bind. rewrite E. now split.
  - destruct (handlePasteClick_step clipboard s) as (s' & E & Hi & Hr).
    now exists s'.
  - rewrite reader_done_eq. eexists. split; [reflexivity|].
    destruct (nth_error (reading s) i) as [f|]; [|now split].
    split.
    + intros [Hi Hr]. split.
      * now destruct (dataURL f).
      * now apply remove_nth_Forall.
    + intros [Ha Hl]. now destruct (dataURL f).
  - rewrite clearImages_eq. eexists. split; [reflexivity|]. split.
    + intros [_ Hr]. split; [constructor | exact Hr].
    + now intros H.
  - eexists. split; [reflexivity | now split].
  - eexists. split; [reflexivity | now split].
  - rewrite on_page_eq.
    destruct (runAnalysis_frame env t_id t_stamp (page s))
      as (p' & -> & Himg & Hchat & Hbusy).
    eexists. split; [reflexivity|]. cbn [fst snd]. split.
    + intros [Hi Hr]. split; cbn; [now rewrite Himg | exact Hr].
    + intros [Ha Hl]. split; cbn; [now apply Hbusy | now rewrite Hchat].
  - rewrite on_page_eq.
    destruct (handleSend_frame env t1 t2 t3 t4 (page s))
      as (p' & -> & Himg & Hbusy & Hload).
    eexists. split; [reflexivity|]. cbn [fst snd]. split.
    + intros [Hi Hr]. split; cbn; [now rewrite Himg | exact Hr].
    + intros [Ha Hl]. split; cbn; [now rewrite Hbusy | now apply Hload].
  - unfold handleKeyDown, bind.
    destruct (JsString.eqb key (utf16 "Enter") && (metaKey || ctrlKey));
      [|eexists; split; [reflexivity | now split]].
    destruct ts as [[[t1 t2] t3] t4]. rewrite on_page_eq.
    destruct (handleSend_frame env t1 t2 t3 t4 (page s))
      as (p' & -> & Himg & Hbusy & Hload).
    eexists. split; [reflexivity|]. cbn [fst snd]. split.
    + intros [Hi Hr]. split; cbn; [now rewrite Himg | exact Hr].
    + intros [Ha Hl]. split; cbn; [now rewrite Hbusy | now apply Hload].
  - rewrite on_page_eq. destruct a; eexists; (split; [reflexivity | now split]).
  - unfold handleDownloadReport, bind, get.
    destruct (report_on_display (app (page s)));
      eexists; (split; [reflexivity | now split]).
  - unfold handleDownloadChat, bind, get.
    destruct (length (messages (app (page s))) =? 0);
      eexists; (split; [reflexivity | now split]).
Qed.

Lemma run_events_steps (es : list Event) (s : Browser.State) :
  exists s',
    run_events es s = (Returned tt, s')
    /\ (only_images s -> only_images s')
    /\ (at_rest s -> at_rest s').
Proof.
  revert s; induction es as [|e es IH]; intros s; [now exists s|].
  cbn [run_events].
  destruct (dispatch_step e s) as (s1 & -> & Hi1 & Hr1).
  destruct (IH s1) as (s' & E & Hi & Hr).
  exists s'. split; [exact E|]. split; auto.
Qed.

Lemma image_files_image_parts (files : list File) (ps : list Part) :
  Forall (fun f => is_image f = true) files ->
  Promise_all (map fileToPart files) = Returned ps ->
  Forall image_part ps.
Proof.
  intros H. revert ps. induction H as [|f files Hf _ IH]; intros ps.
  - intros [= <-]. constructor.
  - cbn [map Promise_all]. unfold fileToPart at 1.
    destruct (dataURL f) as [url|]; [|discriminate].
    destruct (Promise_all (map fileToPart files)) as [l|]; [|discriminate].
    intros [= <-]. constructor; [|now apply IH].
    eexists _, _. split; [reflexivity | exact Hf].
Qed.

(** X19. Only image files get in: after any sequence of events from the
    initial page, every file held, or still being read, declares a type
    that starts with [image/]; so every request the analysis builds from
    the page carries inline parts tagged with image types only. *)
Theorem requests_carry_images_only
  (es : list Event) (s : Browser.State) (ps : list Part) :
  run_events es initial = (Returned tt, s) ->
  only_images s
  /\ (Promise_all (map fileToPart (images (app (page s)))) = Returned ps ->
      Forall image_part ps).
Proof.
  intros E. destruct (run_events_steps es initial) as (s' & E' & Hi & _).
  rewrite E in E'. injection E' as <-.
  assert (Hs : only_images s) by (apply Hi; split; constructor).
  split; [exact Hs|]. apply image_files_image_parts. apply Hs.
Qed.

Lemma requests_carry_images_only_witness :
  exists s,
    run_events [FilesDropped (Some [text_file; png_file]);
                Pasted (Some [text_file]);
                FilesChosen (Some [jpeg_file; text_file])] initial
    = (Returned tt, s)
    /\ images (app (page s)) = [png_file; jpeg_file]
    /\ only_images s.
Proof.
  eexists. split; [vm_compute; reflexivity|]. split; [reflexivity|].
  apply (requests_carry_images_only
           [FilesDropped (Some [text_file; png_file]);
            Pasted (Some [text_file]);
            FilesChosen (Some [jpeg_file; text_file])] _ []).
  vm_compute. reflexivity.
Defined.

End EventsMore.

(* ================================================================== *)
(** * Calls in flight *)
(* ================================================================== *)

Section CallsInFlight.

Import App Browser Pending.

(** The two halves put together are the handlers and the service
    functions as they are written. *)
Lemma analyzeMarketImages_in_two (env : Env) (files : list File) (w : World) :
  analyzeMarketImages env files w
  = (ai <- getAI env ;; analysis_of env ai files) w.
Proof. reflexivity. Qed.

Lemma sendChatMessage_in_two (env : Env) (message : jsstring) (w : World) :
  sendChatMessage env message w
  = (session <- session_of env ;; reply_of env session true message) w.
Proof.
  unfold sendChatMessage, session_of, reply_of, chat_sendMessage, bind, get,
    when, ret, modify, throw.
  destruct (chatInstance w) as [session|]; cbv beta iota.
  - destruct (sendMessage env session message) as [[detail|response] chat'];
      reflexivity.
  - destruct (getAI env w) as [[ai|e] w1]; [|reflexivity].
    cbv beta iota.
    destruct (sendMessage env bare_chat message) as [[detail|response] chat'];
      reflexivity.
Qed.

Lemma runAnalysis_in_two (env : Env) (t_id t_stamp : nat) (p : Page) :
  runAnalysis env t_id t_stamp p
  = (if length (images (app p)) =? 0 then ret tt
     else
       setAnalyzing true ;;;
       setAnalysisResult None ;;;
       setEmailStatus idle ;;;
       runAnalysis_resumed (email (app p)) t_id t_stamp
         (analyzeMarketImages env (images (app p)))) p.
Proof. reflexivity. Qed.

Lemma handleSend_in_two (env : Env) (t1 t2 t3 t4 : nat) (p : Page) :
  handleSend env t1 t2 t3 t4 p
  = (if negb (JsString.truthy (trim (input (chat p)))) || loading (chat p)
     then ret tt
     else
       setMessages (fun prev =>
         prev ++ [ {| id := decimal t1; role := user;
                      text := input (chat p); timestamp := t2 |} ]) ;;;
       setInput [] ;;;
       setLoading true ;;;
       handleSend_resumed t3 t4 (sendChatMessage env (input (chat p)))) p.
Proof. reflexivity. Qed.

Lemma in_page_eq {A} (m : M Page A) (s : Pending.State) :
  in_page m s =
  (fst (m (page (now s))),
   {| now := {| page := snd (m (page (now s)));
                reading := reading (now s);
                downloads := downloads (now s);
                warnings := warnings (now s) |};
      runs := runs s; asks := asks s |}).
Proof. unfold in_page, on_now, zoom. now destruct (m (page (now s))). Qed.

(** The second half of [runAnalysis] never throws; it turns the busy
    flag off and leaves the chat box alone. *)
Lemma runAnalysis_resumed_flags
  (email : jsstring) (t_id t_stamp : nat) (call : M World AnalysisResponse)
  (p : Page) :
  exists p',
    runAnalysis_resumed email t_id t_stamp call p = (Returned tt, p')
    /\ analyzing (app p') = false
    /\ chat p' = chat p.
Proof.
  unfold runAnalysis_resumed, finally, try_catch, bind, setAnalyzing,
    setAnalysisResult, setVisualizationData, setMessages, simulateEmailSend,
    setEmailStatus, setTimeout, when, on_app, modify, in_world, zoom,
    console_error, alert, ret.
  destruct (call (world p)) as [[result|e] w'].
  - cbn [app chat world].
    destruct (truthy (Types.visualizationData result));
      destruct (JsString.truthy email && negb (JsString.eqb (trim email) []));
      eexists; (split; [reflexivity | now split]).
  - eexists. split; [reflexivity | now split].
Qed.

(** The second half of [handleSend] never throws; it turns its busy flag
    off and leaves that of the analysis alone. *)
Lemma handleSend_resumed_flags (t3 t4 : nat) (call : M World jsstring)
  (p : Page) :
  exists p',
    handleSend_resumed t3 t4 call p = (Returned tt, p')
    /\ loading (chat p') = false
    /\ analyzing (app p') = analyzing (app p).
Proof.
  unfold handleSend_resumed, finally, try_catch, bind, setMessages,
    setLoading, on_app, on_chat, modify, in_world, zoom, console_error, ret.
  destruct (call (world p)) as [[responseText|e] w'];
    eexists; (split; [reflexivity | now split]).
Qed.

Lemma handlePasteClick_flags (clipboard : Clipboard) (b : Browser.State) :
  exists b',
    handlePasteClick clipboard b = (Returned tt, b')
    /\ analyzing (app (page b')) = analyzing (app (page b))
    /\ loading (chat (page b')) = loading (chat (page b)).
Proof.
  unfold handlePasteClick.
  destruct clipboard as [|[err|items]]; try (now eexists).
  pose proof (files_of_items_images items) as Himg.
  destruct (files_of_items items) as [err|[|f fs]]; try (now eexists).
  cbn [length Nat.ltb Nat.leb].
  rewrite handleFiles_eq, (filter_all_images _ (Himg _ eq_refl)).
  now eexists.
Qed.

(** The handlers that do not wait leave both busy flags as they are. *)
Lemma dispatch_keeps_flags (e : Event) (b : Browser.State) :
  match e with
  | AnalyzeClicked _ _ _ | SendClicked _ _ _ _ _ | KeyDown _ _ _ _ _ => True
  | _ =>
      exists b',
        dispatch e b = (Returned tt, b')
        /\ analyzing (app (page b')) = analyzing (app (page b))
        /\ loading (chat (page b')) = loading (chat (page b))
  end.
Proof.
  destruct e; cbn [dispatch]; try exact I.
  - rewrite handleFiles_eq. eexists. split; [reflexivity|].
    destruct files as [fs|]; [|now split].
    now destruct (filter is_image fs).
  - unfold handleDrop, bind, setDragActive. rewrite on_page_eq.
    cbn [fst snd on_app modify]. rewrite handleFiles_eq.
    eexists. split; [reflexivity|].
    destruct files as [fs|]; [|now split].
    now destruct (filter is_image fs).
  - now eexists.
  - now eexists.
  - destruct (handleGlobalPaste_prevents clipboardData b) as (prevented & E).
    unfold bind. rewrite E. eexists. split; [reflexivity|].
    destruct clipboardData as [files|]; [|now split].
    now destruct (filter is_image files).
  - apply handlePasteClick_flags.
  - rewrite reader_done_eq. eexists. split; [reflexivity|].
    destruct (nth_error (reading b) i) as [f|]; [|now split].
    now destruct (dataURL f).
  - rewrite clearImages_eq. now eexists.
  - now eexists.
  - now eexists.
  - rewrite on_page_eq. destruct a; now eexists.
  - unfold handleDownloadReport, bind, get.
    destruct (report_on_display (app (page b))); now eexists.
  - unfold handleDownloadChat, bind, get.
    destruct (length (messages (app (page b))) =? 0); now eexists.
Qed.

Lemma on_now_keeps_calls (m : M Browser.State unit) (s : Pending.State) :
  (exists b',
     m (now s) = (Returned tt, b')
     /\ analyzing (app (page b')) = analyzing (app (page (now s)))
     /\ loading (chat (page b')) = loading (chat (page (now s)))) ->
  one_call_at_most s ->
  exists s', on_now m s = (Returned tt, s') /\ one_call_at_most s'.
Proof.
  intros (b' & E & Ha & Hl) Hs. unfold on_now, zoom. rewrite E.
  eexists. split; [reflexivity|].
  unfold one_call_at_most. cbn [now runs asks]. now rewrite Ha, Hl.
Qed.

Lemma in_world_promise {A} (m : M World A) (p : Page) :
  in_world (promise m) p
  = (Returned (fst (m (world p))),
     {| app := app p; chat := chat p; world := snd (m (world p)) |}).
Proof. unfold in_world, promise, zoom. now destruct (m (world p)). Qed.

(** What the two handlers set before they wait. *)
Lemma runAnalysis_sets (p : Page) :
  (setAnalyzing true ;;; setAnalysisResult None ;;; setEmailStatus idle) p
  = (Returned tt,
     {| app := cleared (app p); chat := chat p; world := world p |}).
Proof. reflexivity. Qed.

Lemma runAnalysis_sets_then {A} (k : M Page A) (p : Page) :
  (setAnalyzing true ;;; setAnalysisResult None ;;; setEmailStatus idle ;;; k)
    p
  = k {| app := cleared (app p); chat := chat p; world := world p |}.
Proof. reflexivity. Qed.

Lemma handleSend_sets_then {A} (userMsg : ChatMessage) (k : M Page A)
  (p : Page) :
  (setMessages (fun prev => prev ++ [userMsg]) ;;;
   setInput [] ;;; setLoading true ;;; k) p
  = k {| app := with_messages (messages (app p) ++ [userMsg]) (app p);
         chat := {| input := []; loading := true |};
         world := world p |}.
Proof. reflexivity. Qed.

Lemma handleSend_sets (userMsg : ChatMessage) (p : Page) :
  (setMessages (fun prev => prev ++ [userMsg]) ;;;
   setInput [] ;;; setLoading true) p
  = (Returned tt,
     {| app := with_messages (messages (app p) ++ [userMsg]) (app p);
        chat := {| input := []; loading := true |};
        world := world p |}).
Proof. reflexivity. Qed.

(** [runAnalysis] up to its [await], called when no run is waiting. *)
Lemma runAnalysis_begin_keeps_calls
  (env : Env) (t_id t_stamp : nat) (s : Pending.State) :
  analyzing (app (page (now s))) = false ->
  one_call_at_most s ->
  exists s',
    runAnalysis_begin env t_id t_stamp s = (Returned tt, s')
    /\ one_call_at_most s'.
Proof.
  intros Hidle [[[Hruns _] | (r & _ & Hbusy)] Hasks]; [|congruence].
  unfold runAnalysis_begin, bind at 1, get.
  destruct (length (images (app (page (now s)))) =? 0).
  - exists s. split; [reflexivity|]. split; [now left | exact Hasks].
  - unfold bind at 1. rewrite in_page_eq, runAnalysis_sets. cbn [fst snd].
    unfold bind at 1. rewrite in_page_eq. cbn [fst snd now page].
    rewrite in_world_promise. cbn [fst snd world app chat].
    destruct (getAI env _) as [[ai|e] w1]; cbn [fst snd].
    + eexists. split; [reflexivity|].
      unfold one_call_at_most. cbn [now page runs asks app chat].
      split; [|exact Hasks].
      right. rewrite Hruns. eexists. split; reflexivity.
    + rewrite in_page_eq. cbn [now page].
      match goal with
      | |- context [runAnalysis_resumed ?em ?a ?b ?c ?p] =>
          destruct (runAnalysis_resumed_flags em a b c p)
            as (p' & -> & Hoff & Hchat)
      end.
      eexists. split; [reflexivity|]. cbn [fst snd].
      split; [left; now split|].
      unfold one_call_at_most in *. cbn [now page asks] in *.
      now rewrite Hchat.
Qed.

Lemma analysis_settled_keeps_calls (k : nat) (s : Pending.State) :
  one_call_at_most s ->
  exists s',
    analysis_settled k s = (Returned tt, s') /\ one_call_at_most s'.
Proof.
  intros Hs. unfold analysis_settled, bind at 1, get.
  destruct (nth_error (runs s) k) as [r|] eqn:Hk; [|now exists s].
  cbv zeta. unfold bind at 1, modify at 1. rewrite in_page_eq.
  cbn [now page runs asks].
  match goal with
  | |- context [runAnalysis_resumed ?em ?a ?b ?c ?p] =>
      destruct (runAnalysis_resumed_flags em a b c p)
        as (p' & -> & Hoff & Hchat)
  end.
  eexists. split; [reflexivity|]. cbn [fst snd].
  destruct Hs as [[[Hruns _] | (r0 & Hruns & _)] Hasks].
  - rewrite Hruns in Hk. now destruct k.
  - split.
    + left. cbn [now page runs]. split; [|exact Hoff].
      rewrite Hruns in *. destruct k as [|[|k]]; [reflexivity | discriminate..].
    + cbn [now page asks]. rewrite Hchat.
      destruct Hasks as [[Hnone Hl] | (a & Hone & Hl)].
      * left. rewrite Hnone. split; [now destruct (fst _) | exact Hl].
      * right. rewrite Hone.
        destruct (fst _); [exists (left_behind a) | exists a]; now split.
Qed.

Lemma handleSend_begin_keeps_calls
  (env : Env) (t1 t2 t3 t4 : nat) (s : Pending.State) :
  one_call_at_most s ->
  exists s',
    handleSend_begin env t1 t2 t3 t4 s = (Returned tt, s')
    /\ one_call_at_most s'.
Proof.
  intros Hs. unfold handleSend_begin, bind at 1, get.
  destruct (negb (JsString.truthy (trim (input (chat (page (now s))))))
            || loading (chat (page (now s)))) eqn:Hguard; [now exists s|].
  apply orb_false_iff in Hguard. destruct Hguard as [_ Hidle].
  destruct Hs as [Hruns [[Hasks _] | (a & _ & Hbusy)]]; [|congruence].
  cbv zeta. unfold bind at 1. rewrite in_page_eq, handleSend_sets.
  cbn [fst snd].
  unfold bind at 1. rewrite in_page_eq. cbn [fst snd now page].
  rewrite in_world_promise. cbn [fst snd world app chat].
  destruct (session_of env _) as [[session|e] w1]; cbn [fst snd].
  - eexists. split; [reflexivity|].
    unfold one_call_at_most. cbn [now page runs asks app chat].
    split; [exact Hruns|].
    right. rewrite Hasks. eexists. split; reflexivity.
  - rewrite in_page_eq. cbn [now page].
    match goal with
    | |- context [handleSend_resumed ?a ?b ?c ?p] =>
        destruct (handleSend_resumed_flags a b c p)
          as (p' & -> & Hoff & Hsame)
    end.
    eexists. split; [reflexivity|]. cbn [fst snd].
    split; [|left; now split].
    cbn [now page runs]. rewrite Hsame. exact Hruns.
Qed.

Lemma reply_settled_keeps_calls (k : nat) (s : Pending.State) :
  one_call_at_most s ->
  exists s',
    reply_settled k s = (Returned tt, s') /\ one_call_at_most s'.
Proof.
  intros Hs. unfold reply_settled, bind at 1, get.
  destruct (nth_error (asks s) k) as [a|] eqn:Hk; [|now exists s].
  unfold bind at 1, modify at 1. rewrite in_page_eq.
  cbn [now page runs asks].
  match goal with
  | |- context [handleSend_resumed ?x ?y ?c ?p] =>
      destruct (handleSend_resumed_flags x y c p)
        as (p' & -> & Hoff & Hsame)
  end.
  eexists. split; [reflexivity|]. cbn [fst snd].
  destruct Hs as [Hruns [[Hasks _] | (a0 & Hasks & _)]].
  - rewrite Hasks in Hk. now destruct k.
  - split.
    + cbn [now page runs]. rewrite Hsame. exact Hruns.
    + left. cbn [now page asks]. split; [|exact Hoff].
      rewrite Hasks in *. destruct k as [|[|k]]; [reflexivity | discriminate..].
Qed.

(** The second halves take of the awaited call its outcome only. *)
Lemma runAnalysis_resumed_call
  (email : jsstring) (t_id t_stamp : nat)
  (call call' : M World AnalysisResponse) (p p' : Page) :
  call (world p) = call' (world p') ->
  app p = app p' -> chat p = chat p' ->
  runAnalysis_resumed email t_id t_stamp call p
  = runAnalysis_resumed email t_id t_stamp call' p'.
Proof.
  intros Hcall Happ Hchat.
  unfold runAnalysis_resumed, finally, try_catch, bind, in_world, zoom.
  now rewrite Hcall, Happ, Hchat.
Qed.

Lemma handleSend_resumed_call
  (t3 t4 : nat) (call call' : M World jsstring) (p p' : Page) :
  call (world p) = call' (world p') ->
  app p = app p' -> chat p = chat p' ->
  handleSend_resumed t3 t4 call p = handleSend_resumed t3 t4 call' p'.
Proof.
  intros Hcall Happ Hchat.
  unfold handleSend_resumed, finally, try_catch, bind, in_world, zoom.
  now rewrite Hcall, Happ, Hchat.
Qed.

(** The steps of [runAnalysis], written out. *)
Lemma runAnalysis_begin_eq
  (env : Env) (t_id t_stamp : nat) (s : Pending.State) :
  runAnalysis_begin env t_id t_stamp s =
  if length (images (app (page (now s)))) =? 0 then (Returned tt, s)
  else
    let set := {| app := cleared (app (page (now s)));
                  chat := chat (page (now s));
                  world := snd (getAI env (world (page (now s)))) |} in
    match fst (getAI env (world (page (now s)))) with
    | Returned ai =>
        (Returned tt,
         {| now := {| page := set; reading := reading (now s);
                      downloads := downloads (now s);
                      warnings := warnings (now s) |};
            runs := runs s
                    ++ [ {| run_env := env; run_ai := ai;
                            run_images := images (app (page (now s)));
                            run_email := email (app (page (now s)));
                            run_t_id := t_id; run_t_stamp := t_stamp |} ];
            asks := asks s |})
    | Thrown e =>
        let after := runAnalysis_resumed (email (app (page (now s))))
                       t_id t_stamp (throw e) set in
        (fst after,
         {| now := {| page := snd after; reading := reading (now s);
                      downloads := downloads (now s);
                      warnings := warnings (now s) |};
            runs := runs s; asks := asks s |})
    end.
Proof.
  unfold runAnalysis_begin, bind at 1, get.
  destruct (length (images (app (page (now s)))) =? 0); [reflexivity|].
  unfold bind at 1. rewrite in_page_eq, runAnalysis_sets. cbn [fst snd].
  unfold bind at 1. rewrite in_page_eq, in_world_promise.
  cbn [fst snd now page world app chat runs asks reading downloads warnings].
  destruct (fst (getAI env (world (page (now s))))) as [ai|e];
    [reflexivity|].
  now rewrite in_page_eq.
Qed.

Lemma analysis_settled_eq (k : nat) (s : Pending.State) :
  analysis_settled k s =
  match nth_error (runs s) k with
  | None => (Returned tt, s)
  | Some r =>
      let call := analysis_of (run_env r) (run_ai r) (run_images r) in
      let after := runAnalysis_resumed (run_email r) (run_t_id r)
                     (run_t_stamp r) call (page (now s)) in
      (fst after,
       {| now := {| page := snd after; reading := reading (now s);
                    downloads := downloads (now s);
                    warnings := warnings (now s) |};
          runs := remove_nth k (runs s);
          asks := match fst (call (world (page (now s)))) with
                  | Returned _ => map left_behind (asks s)
                  | Thrown _ => asks s
                  end |})
  end.
Proof.
  unfold analysis_settled, bind at 1, get.
  destruct (nth_error (runs s) k) as [r|]; [|reflexivity].
  cbv zeta. unfold bind at 1, modify at 1. rewrite in_page_eq.
  cbn [now page runs asks reading downloads warnings].
  now destruct (fst (analysis_of _ _ _ _)).
Qed.

(** When its call settles before anything else happens, the two halves
    of [runAnalysis] do what the handler does in one piece. *)
Lemma runAnalysis_uninterrupted
  (env : Env) (t_id t_stamp : nat) (b : Browser.State) :
  analyze_button (app (page b)) = true ->
  run [Handler (AnalyzeClicked env t_id t_stamp); AnalysisSettled 0]
    {| now := b; runs := []; asks := [] |}
  = (fst (dispatch (AnalyzeClicked env t_id t_stamp) b),
     {| now := snd (dispatch (AnalyzeClicked env t_id t_stamp) b);
        runs := []; asks := [] |}).
Proof.
  destruct b as [pg rd dl wn]. cbn [page]. intros Hbutton.
  cbn [run step dispatch]. unfold bind at 1, get.
  cbn [now page]. rewrite Hbutton, runAnalysis_begin_eq.
  rewrite on_page_eq, runAnalysis_in_two.
  cbn [now page reading downloads warnings runs asks fst snd].
  destruct (length (images (app pg)) =? 0); [reflexivity|].
  rewrite runAnalysis_sets_then. cbv zeta.
  assert (Hcall : forall ai w1,
            getAI env (world pg) = (Returned ai, w1) ->
            analysis_of env ai (images (app pg)) w1
            = analyzeMarketImages env (images (app pg)) (world pg)).
  { intros ai w1 Hai. rewrite analyzeMarketImages_in_two. unfold bind at 1.
    now rewrite Hai. }
  assert (Hthrow : forall e w1,
            getAI env (world pg) = (Thrown e, w1) ->
            @throw World AnalysisResponse e w1
            = analyzeMarketImages env (images (app pg)) (world pg)).
  { intros e w1 Hai. rewrite analyzeMarketImages_in_two. unfold bind at 1.
    now rewrite Hai. }
  destruct (getAI env (world pg)) as [[ai|e] w1]; cbn [fst snd].
  - rewrite analysis_settled_eq.
    cbn [runs asks now page reading downloads warnings nth_error remove_nth
         map run_env run_ai run_images run_email run_t_id run_t_stamp world
         Datatypes.app].
    cbv zeta.
    rewrite (runAnalysis_resumed_call (email (app pg)) t_id t_stamp
               (analysis_of env ai (images (app pg)))
               (analyzeMarketImages env (images (app pg)))
               {| app := cleared (app pg); chat := chat pg; world := w1 |}
               {| app := cleared (app pg); chat := chat pg;
                  world := world pg |}
               (Hcall ai w1 eq_refl) eq_refl eq_refl).
    destruct (runAnalysis_resumed_flags (email (app pg)) t_id t_stamp
                (analyzeMarketImages env (images (app pg)))
                {| app := cleared (app pg); chat := chat pg;
                   world := world pg |}) as (p' & -> & _).
    cbn [fst snd]. now destruct (fst _).
  - rewrite (runAnalysis_resumed_call (email (app pg)) t_id t_stamp
               (throw e)
               (analyzeMarketImages env (images (app pg)))
               {| app := cleared (app pg); chat := chat pg; world := w1 |}
               {| app := cleared (app pg); chat := chat pg;
                  world := world pg |}
               (Hthrow e w1 eq_refl) eq_refl eq_refl).
    destruct (runAnalysis_resumed_flags (email (app pg)) t_id t_stamp
                (analyzeMarketImages env (images (app pg)))
                {| app := cleared (app pg); chat := chat pg;
                   world := world pg |}) as (p' & -> & _).
    reflexivity.
Qed.

(** The steps of [handleSend], written out. *)
Lemma handleSend_begin_eq
  (env : Env) (t1 t2 t3 t4 : nat) (s : Pending.State) :
  handleSend_begin env t1 t2 t3 t4 s =
  if negb (JsString.truthy (trim (input (chat (page (now s))))))
     || loading (chat (page (now s)))
  then (Returned tt, s)
  else
    let userMsg := {| id := decimal t1; role := user;
                      text := input (chat (page (now s)));
                      timestamp := t2 |} in
    let set :=
      {| app := with_messages
                  (messages (app (page (now s))) ++ [userMsg])
                  (app (page (now s)));
         chat := {| input := []; loading := true |};
         world := snd (session_of env (world (page (now s)))) |} in
    match fst (session_of env (world (page (now s)))) with
    | Returned session =>
        (Returned tt,
         {| now := {| page := set; reading := reading (now s);
                      downloads := downloads (now s);
                      warnings := warnings (now s) |};
            runs := runs s;
            asks := asks s
                    ++ [ {| ask_env := env; ask_chat := session;
                            ask_current := true;
                            ask_message := input (chat (page (now s)));
                            ask_t3 := t3; ask_t4 := t4 |} ] |})
    | Thrown e =>
        let after := handleSend_resumed t3 t4 (throw e) set in
        (fst after,
         {| now := {| page := snd after; reading := reading (now s);
                      downloads := downloads (now s);
                      warnings := warnings (now s) |};
            runs := runs s; asks := asks s |})
    end.
Proof.
  unfold handleSend_begin, bind at 1, get.
  destruct (negb _ || _); [reflexivity|].
  cbv zeta. unfold bind at 1. rewrite in_page_eq, handleSend_sets.
  cbn [fst snd].
  unfold bind at 1. rewrite in_page_eq, in_world_promise.
  cbn [fst snd now page world app chat runs asks reading downloads warnings].
  destruct (fst (session_of env (world (page (now s))))) as [session|e];
    [reflexivity|].
  now rewrite in_page_eq.
Qed.

Lemma reply_settled_eq (k : nat) (s : Pending.State) :
  reply_settled k s =
  match nth_error (asks s) k with
  | None => (Returned tt, s)
  | Some a =>
      let after := handleSend_resumed (ask_t3 a) (ask_t4 a)
                     (reply_of (ask_env a) (ask_chat a) (ask_current a)
                        (ask_message a))
                     (page (now s)) in
      (fst after,
       {| now := {| page := snd after; reading := reading (now s);
                    downloads := downloads (now s);
                    warnings := warnings (now s) |};
          runs := runs s;
          asks := remove_nth k (asks s) |})
  end.
Proof.
  unfold reply_settled, bind at 1, get.
  destruct (nth_error (asks s) k) as [a|]; [|reflexivity].
  unfold bind at 1, modify at 1. now rewrite in_page_eq.
Qed.

(** When the reply comes before anything else happens, the two halves of
    [handleSend] do what the handler does in one piece. *)
Lemma handleSend_uninterrupted
  (env : Env) (t1 t2 t3 t4 : nat) (b : Browser.State) :
  run [Handler (SendClicked env t1 t2 t3 t4); ReplySettled 0]
    {| now := b; runs := []; asks := [] |}
  = (fst (dispatch (SendClicked env t1 t2 t3 t4) b),
     {| now := snd (dispatch (SendClicked env t1 t2 t3 t4) b);
        runs := []; asks := [] |}).
Proof.
  destruct b as [pg rd dl wn].
  cbn [run step dispatch]. rewrite handleSend_begin_eq.
  rewrite on_page_eq, handleSend_in_two.
  cbn [now page reading downloads warnings runs asks fst snd].
  destruct (negb _ || _); [reflexivity|].
  rewrite handleSend_sets_then. cbv zeta.
  assert (Hcall : forall session w1,
            session_of env (world pg) = (Returned session, w1) ->
            reply_of env session true (input (chat pg)) w1
            = sendChatMessage env (input (chat pg)) (world pg)).
  { intros session w1 Hs. rewrite sendChatMessage_in_two. unfold bind at 1.
    now rewrite Hs. }
  assert (Hthrow : forall e w1,
            session_of env (world pg) = (Thrown e, w1) ->
            @throw World jsstring e w1
            = sendChatMessage env (input (chat pg)) (world pg)).
  { intros e w1 Hs. rewrite sendChatMessage_in_two. unfold bind at 1.
    now rewrite Hs. }
  destruct (session_of env (world pg)) as [[session|e] w1]; cbn [fst snd].
  - rewrite reply_settled_eq.
    cbn [runs asks now page reading downloads warnings nth_error remove_nth
         ask_env ask_chat ask_current ask_message ask_t3 ask_t4 world
         Datatypes.app].
    cbv zeta.
    rewrite (handleSend_resumed_call t3 t4
               (reply_of env session true (input (chat pg)))
               (sendChatMessage env (input (chat pg)))
               {| app := with_messages
                           (messages (app pg)
                            ++ [ {| id := decimal t1; role := user;
                                    text := input (chat pg);
                                    timestamp := t2 |} ]) (app pg);
                  chat := {| input := []; loading := true |};
                  world := w1 |}
               {| app := with_messages
                           (messages (app pg)
                            ++ [ {| id := decimal t1; role := user;
                                    text := input (chat pg);
                                    timestamp := t2 |} ]) (app pg);
                  chat := {| input := []; loading := true |};
                  world := world pg |}
               (Hcall session w1 eq_refl) eq_refl eq_refl).
    match goal with
    | |- context [handleSend_resumed ?x ?y ?c ?p] =>
        destruct (handleSend_resumed_flags x y c p) as (p' & -> & _)
    end.
    reflexivity.
  - rewrite (handleSend_resumed_call t3 t4 (throw e)
               (sendChatMessage env (input (chat pg)))
               {| app := with_messages
                           (messages (app pg)
                            ++ [ {| id := decimal t1; role := user;
                                    text := input (chat pg);
                                    timestamp := t2 |} ]) (app pg);
                  chat := {| input := []; loading := true |};
                  world := w1 |}
               {| app := with_messages
                           (messages (app pg)
                            ++ [ {| id := decimal t1; role := user;
                                    text := input (chat pg);
                                    timestamp := t2 |} ]) (app pg);
                  chat := {| input := []; loading := true |};
                  world := world pg |}
               (Hthrow e w1 eq_refl) eq_refl eq_refl).
    match goal with
    | |- context [handleSend_resumed ?x ?y ?c ?p] =>
        destruct (handleSend_resumed_flags x y c p) as (p' & -> & _)
    end.
    reflexivity.
Qed.

(** One step: it returns, and calls still do not overlap. *)
Lemma step_keeps_calls (o : Step) (s : Pending.State) :
  one_call_at_most s ->
  exists s', step o s = (Returned tt, s') /\ one_call_at_most s'.
Proof.
  intros Hs. destruct o as [e | k | k]; cbn [step].
  - pose proof (dispatch_keeps_flags e (now s)) as He.
    destruct e; try (now apply on_now_keeps_calls).
    + unfold bind, get.
      destruct (analyze_button (app (page (now s)))) eqn:Hbutton;
        [|now exists s].
      apply runAnalysis_begin_keeps_calls; [|exact Hs].
      unfold analyze_button in Hbutton.
      now destruct (analyzing (app (page (now s)))).
    + now apply handleSend_begin_keeps_calls.
    + destruct (JsString.eqb key (utf16 "Enter") && (metaKey || ctrlKey));
        [|now exists s].
      destruct ts as [[[t1 t2] t3] t4].
      now apply handleSend_begin_keeps_calls.
  - now apply analysis_settled_keeps_calls.
  - now apply reply_settled_keeps_calls.
Qed.

(** X18. No handler lets an exception escape and calls do not overlap,
    also when handlers run while others wait.  Whatever the events and
    the order in which the calls settle, every handler and every resumed
    half returns; and at any moment at most one analysis and at most one
    chat message are waiting for the service, [analyzing] being on
    exactly while an analysis waits and [loading] exactly while a message
    does.  The two do not exclude each other: a message can be sent while
    an analysis is under way. *)
Theorem calls_never_overlap
  (steps : list Step) (s0 s : Pending.State) (o : outcome unit) :
  one_call_at_most s0 ->
  run steps s0 = (o, s) ->
  o = Returned tt /\ one_call_at_most s.
Proof.
  revert s0. induction steps as [|x steps IH]; intros s0 Hs0.
  - intros [= <- <-]. now split.
  - cbn [run]. destruct (step_keeps_calls x s0 Hs0) as (s1 & -> & Hs1).
    now apply IH.
Qed.

Lemma calls_never_overlap_witness :
  let s :=
    snd (run [Handler (FilesDropped (Some [png_file]));
              Handler (ReaderDone 0);
              Handler (AnalyzeClicked sample_env 1 2);
              Handler (InputTyped (utf16 "Why?"));
              Handler (SendClicked sample_env 3 4 5 6)] Pending.initial) in
  one_call_at_most s
  /\ length (runs s) = 1 /\ length (asks s) = 1
  /\ analyzing (app (page (now s))) = true
  /\ loading (chat (page (now s))) = true.
Proof.
  cbv zeta.
  destruct (calls_never_overlap
              [Handler (FilesDropped (Some [png_file]));
               Handler (ReaderDone 0);
               Handler (AnalyzeClicked sample_env 1 2);
               Handler (InputTyped (utf16 "Why?"));
               Handler (SendClicked sample_env 3 4 5 6)]
              Pending.initial _ _
              (conj (or_introl (conj eq_refl eq_refl))
                    (or_introl (conj eq_refl eq_refl)))
              (surjective_pairing _)) as [_ Hs].
  split; [exact Hs|].
  split; [vm_compute; reflexivity|].
  split; [vm_compute; reflexivity|].
  split; vm_compute; reflexivity.
Defined.

(** A message sent while the analysis is under way: whichever call
    settles first, both handlers finish, the flags are off, and the
    transcript holds the question, then the two notices in the order in
    which the calls settled. *)
Example question_during_analysis :
  let asked :=
    snd (run [Handler (FilesDropped (Some [png_file]));
              Handler (ReaderDone 0);
              Handler (AnalyzeClicked sample_env 1 2);
              Handler (InputTyped (utf16 "Why?"));
              Handler (SendClicked sample_env 3 4 5 6)] Pending.initial) in
  let analysis_first :=
    snd (run [AnalysisSettled 0; ReplySettled 0] asked) in
  let reply_first :=
    snd (run [ReplySettled 0; AnalysisSettled 0] asked) in
  messages (app (page (now analysis_first)))
  = [question_message 3 4 (utf16 "Why?"); analysis_message 1 2;
     reply_message 5 6 (utf16 "Yes.")]
  /\ messages (app (page (now reply_first)))
     = [question_message 3 4 (utf16 "Why?");
        reply_message 5 6 (utf16 "Yes."); analysis_message 1 2]
  /\ option_map history
       (chatInstance (world (page (now analysis_first))))
     = option_map history (chatInstance (world (page (now reply_first))))
  /\ analyzing (app (page (now analysis_first))) = false
  /\ loading (chat (page (now analysis_first))) = false.
Proof.
  cbv zeta.
  split; [vm_compute; reflexivity|].
  split; [vm_compute; reflexivity|].
  split; [vm_compute; reflexivity|].
  split; vm_compute; reflexivity.
Qed.

End CallsInFlight.


(* ================================================================== *)
(** * The exports *)
(* ================================================================== *)

Section ExportsMore.

Import App Browser.

Lemma join_app (sep : jsstring) (l1 l2 : list jsstring) :
  l1 <> [] -> l2 <> [] ->
  join sep (l1 ++ l2) = join sep l1 ++ sep ++ join sep l2.
Proof.
  intros H1 H2. induction l1 as [|x l1 IH]; [congruence|].
  destruct l1 as [|y l1].
  - destruct l2 as [|z l2]; [congruence | reflexivity].
  - change (join sep ((x :: y :: l1) ++ l2))
      with (x ++ sep ++ join sep ((y :: l1) ++ l2)).
    rewrite IH by discriminate.
    change (join sep (x :: y :: l1)) with (x ++ sep ++ join sep (y :: l1)).
    now rewrite <- !app_assoc.
Qed.

(** X20. The transcript export is built message by message: the export
    of a transcript followed by further messages is the export of the
    first, a blank line, and the export of the others.  So what was
    exported before an exchange is the beginning of what is exported
    after it. *)
Theorem transcript_grows_by_blocks
  (toLocaleTimeString : nat -> jsstring) (ms more : list ChatMessage) :
  ms <> [] -> more <> [] ->
  transcript toLocaleTimeString (ms ++ more)
  = transcript toLocaleTimeString ms ++ [10; 10]%N
    ++ transcript toLocaleTimeString more.
Proof.
  intros H1 H2. unfold transcript. rewrite map_app.
  apply join_app; now destruct ms, more.
Qed.

Lemma transcript_grows_by_blocks_witness :
  transcript (fun _ => utf16 "10:00")
    [question_message 1 2 (utf16 "Why?"); reply_message 3 4 no_reply]
  = utf16 "[10:00] 用户:
Why?
-------------------

[10:00] AI 助教:
我无法生成回复。
-------------------".
Proof.
  change [question_message 1 2 (utf16 "Why?"); reply_message 3 4 no_reply]
    with ([question_message 1 2 (utf16 "Why?")]
          ++ [reply_message 3 4 no_reply]).
  rewrite (transcript_grows_by_blocks (fun _ => utf16 "10:00")
             [question_message 1 2 (utf16 "Why?")]
             [reply_message 3 4 no_reply]) by discriminate.
  vm_compute. reflexivity.
Defined.

Lemma transcript_nonempty
  (toLocaleTimeString : nat -> jsstring) (ms : list ChatMessage) :
  ms <> [] -> transcript toLocaleTimeString ms <> [].
Proof.
  destruct ms as [|m ms]; [congruence|]. intros _.
  unfold transcript. cbn [map].
  destruct (map (transcript_block toLocaleTimeString) ms); discriminate.
Qed.

Lemma dispatch_downloads (e : Event) (s s' : Browser.State) :
  dispatch e s = (Returned tt, s') ->
  Forall (fun d => content d <> []) (downloads s) ->
  Forall (fun d => content d <> []) (downloads s').
Proof.
  destruct e; cbn [dispatch].
  - rewrite handleFiles_eq. intros [= <-].
    destruct files as [fs|]; [|trivial].
    now destruct (filter is_image fs).
  - unfold handleDrop, bind, setDragActive. rewrite on_page_eq.
    cbn [fst snd]. rewrite handleFiles_eq. intros [= <-].
    destruct files as [fs|]; [trivial|trivial].
    now destruct (filter is_image fs).
  - now intros [= <-].
  - now intros [= <-].
  - unfold bind.
    destruct (handleGlobalPaste_prevents clipboardData s) as (b & ->).
    intros [= <-]. destruct clipboardData as [fs|]; [|trivial].
    now destruct (filter is_image fs).
  - destruct (handlePasteClick_downloads clipboard s) as (s1 & -> & Hd).
    intros [= <-]. now rewrite Hd.
  - rewrite reader_done_eq. intros [= <-].
    now destruct (nth_error (reading s) i).
  - rewrite clearImages_eq. now intros [= <-].
  - now intros [= <-].
  - now intros [= <-].
  - rewrite on_page_eq.
    destruct (runAnalysis_frame env t_id t_stamp (page s)) as (p' & -> & _).
    now intros [= <-].
  - rewrite on_page_eq.
    destruct (handleSend_frame env t1 t2 t3 t4 (page s)) as (p' & -> & _).
    now intros [= <-].
  - unfold handleKeyDown, bind.
    destruct (JsString.eqb key (utf16 "Enter") && (metaKey || ctrlKey));
      [|now intros [= <-]].
    destruct ts as [[[t1 t2] t3] t4]. rewrite on_page_eq.
    destruct (handleSend_frame env t1 t2 t3 t4 (page s)) as (p' & -> & _).
    now intros [= <-].
  - rewrite on_page_eq. destruct a; now intros [= <-].
  - unfold handleDownloadReport, bind, get.
    unfold report_on_display.
    destruct (analysisResult (app (page s))) as [r|]; [|now intros [= <-]].
    destruct (markdownReport r) as [|c report] eqn:Hr; cbn [JsString.truthy];
      [now intros [= <-]|].
    intros [= <-] H. cbn [downloads]. apply Forall_app. split; [exact H|].
    now repeat constructor.
  - unfold handleDownloadChat, bind, get.
    destruct (messages (app (page s))) as [|m ms] eqn:Hm; cbn [length Nat.eqb];
      [now intros [= <-]|].
    intros [= <-] H. cbn [downloads]. apply Forall_app. split; [exact H|].
    constructor; [|constructor]. cbn [content].
    now apply transcript_nonempty.
Qed.

(** X21. No empty file is ever handed out: after any sequence of events
    from the initial page every download has some content.  The report
    button does nothing without a non-empty report, the transcript button
    nothing without a message. *)
Theorem downloads_are_never_empty (es : list Event) (s : Browser.State) :
  run_events es initial = (Returned tt, s) ->
  Forall (fun d => content d <> []) (downloads s).
Proof.
  assert (H : forall s0,
            Forall (fun d => content d <> []) (downloads s0) ->
            run_events es s0 = (Returned tt, s) ->
            Forall (fun d => content d <> []) (downloads s)).
  { induction es as [|e es IH]; intros s0 H0; cbn [run_events].
    - now intros [= <-].
    - destruct (dispatch_step e s0) as (s1 & E1 & _). rewrite E1.
      apply IH. now apply (dispatch_downloads e s0 s1). }
  apply H. constructor.
Qed.

Lemma downloads_are_never_empty_witness :
  let after :=
    snd (run_events
           [ReportDownloadClicked (utf16 "2025-01-02T03:04:05.000Z");
            FilesChosen (Some [png_file]);
            AnalyzeClicked sample_env 1 2;
            ReportDownloadClicked (utf16 "2025-01-02T03:04:05.000Z");
            ChatDownloadClicked (fun _ => utf16 "10:00")
              (utf16 "2025-01-02T03:04:05.000Z")] initial) in
  map filename (downloads after)
  = [utf16 "market_insight_report_2025-01-02.md";
     utf16 "market_insight_chat_2025-01-02.txt"]
  /\ Forall (fun d => content d <> []) (downloads after).
Proof.
  cbv zeta. split; [vm_compute; reflexivity|].
  apply (downloads_are_never_empty
           [ReportDownloadClicked (utf16 "2025-01-02T03:04:05.000Z");
            FilesChosen (Some [png_file]);
            AnalyzeClicked sample_env 1 2;
            ReportDownloadClicked (utf16 "2025-01-02T03:04:05.000Z");
            ChatDownloadClicked (fun _ => utf16 "10:00")
              (utf16 "2025-01-02T03:04:05.000Z")]).
  vm_compute. reflexivity.
Defined.

End ExportsMore.

(* ================================================================== *)
(** * [encodeURIComponent] and the mail link *)
(* ================================================================== *)

Ltac Zify.zify_post_hook ::= Z.to_euclidean_division_equations.

Section UriMore.

Lemma hex_value_digit (d : N) : (d < 16)%N -> hex_value (hex_digit d) = d.
Proof.
  intros H. unfold hex_value, hex_digit.
  destruct (N.ltb_spec d 10).
  - destruct (N.ltb_spec (48 + d) 58); lia.
  - destruct (N.ltb_spec (55 + d) 58); lia.
Qed.

Lemma hex_digit_unreserved (d : N) :
  (d < 16)%N -> is_unreserved (hex_digit d) = true.
Proof.
  intros H. unfold hex_digit.
  destruct (N.ltb_spec d 10) as [H10 | H10].
  - assert (E : exists k, (k < 10)%nat /\ d = N.of_nat k)
      by (exists (N.to_nat d); lia).
    destruct E as (k & Hk & ->).
    do 10 (destruct k as [|k]; [reflexivity|]). lia.
  - assert (E : exists k, (k < 6)%nat /\ d = (10 + N.of_nat k)%N)
      by (exists (N.to_nat d - 10)%nat; lia).
    destruct E as (k & Hk & ->).
    do 6 (destruct k as [|k]; [reflexivity|]). lia.
Qed.

Lemma utf8_bytes_bounded (cp : N) :
  (cp < 1114112)%N -> Forall (fun b => (b < 256)%N) (utf8_bytes cp).
Proof.
  intros H. unfold utf8_bytes.
  destruct (N.ltb_spec cp 128); [repeat constructor; lia|].
  destruct (N.ltb_spec cp 2048); [repeat constructor; lia|].
  destruct (N.ltb_spec cp 65536); repeat constructor; lia.
Qed.

Lemma utf8_points_bytes (cp : N) (rest : list N) :
  (cp < 1114112)%N ->
  utf8_points (utf8_bytes cp ++ rest) = cp :: utf8_points rest.
Proof.
  intros H. unfold utf8_bytes.
  destruct (N.ltb_spec cp 128) as [H1 | H1].
  - cbn [app utf8_points]. destruct (N.ltb_spec cp 128); [reflexivity | lia].
  - destruct (N.ltb_spec cp 2048) as [H2 | H2].
    + cbn [app utf8_points].
      destruct (N.ltb_spec (192 + cp / 64) 128); [lia|].
      destruct (N.ltb_spec (192 + cp / 64) 224); [|lia].
      f_equal. unfold cont. lia.
    + destruct (N.ltb_spec cp 65536) as [H3 | H3].
      * cbn [app utf8_points].
        destruct (N.ltb_spec (224 + cp / 4096) 128); [lia|].
        destruct (N.ltb_spec (224 + cp / 4096) 224); [lia|].
        destruct (N.ltb_spec (224 + cp / 4096) 240); [|lia].
        f_equal. unfold cont. lia.
      * cbn [app utf8_points].
        destruct (N.ltb_spec (240 + cp / 262144) 128); [lia|].
        destruct (N.ltb_spec (240 + cp / 262144) 224); [lia|].
        destruct (N.ltb_spec (240 + cp / 262144) 240); [lia|].
        f_equal. unfold cont. lia.
Qed.

Lemma percent_bytes_percent (b : N) (t : jsstring) :
  (b < 256)%N -> percent_bytes (percent b ++ t) = b :: percent_bytes t.
Proof.
  intros H. unfold percent. cbn [app percent_bytes N.eqb Pos.eqb].
  rewrite !hex_value_digit by lia. f_equal. lia.
Qed.

Lemma percent_bytes_escape (cp : N) (t : jsstring) :
  (cp < 1114112)%N ->
  percent_bytes (escape cp ++ t) = utf8_bytes cp ++ percent_bytes t.
Proof.
  intros H. unfold escape.
  pose proof (utf8_bytes_bounded cp H) as Hb.
  induction Hb as [|b bs Hb _ IH]; [reflexivity|].
  cbn [flat_map]. rewrite <- app_assoc, percent_bytes_percent by exact Hb.
  cbn [app]. now rewrite IH.
Qed.

Lemma percent_decode_escape (cp : N) (t : jsstring) :
  (cp < 1114112)%N ->
  percent_decode (escape cp ++ t) = units_of_point cp ++ percent_decode t.
Proof.
  intros H. unfold percent_decode.
  now rewrite percent_bytes_escape, utf8_points_bytes by exact H.
Qed.

Lemma unreserved_is_ascii (c : N) :
  is_unreserved c = true ->
  (c < 128)%N /\ c <> 37%N
  /\ is_low_surrogate c = false /\ is_high_surrogate c = false.
Proof.
  unfold is_unreserved, is_low_surrogate, is_high_surrogate. intros H.
  assert (Hc : (c < 128)%N /\ c <> 37%N).
  { repeat match type of H with
           | (_ || _) = true => apply orb_true_iff in H; destruct H as [H | H]
           | (_ && _) = true => apply andb_true_iff in H; destruct H as [H H']
           end;
      repeat match goal with
             | X : (_ <=? _)%N = true |- _ => apply N.leb_le in X
             | X : (_ =? _)%N = true |- _ => apply N.eqb_eq in X
             end; lia. }
  destruct Hc as [Hlt Hne]. repeat split; try assumption.
  - destruct (N.leb_spec 56320 c); [lia | reflexivity].
  - destruct (N.leb_spec 55296 c); [lia | reflexivity].
Qed.

Lemma percent_decode_unreserved (c : N) (t : jsstring) :
  is_unreserved c = true ->
  percent_decode (c :: t) = c :: percent_decode t.
Proof.
  intros H. destruct (unreserved_is_ascii c H) as (Hlt & Hne & _).
  unfold percent_decode. cbn [percent_bytes].
  destruct (N.eqb_spec c 37); [congruence|].
  cbn [utf8_points]. destruct (N.ltb_spec c 128); [|lia].
  cbn [flat_map]. unfold units_of_point at 1.
  destruct (N.ltb_spec c 65536); [reflexivity | lia].
Qed.

Lemma units_of_pair (hi lo : N) :
  is_high_surrogate hi = true -> is_low_surrogate lo = true ->
  (pair_point hi lo < 1114112)%N
  /\ units_of_point (pair_point hi lo) = [hi; lo].
Proof.
  unfold is_high_surrogate, is_low_surrogate, pair_point, units_of_point.
  intros Hh Hl.
  apply andb_true_iff in Hh. destruct Hh as [Hh1 Hh2].
  apply andb_true_iff in Hl. destruct Hl as [Hl1 Hl2].
  apply N.leb_le in Hh1, Hh2, Hl1, Hl2.
  split; [lia|].
  destruct (N.ltb_spec ((hi - 55296) * 1024 + (lo - 56320) + 65536) 65536);
    [lia|].
  cbv zeta. f_equal; [lia | f_equal; lia].
Qed.

Lemma escape_safe (cp : N) :
  (cp < 1114112)%N -> Forall uri_safe (escape cp).
Proof.
  intros H. unfold escape.
  pose proof (utf8_bytes_bounded cp H) as Hb.
  induction Hb as [|b bs Hb _ IH]; [constructor|].
  cbn [flat_map]. apply Forall_app. split; [|exact IH].
  unfold percent.
  constructor; [now right|].
  constructor; [left; apply hex_digit_unreserved; lia|].
  constructor; [left; apply hex_digit_unreserved; lia | constructor].
Qed.

Lemma hex_digit_upper (d : N) :
  (d < 16)%N -> is_upper_hex (hex_digit d) = true.
Proof.
  intros H. unfold hex_digit, is_upper_hex.
  destruct (N.ltb_spec d 10).
  - destruct (N.leb_spec 48 (48 + d)), (N.leb_spec (48 + d) 57);
      try reflexivity; lia.
  - destruct (N.leb_spec 48 (55 + d)), (N.leb_spec (55 + d) 57),
      (N.leb_spec 65 (55 + d)), (N.leb_spec (55 + d) 70);
      try reflexivity; lia.
Qed.

Lemma escape_encoded (cp : N) (t : jsstring) :
  (cp < 1114112)%N -> percent_encoded t -> percent_encoded (escape cp ++ t).
Proof.
  intros H Ht. unfold escape.
  pose proof (utf8_bytes_bounded cp H) as Hb.
  induction Hb as [|b bs Hb _ IH]; [exact Ht|].
  cbn [flat_map]. rewrite <- app_assoc. unfold percent at 1. cbn [app].
  apply encoded_escape; [apply hex_digit_upper; lia.. | exact IH].
Qed.

(** What [encodeURIComponent] returns is percent-encoded text. *)
Lemma encodeURIComponent_encoded (n : nat) (s t : jsstring) :
  length s <= n -> code_units s ->
  encodeURIComponent s = Some t -> percent_encoded t.
Proof.
  revert s t; induction n as [|n IH]; intros s t Hlen Hunits.
  - destruct s; [|cbn in Hlen; lia]. intros [= <-]. constructor.
  - destruct s as [|c r]; [intros [= <-]; constructor|].
    cbn [length] in Hlen.
    assert (Hc : (c < 65536)%N) by now inversion Hunits.
    assert (Hr : code_units r) by now inversion Hunits.
    cbn [encodeURIComponent].
    destruct (is_unreserved c) eqn:Eu.
    + destruct (encodeURIComponent r) as [t'|] eqn:Er; [|discriminate].
      intros [= <-]. apply encoded_plain; [exact Eu|].
      apply (IH r t'); [lia | exact Hr | exact Er].
    + destruct (is_low_surrogate c); [discriminate|].
      destruct (is_high_surrogate c) eqn:Eh.
      * destruct r as [|d r']; [discriminate|].
        destruct (is_low_surrogate d) eqn:Ed; [|discriminate].
        assert (Hr' : code_units r') by now inversion Hr.
        cbn [length] in Hlen.
        destruct (encodeURIComponent r') as [t'|] eqn:Er; [|discriminate].
        intros [= <-]. destruct (units_of_pair c d Eh Ed) as [Hcp _].
        apply escape_encoded; [exact Hcp|].
        apply (IH r' t'); [lia | exact Hr' | exact Er].
      * destruct (encodeURIComponent r) as [t'|] eqn:Er; [|discriminate].
        intros [= <-]. apply escape_encoded; [lia|].
        apply (IH r t'); [lia | exact Hr | exact Er].
Qed.

(** What [encodeURIComponent] does with a string of at most [n] units. *)
Lemma encodeURIComponent_spec (n : nat) (s : jsstring) :
  length s <= n -> code_units s ->
  if well_formed_utf16 s
  then exists t,
         encodeURIComponent s = Some t
         /\ Forall uri_safe t
         /\ percent_decode t = s
  else encodeURIComponent s = None.
Proof.
  revert s; induction n as [|n IH]; intros s Hlen Hunits.
  - destruct s; [|cbn in Hlen; lia]. exists []. now repeat split.
  - destruct s as [|c r]; [exists []; now repeat split|].
    cbn [length] in Hlen.
    assert (Hc : (c < 65536)%N) by now inversion Hunits.
    assert (Hr : code_units r) by now inversion Hunits.
    cbn [well_formed_utf16 encodeURIComponent].
    destruct (is_unreserved c) eqn:Eu.
    + destruct (unreserved_is_ascii c Eu) as (_ & _ & -> & ->).
      specialize (IH r ltac:(lia) Hr).
      destruct (well_formed_utf16 r).
      * destruct IH as (t & -> & Hsafe & Hdec). exists (c :: t).
        split; [reflexivity | split].
        -- constructor; [now left | exact Hsafe].
        -- now rewrite (percent_decode_unreserved c t Eu), Hdec.
      * now rewrite IH.
    + destruct (is_low_surrogate c) eqn:El; [reflexivity|].
      destruct (is_high_surrogate c) eqn:Eh.
      * destruct r as [|d r']; [reflexivity|].
        destruct (is_low_surrogate d) eqn:Ed; [|reflexivity].
        cbn [andb].
        assert (Hr' : code_units r') by now inversion Hr.
        cbn [length] in Hlen.
        specialize (IH r' ltac:(lia) Hr').
        destruct (units_of_pair c d Eh Ed) as [Hcp Hpair].
        destruct (well_formed_utf16 r').
        -- destruct IH as (t & -> & Hsafe & Hdec).
           exists (escape (pair_point c d) ++ t).
           split; [reflexivity | split].
           ++ apply Forall_app. split; [now apply escape_safe | exact Hsafe].
           ++ rewrite (percent_decode_escape _ t Hcp), Hpair, Hdec.
              reflexivity.
        -- now rewrite IH.
      * specialize (IH r ltac:(lia) Hr).
        destruct (well_formed_utf16 r).
        -- destruct IH as (t & -> & Hsafe & Hdec).
           exists (escape c ++ t).
           split; [reflexivity | split].
           ++ apply Forall_app. split; [apply escape_safe; lia | exact Hsafe].
           ++ rewrite (percent_decode_escape c t ltac:(lia)), Hdec.
              unfold units_of_point.
              destruct (N.ltb_spec c 65536); [reflexivity | lia].
        -- now rewrite IH.
Qed.

Lemma encodeURIComponent_cases (s : jsstring) :
  code_units s ->
  (exists t,
     encodeURIComponent s = Some t
     /\ Forall uri_safe t
     /\ percent_decode t = s
     /\ well_formed_utf16 s = true
     /\ percent_encoded t)
  \/ (encodeURIComponent s = None /\ well_formed_utf16 s = false).
Proof.
  intros Hunits.
  pose proof (encodeURIComponent_spec (length s) s (le_n _) Hunits) as H.
  destruct (well_formed_utf16 s).
  - destruct H as (t & E & Hsafe & Hdec). left. exists t.
    repeat split; try assumption.
    exact (encodeURIComponent_encoded (length s) s t (le_n _) Hunits E).
  - right. now split.
Qed.

(** [encodeURIComponent] can be undone: on a string whose
    surrogates are paired it returns a text that decodes, percent escapes
    read as UTF-8, to the string itself; and it throws exactly on the
    strings that hold a lone surrogate. *)
Theorem encodeURIComponent_round_trip (s : jsstring) :
  code_units s ->
  (well_formed_utf16 s = true ->
   exists t, encodeURIComponent s = Some t /\ percent_decode t = s)
  /\ (encodeURIComponent s = None <-> well_formed_utf16 s = false).
Proof.
  intros Hunits.
  pose proof (encodeURIComponent_spec (length s) s (le_n _) Hunits) as H.
  destruct (well_formed_utf16 s).
  - destruct H as (t & E & _ & Hdec). split.
    + intros _. now exists t.
    + rewrite E. split; discriminate.
  - split; [discriminate | now split].
Qed.

Lemma code_units_check (s : jsstring) :
  forallb (fun c => (c <? 65536)%N) s = true -> code_units s.
Proof.
  intros H. apply Forall_forall. intros c Hc.
  rewrite forallb_forall in H. now apply N.ltb_lt, H.
Qed.

Lemma encodeURIComponent_round_trip_witness :
  exists t,
    encodeURIComponent (utf16 "图表 A&B 📈") = Some t
    /\ percent_decode t = utf16 "图表 A&B 📈".
Proof.
  destruct (encodeURIComponent_round_trip (utf16 "图表 A&B 📈"))
    as [H _].
  - apply code_units_check. vm_compute. reflexivity.
  - apply H. vm_compute. reflexivity.
Defined.

Example encodeURIComponent_example :
  encodeURIComponent (utf16 "图表 A&B 📈")
  = Some (utf16 "%E5%9B%BE%E8%A1%A8%20A%26B%20%F0%9F%93%88").
Proof. vm_compute. reflexivity. Qed.

Example encodeURIComponent_lone_surrogate :
  encodeURIComponent [65; 55357; 66]%N = None.
Proof. reflexivity. Qed.

End UriMore.

Section MailLink.

Import App Browser.

Lemma uri_safe_no_separator (c : N) : uri_safe c -> no_separator c.
Proof.
  intros [H | ->]; [|repeat split; discriminate].
  repeat split; intros ->; discriminate.
Qed.

(** The fixed words of the subject line are well formed, so the line
    holds a lone surrogate exactly when the date does. *)
Lemma mail_subject_well_formed (locale_date : jsstring) :
  well_formed_utf16 (mail_subject locale_date)
  = well_formed_utf16 locale_date.
Proof. reflexivity. Qed.

(** X22. The mail link.  Without a non-empty report or without an
    address it is the bare hash.  Otherwise building it throws exactly
    when the date or the report holds a lone surrogate; and when it does
    not throw the link is [mailto:], the address as typed, and the two
    parameters [subject] and [body], whose values are percent-encoded
    text: unreserved characters and percent escapes only, so that nothing
    in the report or in the date can end a parameter or add one; read
    back, the values are the subject line and the report. *)
Theorem mail_link_carries_report
  (locale_date : jsstring) (s : App.State) :
  code_units locale_date ->
  (forall r, analysisResult s = Some r -> code_units (markdownReport r)) ->
  match report_on_display s, email s with
  | Some report, _ :: _ =>
      match getMailtoLink locale_date s with
      | Some link =>
          well_formed_utf16 locale_date = true
          /\ well_formed_utf16 report = true
          /\ exists subject body,
               link = utf16 "mailto:" ++ email s ++ utf16 "?subject="
                      ++ subject ++ utf16 "&body=" ++ body
               /\ percent_encoded subject
               /\ percent_encoded body
               /\ Forall no_separator (subject ++ body)
               /\ percent_decode subject = mail_subject locale_date
               /\ percent_decode body = report
      | None =>
          well_formed_utf16 locale_date = false
          \/ well_formed_utf16 report = false
      end
  | _, _ => getMailtoLink locale_date s = Some (utf16 "#")
  end.
Proof.
  intros Hdate Hreport. unfold getMailtoLink.
  destruct (report_on_display s) as [report|] eqn:Hr; [|reflexivity].
  destruct (email s) as [|c e] eqn:He; [reflexivity|].
  cbn [JsString.truthy negb].
  assert (Hrep : code_units report).
  { unfold report_on_display in Hr.
    destruct (analysisResult s) as [r|]; [|discriminate].
    destruct (JsString.truthy (markdownReport r)); [|discriminate].
    injection Hr as <-. now apply Hreport. }
  assert (Hsub : code_units (mail_subject locale_date)).
  { apply Forall_app. split; [|exact Hdate].
    apply code_units_check. vm_compute. reflexivity. }
  rewrite <- (mail_subject_well_formed locale_date).
  destruct (encodeURIComponent_cases _ Hsub)
    as [(subject & Es & Hsafe & Hdec & Hw & Henc) | [Es Hw]]; rewrite Es;
    [|now left].
  destruct (encodeURIComponent_cases _ Hrep)
    as [(body & Eb & Hsafe' & Hdec' & Hw' & Henc') | [Eb Hw']]; rewrite Eb;
    [|now right].
  split; [exact Hw | split; [exact Hw'|]].
  exists subject, body. split; [reflexivity|].
  split; [exact Henc | split; [exact Henc'|]].
  split; [|now split].
  apply Forall_app. split;
    eapply Forall_impl; try apply uri_safe_no_separator; assumption.
Qed.

Lemma mail_link_carries_report_witness :
  getMailtoLink (utf16 "2025/1/2") (app analysed_page)
  = Some (utf16 "mailto:a@b.c?subject=%E5%B8%82%E5%9C%BA%E6%B4%9E%E5%AF%9F%20AI%20%E5%88%86%E6%9E%90%E6%8A%A5%E5%91%8A%20-%202025%2F1%2F2&body=%23%23%23%20Summary%0ABullish.").
Proof.
  pose proof (mail_link_carries_report (utf16 "2025/1/2") (app analysed_page))
    as H.
  assert (Hdate : code_units (utf16 "2025/1/2"))
    by (apply code_units_check; vm_compute; reflexivity).
  assert (Hrep : forall r,
            analysisResult (app analysed_page) = Some r ->
            code_units (markdownReport r)).
  { intros r [= <-]. apply code_units_check. vm_compute. reflexivity. }
  specialize (H Hdate Hrep).
  vm_compute. reflexivity.
Defined.

End MailLink.
